(** * Portfolio report generator: return windows and weighted aggregation

    A shallow embedding of [src/generate.py]: the fallback price resolver,
    the FX-rate resolver, close-price extraction from a provider frame, the
    trailing-window return, the start-weighted portfolio return, the
    since-inception return and the rendering of absent values; further,
    the ticker normaliser, the company-name lookup, the history cache, the
    per-holding loop of [main] and the escaping of the cards.

    Conventions of the embedding.
    - A Python [float] is a [pyfloat]: either [NaN] or an exact rational
      ([Qc]).  Rounding, infinities and the sign of zero of binary64 are not
      modelled; every statement below is one of exact arithmetic, except
      in the module [Binary64], which computes the weighted quotient on
      binary64 floats.
    - A Python exception is a value [Raise e] of the [result] monad; a
      [try ... except Exception: pass] block is [catch].
    - A timestamp is a number of microseconds ([Z]); a pandas Series is the
      list of its (index, value) rows.
    - [datetime.now()] is the parameter [now]: a function that reads the
      clock takes the instant it reads, and within [main] one instant
      stands for every reading of the run.  A date is any integer: the
      range of [datetime] is not modelled.
    - A provider handle [yf.Ticker(symbol)] is taken as built; the calls
      on it are the fields of [Provider].
    - A Python [str] is a [string]; [strip] and [upper] are those of
      Python on ASCII text. *)

From Stdlib Require Import QArith Qcanon Qround ZArith Lia Lqa Ascii String.
From Stdlib Require PrimFloat.
From stdpp Require Import base numbers list strings gmap pretty sorting.

Local Open Scope Z_scope.

(** ** Floats *)

Inductive pyfloat : Type :=
| NaN
| Fin (q : Qc).

Definition Qz (n : Z) : Qc := Qc_of_Z n.

(** [1.5], the fixed default of [get_aud_per_usd]. *)
Definition q_1_5 : Qc := Q2Qc (3 # 2).

Definition fzero : pyfloat := Fin (Qz 0).
Definition fone : pyfloat := Fin (Qz 1).

Global Instance pyfloat_eq_dec : EqDecision pyfloat.
Proof. solve_decision. Defined.

(** [pd.isna(x)] on a float. *)
Definition isna (x : pyfloat) : bool :=
  match x with NaN => true | Fin _ => false end.

(** [x == y]: false as soon as one side is NaN. *)
Definition feq (x y : pyfloat) : bool :=
  match x, y with
  | Fin a, Fin b => bool_decide (a = b)
  | _, _ => false
  end.

(** [x < y] and [x <= y]: false as soon as one side is NaN. *)
Definition flt (x y : pyfloat) : bool :=
  match x, y with
  | Fin a, Fin b => bool_decide (a < b)%Qc
  | _, _ => false
  end.

Definition fle (x y : pyfloat) : bool :=
  match x, y with
  | Fin a, Fin b => bool_decide (a ≤ b)%Qc
  | _, _ => false
  end.

(** Truth value of a float ([if x:]): [x != 0.0], so NaN is truthy. *)
Definition truthy (x : pyfloat) : bool := negb (feq x fzero).

Definition fadd (x y : pyfloat) : pyfloat :=
  match x, y with
  | Fin a, Fin b => Fin (a + b)%Qc
  | _, _ => NaN
  end.

Definition fsub (x y : pyfloat) : pyfloat :=
  match x, y with
  | Fin a, Fin b => Fin (a - b)%Qc
  | _, _ => NaN
  end.

Definition fmul (x y : pyfloat) : pyfloat :=
  match x, y with
  | Fin a, Fin b => Fin (a * b)%Qc
  | _, _ => NaN
  end.

(** ** Exceptions *)

Inductive exn : Type :=
| ZeroDivisionError
| IndexError
| KeyError
| TypeError
| ValueError
| UnboundLocalError
| ProviderError.

Inductive result (A : Type) : Type :=
| Ok (a : A)
| Raise (e : exn).
Arguments Ok {A} a.
Arguments Raise {A} e.

Global Instance result_ret : MRet result := λ A a, Ok a.
Global Instance result_bind : MBind result := λ A B k m,
  match m with
  | Ok a => k a
  | Raise e => Raise e
  end.
Global Instance result_fmap : FMap result := λ A B f m,
  match m with
  | Ok a => Ok (f a)
  | Raise e => Raise e
  end.

(** [try: body except Exception: handler]. *)
Definition catch {A : Type} (body : result A) (handler : A) : A :=
  match body with
  | Ok a => a
  | Raise _ => handler
  end.

(** Python's [x / y] on floats: a zero divisor raises. *)
Definition pydiv (x y : pyfloat) : result pyfloat :=
  match y with
  | NaN => Ok NaN
  | Fin b =>
      if bool_decide (b = Qz 0) then Raise ZeroDivisionError
      else match x with
           | NaN => Ok NaN
           | Fin a => Ok (Fin (a / b)%Qc)
           end
  end.

(** ** Series *)

Abbreviation Series := (list (Z * pyfloat)).

Definition us_per_day : Z := 86400000000.

(** [timedelta(days=n)]. *)
Definition timedelta_days (n : Z) : Z := n * us_per_day.

(** [td.days]: whole days, rounded towards minus infinity. *)
Definition td_days (td : Z) : Z := td / us_per_day.

Definition s_index (s : Series) : list Z := s.*1.

(** [s.iloc[i]] for [0 <= i]. *)
Definition iloc (s : Series) (i : nat) : result pyfloat :=
  match s !! i with
  | Some (_, v) => Ok v
  | None => Raise IndexError
  end.

(** [s.iloc[-1]]. *)
Definition iloc_last (s : Series) : result pyfloat :=
  match last s with
  | Some (_, v) => Ok v
  | None => Raise IndexError
  end.

(** [idx[0]] and [idx[-1]] of an index. *)
Definition index_first (ix : list Z) : result Z :=
  match ix with
  | t :: _ => Ok t
  | [] => Raise IndexError
  end.

Definition index_last (ix : list Z) : result Z :=
  match last ix with
  | Some t => Ok t
  | None => Raise IndexError
  end.

(** [s.dropna()]. *)
Definition dropna (s : Series) : Series :=
  filter (λ r, isna r.2 = false) s.

(** [s.sort_index()]: ascending by timestamp.  Rows with equal timestamps
    keep their order (for an index without duplicates every sort agrees). *)
Fixpoint insert_row (r : Z * pyfloat) (s : Series) : Series :=
  match s with
  | [] => [r]
  | r' :: s' =>
      if bool_decide (r.1 ≤ r'.1) then r :: r' :: s'
      else r' :: insert_row r s'
  end.

Definition sort_index (s : Series) : Series := foldr insert_row [] s.

(** [idx.searchsorted(v)] (side = left): binary search for the leftmost
    insertion point. *)
Fixpoint bisect_left (fuel : nat) (a : list Z) (v : Z) (lo hi : nat) : nat :=
  match fuel with
  | O => lo
  | S fuel' =>
      if bool_decide (lo < hi)%nat then
        let mid := (lo + (hi - lo) / 2)%nat in
        match a !! mid with
        | Some x =>
            if bool_decide (x < v) then bisect_left fuel' a v (S mid) hi
            else bisect_left fuel' a v lo mid
        | None => lo
        end
      else lo
  end.

Definition searchsorted (a : list Z) (v : Z) : nat :=
  bisect_left (length a) a v 0 (length a).

(** ** Trailing-window return *)

(** [int(months * 30.5)]: truncation towards zero. *)
Definition window_days (months : Z) : Z := Z.quot (months * 61) 2.

(** [datetime.now() - timedelta(days=int(months * 30.5))], for a date
    within the range of [datetime]. *)
Definition target_dt (now months : Z) : Z :=
  now - timedelta_days (window_days months).

(** The index used as reference: [searchsorted], clamped to the last row. *)
Definition ref_index (s : Series) (target : Z) : nat :=
  let idx := searchsorted (s_index s) target in
  if bool_decide (length s ≤ idx)%nat then (length s - 1)%nat else idx.

Definition _window_return_from_series (now : Z) (s : option Series)
    (months min_days_required : Z) : result (option pyfloat) :=
  match s with
  | None => Ok None
  | Some s =>
      if bool_decide (s = []) then Ok None
      else
        let s := sort_index s in
        last_ ← iloc_last s ;
        if isna last_ then Ok None
        else
          let idx := ref_index s (target_dt now months) in
          ref ← iloc s idx ;
          t_last ← index_last (s_index s) ;
          t_first ← index_first (s_index s) ;
          let days_span := td_days (t_last - t_first) in
          if bool_decide (days_span < min_days_required)
             || feq ref fzero || isna ref
          then Ok None
          else
            r ← pydiv (fsub last_ ref) ref ;
            Ok (Some r)
  end.

(** ** Rendering of returns *)

(** Nearest integer of a non-negative rational, ties to even. *)
Definition round_half_even (x : Qc) : Z :=
  let fl := Qfloor x in
  let twice_rem := ((x - Qz fl) * Qz 2)%Qc in
  if bool_decide (twice_rem < Qz 1)%Qc then fl
  else if bool_decide (Qz 1 < twice_rem)%Qc then fl + 1
  else if Z.even fl then fl else fl + 1.

Definition Qc_abs (x : Qc) : Qc :=
  if bool_decide (x < Qz 0)%Qc then (- x)%Qc else x.

(** The format specification [.1f]. *)
Definition format_1f (x : pyfloat) : string :=
  match x with
  | NaN => "nan"
  | Fin q =>
      let tenths := round_half_even (Qc_abs q * Qz 10)%Qc in
      (if bool_decide (q < Qz 0)%Qc then "-" else "")
        +:+ pretty (tenths / 10) +:+ "." +:+ pretty (tenths mod 10)
  end.

(** [f"{r*100:.1f}%"]. *)
Definition format_pct (r : pyfloat) : string :=
  format_1f (fmul r (Fin (Qz 100))) +:+ "%".

(** [to_str] of [compute_individual_perf_from_hist]. *)
Definition to_str (r : option pyfloat) : string :=
  match r with
  | None => ""
  | Some r => format_pct r
  end.

(** The lambda applied to [ActualPerfNum]. *)
Definition actual_perf_str (r : pyfloat) : string :=
  if isna r then "" else format_pct r.

Definition fmt_badge_val (r : option pyfloat) : string :=
  match r with
  | None => "-"
  | Some r => format_pct r
  end.

(** [s or "-"], as the console line and the cards read a perf column. *)
Definition or_dash (s : string) : string :=
  if bool_decide (s = "") then "-" else s.

Definition dq : string := String "034"%char "".

Definition span (kind cls text : string) : string :=
  "<span class=" +:+ dq +:+ kind +:+ " " +:+ cls +:+ dq +:+ ">"
    +:+ text +:+ "</span>".

Definition sign_class (val : pyfloat) : string :=
  if flt fzero val then "pos" else if flt val fzero then "neg" else "neu".

(** [s.replace("%", "")]. *)
Fixpoint remove_percent (s : string) : string :=
  match s with
  | EmptyString => EmptyString
  | String c s' =>
      if bool_decide (c = "%"%char) then remove_percent s'
      else String c (remove_percent s')
  end.

(** [perf_span]; [pyfloat_of_str] stands for Python's [float] on a string. *)
Definition perf_span (pyfloat_of_str : string → result pyfloat) (s : string)
    : string :=
  if bool_decide (s = "") || bool_decide (s = "-") then span "perf" "neu" "-"
  else
    match pyfloat_of_str (remove_percent s) with
    | Raise _ => span "perf" "neu" s
    | Ok val => span "perf" (sign_class val) s
    end.

Definition badge (val : option pyfloat) : string :=
  match val with
  | None => span "badge" "neu" "-"
  | Some v => span "badge" (sign_class v) (format_pct v)
  end.

(** ** Provider frames *)

Abbreviation Column := (list pyfloat).

(** What sits under one first-level label of a two-level column index: the
    per-symbol columns, or a single column. *)
Inductive Block : Type :=
| BFrame (cols : list (string * Column))
| BSeries (col : Column).

(** Column layouts: one column per field, or one block per field. *)
Inductive Columns : Type :=
| Flat (cols : list (string * Column))
| Multi (fields : list (string * Block)).

Record DataFrame : Type := {
  df_index : list Z;
  df_columns : Columns
}.

(** A pandas object as indexing returns it. *)
Inductive pdobj : Type :=
| PSeries (s : Series)
| PFrame (index : list Z) (cols : list (string * Column)).

Definition block_width (b : Block) : nat :=
  match b with
  | BFrame cols => length cols
  | BSeries _ => 1
  end.

Definition n_columns (c : Columns) : nat :=
  match c with
  | Flat cols => length cols
  | Multi fields => sum_list (block_width <$> fields.*2)
  end.

(** [hist.empty]: no row or no column. *)
Definition df_empty (hist : DataFrame) : bool :=
  bool_decide (df_index hist = []) || bool_decide (n_columns (df_columns hist) = 0%nat).

(** [hasattr(cols, "levels")]. *)
Definition has_levels (c : Columns) : bool :=
  match c with
  | Flat _ => false
  | Multi _ => true
  end.

(** [label in cols.levels[0]]. *)
Definition in_level0 (label : string) (c : Columns) : bool :=
  match c with
  | Flat _ => false
  | Multi fields => bool_decide (label ∈ fields.*1)
  end.

(** [label in cols]; on a two-level index a first-level label matches. *)
Definition in_columns (label : string) (c : Columns) : bool :=
  match c with
  | Flat cols => bool_decide (label ∈ cols.*1)
  | Multi fields => bool_decide (label ∈ fields.*1)
  end.

Fixpoint assoc {A : Type} (k : string) (l : list (string * A)) : option A :=
  match l with
  | [] => None
  | (k', v) :: l' => if bool_decide (k = k') then Some v else assoc k l'
  end.

Definition series_of (ix : list Z) (col : Column) : Series := zip ix col.

(** [hist[label]]. *)
Definition getitem (hist : DataFrame) (label : string) : result pdobj :=
  match df_columns hist with
  | Flat cols =>
      match assoc label cols with
      | Some col => Ok (PSeries (series_of (df_index hist) col))
      | None => Raise KeyError
      end
  | Multi fields =>
      match assoc label fields with
      | Some (BFrame cols) => Ok (PFrame (df_index hist) cols)
      | Some (BSeries col) => Ok (PSeries (series_of (df_index hist) col))
      | None => Raise KeyError
      end
  end.

(** Whether row [i] holds a value in every column. *)
Definition row_complete (cols : list (string * Column)) (i : nat) : bool :=
  forallb (λ c : string * Column,
             match c.2 !! i with
             | Some v => negb (isna v)
             | None => false
             end) cols.

(** Keeps the entries of [l] at the positions where [mask] holds. *)
Definition keep {A : Type} (mask : nat → bool) (l : list A) : list A :=
  (filter (λ p : nat * A, mask p.1 = true) (imap pair l)).*2.

(** [obj.dropna()]: a frame loses every row with a missing value. *)
Definition obj_dropna (o : pdobj) : pdobj :=
  match o with
  | PSeries s => PSeries (dropna s)
  | PFrame ix cols =>
      let mask := row_complete cols in
      PFrame (keep mask ix) (prod_map id (keep mask) <$> cols)
  end.

(** [obj.empty]. *)
Definition obj_empty (o : pdobj) : bool :=
  match o with
  | PSeries s => bool_decide (s = [])
  | PFrame ix cols => bool_decide (ix = []) || bool_decide (cols = [])
  end.

(** [df.iloc[:, 0]]. *)
Definition first_column (ix : list Z) (cols : list (string * Column))
    : result Series :=
  match cols with
  | c :: _ => Ok (series_of ix c.2)
  | [] => Raise IndexError
  end.

Definition close_labels : list string :=
  ["Close"; "Adj Close"; "close"; "adjclose"].

(** The first loop of [_get_close_series].  [Ok (Some r)] is [return r];
    [Ok None] is the loop running to its end. *)
Fixpoint close_loop_levels (hist : DataFrame) (labels : list string)
    : result (option (option pdobj)) :=
  match labels with
  | [] => Ok None
  | label :: rest =>
      if in_level0 label (df_columns hist) then
        df ← obj_dropna <$> getitem hist label ;
        if obj_empty df then close_loop_levels hist rest
        else
          match df with
          | PFrame ix cols =>
              s ← dropna <$> first_column ix cols ;
              Ok (Some (if bool_decide (s = []) then None
                        else Some (PSeries s)))
          | PSeries _ =>
              (* [return df if not s.empty else None]: [s] was never bound *)
              Raise UnboundLocalError
          end
      else close_loop_levels hist rest
  end.

(** The second loop. *)
Fixpoint close_loop_flat (hist : DataFrame) (labels : list string)
    : result (option (option pdobj)) :=
  match labels with
  | [] => Ok None
  | label :: rest =>
      if in_columns label (df_columns hist) then
        s ← obj_dropna <$> getitem hist label ;
        Ok (Some (if obj_empty s then None else Some s))
      else close_loop_flat hist rest
  end.

Definition _get_close_series (hist : option DataFrame)
    : result (option pdobj) :=
  match hist with
  | None => Ok None
  | Some hist =>
      if df_empty hist then Ok None
      else
        r ← (if has_levels (df_columns hist)
             then close_loop_levels hist close_labels
             else Ok None) ;
        match r with
        | Some v => Ok v
        | None =>
            r' ← close_loop_flat hist close_labels ;
            Ok (default None r')
        end
  end.

(** A frame where a Series is expected: [float(row)] on a row of several
    values raises.  [_get_close_series] never returns one (see
    [get_close_series_never_frame]). *)
Definition as_series (o : option pdobj) : result (option Series) :=
  match o with
  | None => Ok None
  | Some (PSeries s) => Ok (Some s)
  | Some (PFrame _ _) => Raise TypeError
  end.

Definition compute_individual_perf_from_hist (now : Z) (hist : option DataFrame)
    : result (string * string * string
              * option pyfloat * option pyfloat * option pyfloat) :=
  o ← _get_close_series hist ;
  s ← as_series o ;
  r1 ← _window_return_from_series now s 1 20 ;
  r6 ← _window_return_from_series now s 6 120 ;
  r12 ← _window_return_from_series now s 12 250 ;
  Ok (to_str r1, to_str r6, to_str r12, r1, r6, r12).

(** ** The market-data provider *)

(** A value of the provider's [info] dictionary: a number, or something
    [float] rejects.  A key bound to [None] is modelled as absent. *)
Inductive infoval : Type :=
| IVNum (x : pyfloat)
| IVBad.

(** The provider's answers.  [Raise] is any exception of the call. *)
Record Provider : Type := {
  (** [tk.fast_info.last_price]; [Ok None] when [fast_info] is missing or
      falsy, or its [last_price] is [None]. *)
  fast_info_last_price : string → result (option pyfloat);
  (** [tk.history(period, interval)]. *)
  history : string → string → string → result DataFrame;
  (** [tk.info]. *)
  info : string → result (option (gmap string infoval));
  (** [yf.download(symbol, period, interval)]. *)
  download : string → string → string → result DataFrame
}.

Inductive call : Type :=
| CallFastInfo (sym : string)
| CallHistory (sym period interval : string)
| CallInfo (sym : string).

Global Instance call_eq_dec : EqDecision call.
Proof. solve_decision. Defined.

(** [float(obj.iloc[-1])]: the last value of a Series; the last row of a
    frame converts only when it holds a single value. *)
Definition float_iloc_last (o : pdobj) : result pyfloat :=
  match o with
  | PSeries s => iloc_last s
  | PFrame ix cols =>
      match cols with
      | [c] => iloc_last (series_of ix c.2)
      | _ => Raise TypeError
      end
  end.

(** [float(h["Close"].iloc[-1])] under the guard
    [not h.empty and "Close" in h]. *)
Definition last_close (h : DataFrame) : result (option pyfloat) :=
  if negb (df_empty h) && in_columns "Close" (df_columns h) then
    o ← getitem h "Close" ;
    v ← float_iloc_last o ;
    Ok (Some v)
  else Ok None.

(** A computation that asks the provider: its value, and the calls it
    made, in their order. *)
Definition traced (A : Type) : Type := (A * list call)%type.

(** The three kinds of call on the handle [tk]: each returns the
    provider's answer and records itself. *)
Definition ask_fast_info (p : Provider) (sym : string)
    : traced (result (option pyfloat)) :=
  (fast_info_last_price p sym, [CallFastInfo sym]).

Definition ask_history (p : Provider) (sym period interval : string)
    : traced (result DataFrame) :=
  (history p sym period interval, [CallHistory sym period interval]).

Definition ask_info (p : Provider) (sym : string)
    : traced (result (option (gmap string infoval))) :=
  (info p sym, [CallInfo sym]).

(** One [try: ... except Exception: pass] block that asks the provider
    and works on the answer: [Some v] is [return v], [None] is falling
    out of the block. *)
Definition try_tier {A : Type} (ask : traced (result A))
    (body : A → result (option pyfloat)) : traced (option pyfloat) :=
  (catch (a ← ask.1 ; body a) None, ask.2).

(** Two blocks in sequence: the second runs only when the first did not
    return. *)
Definition or_next (m next : traced (option pyfloat))
    : traced (option pyfloat) :=
  match m.1 with
  | Some v => (Some v, m.2)
  | None => (next.1, m.2 ++ next.2)
  end.

(** Tier 1: the body of the first [try], on the [last_price] read. *)
Definition fast_info_body (lp : option pyfloat) : result (option pyfloat) :=
  match lp with
  | Some v => if truthy v then Ok (Some v) else Ok None
  | None => Ok None
  end.

Definition tier_fast_info (p : Provider) (sym : string)
    : result (option pyfloat) :=
  lp ← fast_info_last_price p sym ;
  fast_info_body lp.

(** Tiers 2 and 3. *)
Definition tier_history (p : Provider) (sym period interval : string)
    : result (option pyfloat) :=
  h ← history p sym period interval ;
  last_close h.

Definition info_keys : list string :=
  ["regularMarketPrice"; "currentPrice"; "previousClose"].

Fixpoint info_loop (d : gmap string infoval) (keys : list string)
    : result (option pyfloat) :=
  match keys with
  | [] => Ok None
  | k :: rest =>
      match d !! k with
      | Some (IVNum x) => Ok (Some x)
      | Some IVBad => Raise ValueError
      | None => info_loop d rest
      end
  end.

(** Tier 4: the body of the last [try], on [tk.info]. *)
Definition info_body (i : option (gmap string infoval))
    : result (option pyfloat) :=
  info_loop (default ∅ i) info_keys.

Definition tier_info (p : Provider) (sym : string) : result (option pyfloat) :=
  i ← info p sym ;
  info_body i.

(** [get_price_native] once the handle [tk = yf.Ticker(ticker_yf)] of
    line 29 is built (the constructor stands outside the four [try]
    blocks and is not modelled): the price, with the provider calls made
    on the way. *)
Definition get_price_native (p : Provider) (ticker_yf : string)
    : option pyfloat * list call :=
  or_next (try_tier (ask_fast_info p ticker_yf) fast_info_body)
    (or_next (try_tier (ask_history p ticker_yf "1d" "1m") last_close)
       (or_next (try_tier (ask_history p ticker_yf "5d" "1d") last_close)
          (try_tier (ask_info p ticker_yf) info_body))).

Definition default_rate : pyfloat := Fin q_1_5.

(** The body of the [try] of [get_aud_per_usd]; [Ok None] is falling out
    of the [if]. *)
Definition aud_per_usd_body (p : Provider) : result (option pyfloat) :=
  fx ← download p "AUDUSD=X" "5d" "1d" ;
  c ← last_close fx ;
  match c with
  | Some usd_per_aud =>
      if truthy usd_per_aud then
        r ← pydiv fone usd_per_aud ;
        Ok (Some r)
      else Ok (Some default_rate)
  | None => Ok None
  end.

Definition get_aud_per_usd (p : Provider) : pyfloat :=
  default default_rate (catch (aud_per_usd_body p) None).

Definition get_daily_hist_400d (p : Provider) (ticker_yf : string)
    : option DataFrame :=
  catch (hist ← download p ticker_yf "400d" "1d" ;
         Ok (if df_empty hist then None else Some hist)) None.

(** ** Company names *)

(** A scalar of the provider's [info] payload, as Python holds it. *)
Inductive pyval : Type :=
| PyNone
| PyStr (s : string)
| PyNum (x : pyfloat)
| PyBool (b : bool).

(** Truth value of an object: [None], the empty text, zero and [False]
    are falsy. *)
Definition py_truthy (v : pyval) : bool :=
  match v with
  | PyNone => false
  | PyStr s => negb (bool_decide (s = ""))
  | PyNum x => truthy x
  | PyBool b => b
  end.

(** [a or b]. *)
Definition py_or (a b : pyval) : pyval := if py_truthy a then a else b.

(** [d.get(k)]. *)
Definition py_get (d : gmap string pyval) (k : string) : pyval :=
  default PyNone (d !! k).

(** [get_company_name]; [info sym] is [yf.Ticker(sym).info], [Raise] any
    exception inside the [try]. *)
Definition get_company_name
    (info : string → result (option (gmap string pyval)))
    (ticker_yf : string) : pyval :=
  catch (i ← info ticker_yf ;
         let d := default ∅ i in
         Ok (py_or (py_or (py_get d "longName") (py_get d "shortName"))
                   (PyStr ticker_yf)))
        (PyStr ticker_yf).

(** ** Escaping *)

(** [s.replace(c, rep)] for a one-character pattern. *)
Fixpoint replace_char (c : ascii) (rep : string) (s : string) : string :=
  match s with
  | EmptyString => EmptyString
  | String a s' =>
      if bool_decide (a = c) then rep +:+ replace_char c rep s'
      else String a (replace_char c rep s')
  end.

(** [html.escape(s)], with [quote=True]: the ampersand first. *)
Definition html_escape (s : string) : string :=
  let s := replace_char "&" "&amp;" s in
  let s := replace_char "<" "&lt;" s in
  let s := replace_char ">" "&gt;" s in
  let s := replace_char "034" "&quot;" s in
  replace_char "'" "&#x27;" s.

(** ** Holdings *)

(** A row of the sheet after the clean-up at the top of [main]: ticker and
    market trimmed and upper-cased, a non-numeric quantity replaced by 0,
    a non-numeric or missing average cost by NaN. *)
Record Holding : Type := {
  h_Ticker : string;
  h_Market : string;
  h_Quantity : pyfloat;
  h_AvgCost : pyfloat
}.

Fixpoint contains_dot (t : string) : bool :=
  match t with
  | EmptyString => false
  | String c t' => bool_decide (c = "."%char) || contains_dot t'
  end.

(** ASCII white space, as [str.strip] sees it. *)
Definition is_space (c : ascii) : bool :=
  let n := nat_of_ascii c in
  bool_decide (9 ≤ n ≤ 13)%nat || bool_decide (28 ≤ n ≤ 32)%nat.

Fixpoint lstrip (s : string) : string :=
  match s with
  | EmptyString => EmptyString
  | String c s' => if is_space c then lstrip s' else s
  end.

Fixpoint rstrip (s : string) : string :=
  match s with
  | EmptyString => EmptyString
  | String c s' =>
      match rstrip s' with
      | EmptyString => if is_space c then EmptyString else String c EmptyString
      | r => String c r
      end
  end.

(** [s.strip()] on ASCII text. *)
Definition strip (s : string) : string := rstrip (lstrip s).

Definition upper_char (c : ascii) : ascii :=
  let n := nat_of_ascii c in
  if bool_decide (97 ≤ n ≤ 122)%nat then ascii_of_nat (n - 32) else c.

(** [s.upper()] on ASCII text. *)
Fixpoint upper (s : string) : string :=
  match s with
  | EmptyString => EmptyString
  | String c s' => String (upper_char c) (upper s')
  end.

(** [norm_ticker]; an empty market is the falsy one of [market or "ASX"]. *)
Definition norm_ticker (t market : string) : string :=
  let t := upper (strip t) in
  let m := upper (strip (if bool_decide (market = "") then "ASX" else market)) in
  if contains_dot t then t
  else if bool_decide (m = "ASX") then t +:+ ".AX" else t.

(** [px * aud_per_usd if mkt == "US" else px]. *)
Definition price_to_aud (aud_per_usd px : pyfloat) (mkt : string) : pyfloat :=
  if bool_decide (mkt = "US") then fmul px aud_per_usd else px.

(** [cost_to_aud]; NaN stands for [pd.NA]. *)
Definition cost_to_aud (aud_per_usd : pyfloat) (market : string)
    (avg_cost : pyfloat) : pyfloat :=
  if isna avg_cost then NaN
  else if bool_decide (market = "US") then fmul avg_cost aud_per_usd
  else avg_cost.

(** The columns of [df] that the aggregates read.  NaN is a missing cell. *)
Record Row : Type := {
  Ticker : string;
  Market : string;
  Quantity : pyfloat;
  TickerYF : string;
  PriceAUD : pyfloat;
  MarketValueAUD : pyfloat;
  AvgCostAUD : pyfloat
}.

(** The dictionaries filled by the per-holding loop. *)
Record Dicts : Type := {
  native_price : gmap string pyfloat;
  price_aud : gmap string pyfloat;
  perf_str : gmap string (string * string * string);
  perf1_num : gmap string (option pyfloat);
  perf6_num : gmap string (option pyfloat);
  perf12_num : gmap string (option pyfloat)
}.

Definition empty_dicts : Dicts :=
  {| native_price := ∅; price_aud := ∅; perf_str := ∅;
     perf1_num := ∅; perf6_num := ∅; perf12_num := ∅ |}.

(** [d.get(k)] on a dictionary whose values may be [None]. *)
Definition dict_get {A : Type} (d : gmap string (option A)) (k : string)
    : option A :=
  mjoin (d !! k).

(** One turn of the per-holding loop of [main]. *)
Definition holding_step (p : Provider) (now : Z) (aud_per_usd : pyfloat)
    (hist_cache : gmap string (option DataFrame)) (d : Dicts) (h : Holding)
    : result Dicts :=
  let t_plain := h_Ticker h in
  let t_yf := norm_ticker (h_Ticker h) (h_Market h) in
  match (get_price_native p t_yf).1 with
  | None => Ok d
  | Some px =>
      let hist := dict_get hist_cache t_yf in
      '(p1s, p6s, p12s, p1n, p6n, p12n) ←
        compute_individual_perf_from_hist now hist ;
      Ok {| native_price := <[t_plain := px]> (native_price d);
            price_aud :=
              <[t_plain := price_to_aud aud_per_usd px (h_Market h)]>
                (price_aud d);
            perf_str := <[t_plain := (p1s, p6s, p12s)]> (perf_str d);
            perf1_num := <[t_plain := p1n]> (perf1_num d);
            perf6_num := <[t_plain := p6n]> (perf6_num d);
            perf12_num := <[t_plain := p12n]> (perf12_num d) |}
  end.

Fixpoint holdings_loop (p : Provider) (now : Z) (aud_per_usd : pyfloat)
    (hist_cache : gmap string (option DataFrame)) (d : Dicts)
    (hs : list Holding) : result Dicts :=
  match hs with
  | [] => Ok d
  | h :: hs' =>
      d' ← holding_step p now aud_per_usd hist_cache d h ;
      holdings_loop p now aud_per_usd hist_cache d' hs'
  end.

(** The pre-fetch loop: one [get_daily_hist_400d] per symbol. *)
Definition prefetch (p : Provider) (hs : list Holding)
    : gmap string (option DataFrame) :=
  foldl (λ cache h,
           let t_yf := norm_ticker (h_Ticker h) (h_Market h) in
           <[t_yf := get_daily_hist_400d p t_yf]> cache) ∅ hs.

(** [df["Ticker"].map(d.get)] on a float column. *)
Definition map_get (d : gmap string pyfloat) (k : string) : pyfloat :=
  default NaN (d !! k).

(** The row of [df] for a holding, once the derived columns are set;
    [has_avgcost] tells whether the sheet has an [AvgCost] column. *)
Definition make_row (aud_per_usd : pyfloat) (has_avgcost : bool) (d : Dicts)
    (h : Holding) : Row :=
  let px_aud := map_get (price_aud d) (h_Ticker h) in
  {| Ticker := h_Ticker h;
     Market := h_Market h;
     Quantity := h_Quantity h;
     TickerYF := norm_ticker (h_Ticker h) (h_Market h);
     PriceAUD := px_aud;
     MarketValueAUD := fmul (h_Quantity h) px_aud;
     AvgCostAUD :=
       if has_avgcost then cost_to_aud aud_per_usd (h_Market h) (h_AvgCost h)
       else NaN |}.

(** [sort_values("MarketValueAUD", ascending=False)]: missing values
    last.  Equal values keep the order of the sheet here; pandas' default
    sort does not fix their order. *)
Fixpoint insert_by_value (r : Row) (l : list Row) : list Row :=
  match l with
  | [] => [r]
  | r' :: l' =>
      if fle (MarketValueAUD r') (MarketValueAUD r)
         || isna (MarketValueAUD r')
      then r :: r' :: l'
      else r' :: insert_by_value r l'
  end.

Definition sort_values_desc (l : list Row) : list Row :=
  foldr insert_by_value [] l.

(** [shown]: the priced rows, largest market value first. *)
Definition shown_of (df : list Row) : list Row :=
  sort_values_desc (filter (λ r, isna (PriceAUD r) = false) df).

(** pandas' [sum()]: missing values are skipped. *)
Definition pd_sum (l : list pyfloat) : pyfloat :=
  foldl (λ acc x, if isna x then acc else fadd acc x) fzero l.

(** ** Portfolio aggregates *)

(** One turn of the loop of [agg_with_start_weights]: [Ok None] is
    [continue], [Ok (Some (mv_start, ret))] is what is appended to
    [usable]. *)
Definition agg_row (aud_per_usd : pyfloat)
    (hist_cache : gmap string (option DataFrame))
    (ret_dict : gmap string (option pyfloat)) (target : Z) (r : Row)
    : result (option (pyfloat * pyfloat)) :=
  match dict_get ret_dict (Ticker r) with
  | None => Ok None
  | Some ret =>
      let t_yf := TickerYF r in
      if bool_decide (t_yf = "") then Ok None
      else
        let hist := dict_get hist_cache t_yf in
        o ← _get_close_series hist ;
        s ← as_series o ;
        match s with
        | None => Ok None
        | Some s =>
            if bool_decide (s = []) then Ok None
            else
              let idx := ref_index s target in
              match iloc s idx with
              | Raise _ => Ok None
              | Ok p_start =>
                  if isna p_start || feq p_start fzero then Ok None
                  else
                    let p_start_aud :=
                      price_to_aud aud_per_usd p_start (Market r) in
                    let mv_start := fmul (Quantity r) p_start_aud in
                    if fle mv_start fzero then Ok None
                    else Ok (Some (mv_start, ret))
              end
        end
  end.

(** The loop, threading [usable] and [total_start_mv]. *)
Fixpoint agg_loop (aud_per_usd : pyfloat)
    (hist_cache : gmap string (option DataFrame))
    (ret_dict : gmap string (option pyfloat)) (target : Z)
    (rows : list Row) (usable : list (pyfloat * pyfloat))
    (total_start_mv : pyfloat)
    : result (list (pyfloat * pyfloat) * pyfloat) :=
  match rows with
  | [] => Ok (usable, total_start_mv)
  | r :: rows' =>
      c ← agg_row aud_per_usd hist_cache ret_dict target r ;
      match c with
      | None =>
          agg_loop aud_per_usd hist_cache ret_dict target rows'
            usable total_start_mv
      | Some (mv_start, ret) =>
          agg_loop aud_per_usd hist_cache ret_dict target rows'
            (usable ++ [(mv_start, ret)]) (fadd total_start_mv mv_start)
      end
  end.

(** Python's [sum] over a generator of floats. *)
Definition py_sum (l : list pyfloat) : pyfloat := foldl fadd fzero l.

Definition agg_with_start_weights (now : Z) (aud_per_usd : pyfloat)
    (hist_cache : gmap string (option DataFrame)) (shown_df : list Row)
    (ret_dict : gmap string (option pyfloat)) (months : Z)
    : result (option pyfloat) :=
  let target := target_dt now months in
  '(usable, total_start_mv) ←
    agg_loop aud_per_usd hist_cache ret_dict target shown_df [] fzero ;
  if bool_decide (usable = []) || fle total_start_mv fzero then Ok None
  else
    r ← pydiv (py_sum ((λ u : pyfloat * pyfloat, fmul u.1 u.2) <$> usable))
              total_start_mv ;
    Ok (Some r).

(** The rows that enter the since-inception return. *)
Definition have_cost_of (shown : list Row) : list Row :=
  filter (λ r, isna (AvgCostAUD r) = false) shown.

Definition cost_aud (r : Row) : pyfloat := fmul (AvgCostAUD r) (Quantity r).

(** The block computing [port_actual]. *)
Definition port_actual_of (shown : list Row) : result (option pyfloat) :=
  if bool_decide (shown = []) then Ok None
  else
    let have_cost := have_cost_of shown in
    if bool_decide (have_cost = []) then Ok None
    else
      let total_cost_aud := pd_sum (cost_aud <$> have_cost) in
      let total_mv_with_cost := pd_sum (MarketValueAUD <$> have_cost) in
      if truthy total_cost_aud && flt fzero total_cost_aud then
        r ← pydiv (fsub total_mv_with_cost total_cost_aud) total_cost_aud ;
        Ok (Some r)
      else Ok None.

(** What [main] hands to the renderer. *)
Record Snapshot : Type := {
  total : pyfloat;
  port_r1 : option pyfloat;
  port_r6 : option pyfloat;
  port_r12 : option pyfloat;
  port_actual : option pyfloat
}.

(** [main] from the FX rate to the aggregates: the pre-fetch, the
    per-holding loop, the columns [PriceAUD], [MarketValueAUD] and
    [AvgCostAUD], the shown rows, the total and the four portfolio
    returns.  The FX rate is resolved once and every conversion below
    reads the same [aud_per_usd].  The columns [ActualPerfNum] and
    [ActualPerf] of lines 188-189 are not part of it, so a run of the
    source that raises on that division has no counterpart here; and
    the one instant [now] stands for the clock readings of lines 109 and
    206. *)
Definition main (p : Provider) (now : Z) (has_avgcost : bool)
    (hs : list Holding) : result (list Row * Snapshot) :=
  let aud_per_usd := get_aud_per_usd p in
  let hist_cache := prefetch p hs in
  d ← holdings_loop p now aud_per_usd hist_cache empty_dicts hs ;
  let df := make_row aud_per_usd has_avgcost d <$> hs in
  let shown := shown_of df in
  let total :=
    if bool_decide (shown = []) then fzero
    else pd_sum (MarketValueAUD <$> shown) in
  let agg ret_dict months :=
    if bool_decide (shown = []) then Ok None
    else agg_with_start_weights now aud_per_usd hist_cache shown
           ret_dict months in
  r1 ← agg (perf1_num d) 1 ;
  r6 ← agg (perf6_num d) 6 ;
  r12 ← agg (perf12_num d) 12 ;
  pa ← port_actual_of shown ;
  Ok (shown,
      {| total := total; port_r1 := r1; port_r6 := r6; port_r12 := r12;
         port_actual := pa |}).

(** ** The weighted quotient on binary64 *)

(** The end of [agg_with_start_weights] on IEEE 754 binary64 floats, as
    Python computes it, rounding after every operation. *)
Module Binary64.
Import PrimFloat.

(** Python's [sum] over floats, left to right from 0.  (Recent
    interpreters compensate the partial sums; with a single term there
    is nothing to compensate.) *)
Definition py_sum (l : list float) : float := foldl add 0%float l.

(** Lines 229-243, for the rows that reach line 229, each given by its
    quantity, its converted start price and its return. *)
Definition agg_tail (rows : list (float * float * float)) : option float :=
  let usable :=
    omap (λ r : float * float * float,
            let mv_start := mul r.1.1 r.1.2 in
            if leb mv_start 0%float then None else Some (mv_start, r.2))
         rows in
  let total_start_mv :=
    foldl (λ acc (u : float * float), add acc u.1) 0%float usable in
  match usable with
  | [] => None
  | _ :: _ =>
      if leb total_start_mv 0%float then None
      else Some (div (py_sum ((λ u : float * float, mul u.1 u.2) <$> usable))
                     total_start_mv)
  end.

(** The binary64 numbers written [0.1] and [0.10000000000000002]. *)
Definition tenth : float := 0x1.999999999999ap-4%float.
Definition tenth_up : float := 0x1.999999999999bp-4%float.

(** One holding of 3 shares starting at the price 1, with a return of
    [0.1]. *)
Definition one_row : list (float * float * float) :=
  [(3%float, 1%float, tenth)].

End Binary64.

(** ** Statements of the specification *)

(** [i] is the first position of [ix] holding a date at or after [target],
    or the last position when every date is before [target]. *)
Definition ref_position (ix : list Z) (target : Z) (i : nat) : Prop :=
  (i < length ix)%nat
  ∧ (∀ j x, (j < i)%nat → ix !! j = Some x → x < target)
  ∧ ((∃ x, ix !! i = Some x ∧ target ≤ x)
     ∨ (i = (length ix - 1)%nat ∧ ∀ x, x ∈ ix → x < target)).

(** The target date as the specification words it:
    [now - months * 30.5 days]. *)
Definition target_as_specified (now months : Z) : Z :=
  now - months * 61 * (us_per_day / 2).

(** Whether a text shows the digit zero. *)
Fixpoint shows_zero (s : string) : bool :=
  match s with
  | EmptyString => false
  | String c s' => bool_decide (c = "0"%char) || shows_zero s'
  end.

(** The two markets of the specification and their tags in the sheet. *)
Inductive market : Type := DOMESTIC | FOREIGN.


(** [convert] as the specification words it. *)
Definition convert (rate : pyfloat) (x : pyfloat) (m : market) : pyfloat :=
  match m with
  | DOMESTIC => x
  | FOREIGN => fmul x rate
  end.

(** The provider calls of the four tiers, in their order. *)
Definition tier_calls (sym : string) : list call :=
  [CallFastInfo sym; CallHistory sym "1d" "1m"; CallHistory sym "5d" "1d";
   CallInfo sym].

(** What each tier yields, read off the answers of the provider, an
    exception being no answer. *)

(** Tier 1, the cached last price: a quote other than zero.  NaN is a
    quote. *)
Definition quick_quote (p : Provider) (sym : string) : option pyfloat :=
  match fast_info_last_price p sym with
  | Ok (Some NaN) => Some NaN
  | Ok (Some (Fin q)) => if bool_decide (q = Qz 0) then None else Some (Fin q)
  | _ => None
  end.

(** The [Close] column of a history, when it is one column. *)
Definition close_column (h : DataFrame) : option Column :=
  match df_columns h with
  | Flat cols => assoc "Close" cols
  | Multi fields =>
      match assoc "Close" fields with
      | Some (BSeries col) => Some col
      | Some (BFrame [c]) => Some c.2
      | _ => None
      end
  end.

(** Tiers 2 and 3, the latest close of a history: the value in the last
    row of its [Close] column, whatever it is. *)
Definition latest_close (p : Provider) (sym period interval : string)
    : option pyfloat :=
  match history p sym period interval with
  | Ok h =>
      if df_empty h then None
      else col ← close_column h ; snd <$> last (zip (df_index h) col)
  | Raise _ => None
  end.

(** Tier 4, the static fields: the first field that is bound decides,
    and it fails when it is not a number. *)
Definition info_number (v : infoval) : option pyfloat :=
  match v with
  | IVNum x => Some x
  | IVBad => None
  end.

Definition info_price (p : Provider) (sym : string) : option pyfloat :=
  match info p sym with
  | Ok (Some d) =>
      match d !! "regularMarketPrice" with
      | Some v => info_number v
      | None =>
          match d !! "currentPrice" with
          | Some v => info_number v
          | None => d !! "previousClose" ≫= info_number
          end
      end
  | _ => None
  end.

(** The chain of §4.2: the four tiers in their order, each with the call
    it makes on the provider. *)
Definition fallback_chain (p : Provider) (sym : string)
    : list (call * option pyfloat) :=
  [(CallFastInfo sym, quick_quote p sym);
   (CallHistory sym "1d" "1m", latest_close p sym "1d" "1m");
   (CallHistory sym "5d" "1d", latest_close p sym "5d" "1d");
   (CallInfo sym, info_price p sym)].

(** Going down a chain: the first value found, and the calls made up to
    it. *)
Fixpoint first_success (chain : list (call * option pyfloat))
    : option pyfloat * list call :=
  match chain with
  | [] => (None, [])
  | (c, Some v) :: _ => (Some v, [c])
  | (c, None) :: rest =>
      let r := first_success rest in (r.1, c :: r.2)
  end.

(** The two layouts of the specification: one column per field, or, per
    field, one column per symbol. *)
Definition supported_layout (hist : DataFrame) : Prop :=
  match df_columns hist with
  | Flat _ => True
  | Multi fields => Forall (λ f : string * Block, ∃ cols, f.2 = BFrame cols) fields
  end.

(** "No series" for an empty extraction, the series otherwise. *)
Definition series_or_none (s : Series) : option pdobj :=
  if bool_decide (s = []) then None else Some (PSeries s).

(** An extraction result: no series, or a series that is not empty and
    holds no missing value. *)
Definition extraction_result (r : option pdobj) : Prop :=
  r = None
  ∨ ∃ s, r = Some (PSeries s) ∧ s ≠ [] ∧ Forall (λ row : Z * pyfloat, isna row.2 = false) s.

(** The numbers among a list of floats, and their exact sum. *)
Definition fin_values (l : list pyfloat) : list Qc :=
  omap (λ x, match x with Fin q => Some q | NaN => None end) l.

Definition Qsum (l : list Qc) : Qc := foldr Qcplus 0%Qc l.

(** The since-inception return as a function of the rows with a cost. *)
Definition actual_of_costed (have_cost : list Row) : option pyfloat :=
  if bool_decide (have_cost = []) then None
  else
    let c := Qsum (fin_values (cost_aud <$> have_cost)) in
    let m := Qsum (fin_values (MarketValueAUD <$> have_cost)) in
    if bool_decide (0 < c)%Qc then Some (Fin ((m - c) / c)%Qc) else None.

(** The converted price the loop writes for a holding, if it is priced. *)
Definition price_entry (p : Provider) (rate : pyfloat) (h : Holding)
    : option pyfloat :=
  (λ px, price_to_aud rate px (h_Market h))
    <$> (get_price_native p (norm_ticker (h_Ticker h) (h_Market h))).1.

(** The price dictionary after the loop: each priced holding overwrites
    the entry of its ticker. *)
Fixpoint prices_after (p : Provider) (rate : pyfloat)
    (m : gmap string pyfloat) (hs : list Holding) : gmap string pyfloat :=
  match hs with
  | [] => m
  | h :: hs' =>
      prices_after p rate
        (match price_entry p rate h with
         | Some v => <[h_Ticker h := v]> m
         | None => m
         end) hs'
  end.

(** What a row contributes: its [(mv_start, ret)], if any. *)
Definition contribution (aud_per_usd : pyfloat)
    (hist_cache : gmap string (option DataFrame))
    (ret_dict : gmap string (option pyfloat)) (target : Z) (r : Row)
    : option (pyfloat * pyfloat) :=
  match agg_row aud_per_usd hist_cache ret_dict target r with
  | Ok c => c
  | Raise _ => None
  end.

Definition contributions (aud_per_usd : pyfloat)
    (hist_cache : gmap string (option DataFrame))
    (ret_dict : gmap string (option pyfloat)) (target : Z)
    (rows : list Row) : list (pyfloat * pyfloat) :=
  omap (contribution aud_per_usd hist_cache ret_dict target) rows.

(** No row makes the loop raise. *)
Definition rows_return (aud_per_usd : pyfloat)
    (hist_cache : gmap string (option DataFrame))
    (ret_dict : gmap string (option pyfloat)) (target : Z)
    (rows : list Row) : Prop :=
  Forall (λ r, ∃ c, agg_row aud_per_usd hist_cache ret_dict target r = Ok c)
    rows.

(** The market of a tag of the sheet: [US] is the foreign one, any other
    tag is domestic. *)
Definition market_of (tag : string) : market :=
  if bool_decide (tag = "US") then FOREIGN else DOMESTIC.

(** The close a window starts from: the close at the first date at or
    after the target, or the last close when every date is before it. *)
Definition start_close (s : Series) (target : Z) : option pyfloat :=
  match list_find (λ row : Z * pyfloat, target ≤ row.1) s with
  | Some (_, row) => Some row.2
  | None => snd <$> last s
  end.

(** What a holding contributes to the hypothetical return of a window:
    its start market value, [quantity * convert(startPrice, market)],
    and its return.  [closes] gives the close series of a row.  There is
    no contribution without a return, without a series, with a start
    price that is missing or zero, or with a start value at or below
    zero. *)
Definition start_contribution (rate : pyfloat) (closes : Row → option Series)
    (ret_dict : gmap string (option pyfloat)) (target : Z) (r : Row)
    : option (pyfloat * pyfloat) :=
  ret ← dict_get ret_dict (Ticker r) ;
  s ← closes r ;
  p_start ← start_close s target ;
  if isna p_start || feq p_start fzero then None
  else
    let w := fmul (Quantity r) (convert rate p_start (market_of (Market r))) in
    if fle w fzero then None else Some (w, ret).

(** The mean of the returns weighted by the start values: absent without
    a contribution or with a total at or below zero. *)
Definition weighted_mean (us : list (pyfloat * pyfloat)) : option pyfloat :=
  let total := py_sum us.*1 in
  if bool_decide (us = []) || fle total fzero then None
  else
    Some match py_sum ((λ u : pyfloat * pyfloat, fmul u.1 u.2) <$> us),
               total with
         | Fin wr, Fin w => Fin (wr / w)%Qc
         | _, _ => NaN
         end.

(** The cost basis value of a holding: its average cost converted by the
    market rule, times its quantity. *)
Definition cost_basis (rate : pyfloat) (h : Holding) : pyfloat :=
  fmul (convert rate (h_AvgCost h) (market_of (h_Market h))) (h_Quantity h).

(** The holdings with a price and a known cost basis; [price] gives the
    converted current price of a ticker, NaN when there is none. *)
Definition costed (rate : pyfloat) (price : string → pyfloat)
    (hs : list Holding) : list Holding :=
  filter (λ h, isna (price (h_Ticker h)) = false
               ∧ isna (convert rate (h_AvgCost h) (market_of (h_Market h)))
                 = false) hs.

(** The since-inception return over those holdings:
    [(sum currentMarketValue - sum costBasisValue) / sum costBasisValue],
    absent when there is none or the total cost basis is not above
    zero. *)
Definition since_inception (rate : pyfloat) (price : string → pyfloat)
    (hs : list Holding) : option pyfloat :=
  let cs := costed rate price hs in
  if bool_decide (cs = []) then None
  else
    let c := Qsum (fin_values (cost_basis rate <$> cs)) in
    let m := Qsum (fin_values
                     ((λ h, fmul (h_Quantity h) (price (h_Ticker h))) <$> cs)) in
    if bool_decide (0 < c)%Qc then Some (Fin ((m - c) / c)%Qc) else None.

(** ** Statements about the rest of the code *)

(** Text made of ASCII characters only: on it [strip] and [upper] are
    those of Python. *)
Fixpoint ascii_text (s : string) : bool :=
  match s with
  | EmptyString => true
  | String c s' => bool_decide (nat_of_ascii c < 128)%nat && ascii_text s'
  end.

(** The Yahoo symbol of a holding, as the column [TickerYF] holds it. *)
Definition yf_symbol (h : Holding) : string :=
  norm_ticker (h_Ticker h) (h_Market h).

(** Strictly earlier, by date. *)
Definition row_before (a b : Z * pyfloat) : Prop := a.1 < b.1.

(** The series with every close multiplied by [k]. *)
Definition scale_series (k : pyfloat) (s : Series) : Series :=
  prod_map id (λ v, fmul k v) <$> s.

(** The index of a returned series is taken from the frame's index. *)
Definition from_index (ix : list Z) (r : option pdobj) : Prop :=
  ∀ s, r = Some (PSeries s) → s_index s `sublist_of` ix.

(** [a] stands before [b] when sorting by descending market value. *)
Definition value_desc (a b : Row) : Prop :=
  fle (MarketValueAUD b) (MarketValueAUD a) = true.

(** The snapshot of a run that shows no row. *)
Definition empty_snapshot : Snapshot :=
  {| total := fzero; port_r1 := None; port_r6 := None; port_r12 := None;
     port_actual := None |}.

(** The six dictionaries hold the same tickers, and the entries of a
    ticker come from one turn of the loop. *)
Definition aligned (rate : pyfloat) (hs : list Holding) (d : Dicts) : Prop :=
  ∀ k,
    match native_price d !! k with
    | Some px =>
        (∃ h, h ∈ hs ∧ h_Ticker h = k
              ∧ price_aud d !! k = Some (price_to_aud rate px (h_Market h)))
        ∧ ∃ r1 r6 r12,
            perf_str d !! k = Some (to_str r1, to_str r6, to_str r12)
            ∧ perf1_num d !! k = Some r1 ∧ perf6_num d !! k = Some r6
            ∧ perf12_num d !! k = Some r12
    | None =>
        price_aud d !! k = None ∧ perf_str d !! k = None
        ∧ perf1_num d !! k = None ∧ perf6_num d !! k = None
        ∧ perf12_num d !! k = None
    end.

(** What the dictionaries hold for ticker [k]. *)
Definition entries (d : Dicts) (k : string) :=
  (native_price d !! k, price_aud d !! k, perf_str d !! k,
   perf1_num d !! k, perf6_num d !! k, perf12_num d !! k).

(** The characters that open or close markup or an attribute value. *)
Definition is_markup (c : ascii) : bool :=
  bool_decide (c = "<"%char) || bool_decide (c = ">"%char)
  || bool_decide (c = "034"%char) || bool_decide (c = "'"%char).

(** Whether a text holds one of them. *)
Fixpoint has_markup (s : string) : bool :=
  match s with
  | EmptyString => false
  | String c s' => is_markup c || has_markup s'
  end.

(** Whether a text holds an ampersand. *)
Fixpoint has_amp (s : string) : bool :=
  match s with
  | EmptyString => false
  | String c s' => bool_decide (c = "&"%char) || has_amp s'
  end.

(** What [html_escape] does to one character. *)
Definition escape_char (c : ascii) : string :=
  if bool_decide (c = "&"%char) then "&amp;"
  else if bool_decide (c = "<"%char) then "&lt;"
  else if bool_decide (c = ">"%char) then "&gt;"
  else if bool_decide (c = "034"%char) then "&quot;"
  else if bool_decide (c = "'"%char) then "&#x27;"
  else String c EmptyString.

(** ** Sample data *)

(** Midnight of day [n]. *)
Definition day (n : Z) : Z := timedelta_days n.

Definition qn (n : Z) (d : positive) : pyfloat := Fin (Q2Qc (n # d)).

(** A series with a close inside the 1-month window. *)
Definition s_interior : Series :=
  [(day 600, Fin (Qz 100)); (day 975, Fin (Qz 110)); (day 999, Fin (Qz 121))].

(** A series with a close dated 30 days and 6 hours before day 1000. *)
Definition s_half_day : Series :=
  [(day 600, Fin (Qz 100));
   (day 970 - us_per_day / 4, Fin (Qz 110));
   (day 999, Fin (Qz 121))].

(** A series that ends 50 days before day 1000. *)
Definition s_stale : Series :=
  [(day 600, Fin (Qz 100)); (day 900, Fin (Qz 110)); (day 950, Fin (Qz 121))].

(** A flat frame: one [Close] and one [Adj Close] column. *)
Definition frame_flat : DataFrame :=
  {| df_index := [day 600; day 975; day 999];
     df_columns :=
       Flat [("Adj Close", [qn 90 1; qn 99 1; qn 120 1]);
             ("Close", [qn 100 1; qn 110 1; qn 121 1])] |}.

(** A frame with one block per field and one column per symbol; the
    second row has no close. *)
Definition frame_nested : DataFrame :=
  {| df_index := [day 600; day 800; day 975; day 999];
     df_columns :=
       Multi [("Adj Close", BFrame [("BBB", [qn 39 1; qn 40 1; qn 41 1; qn 43 1])]);
              ("Close", BFrame [("BBB", [qn 40 1; NaN; qn 40 1; qn 44 1])])] |}.

(** The currency pair: 0.5 USD per AUD at the last close. *)
Definition frame_fx : DataFrame :=
  {| df_index := [day 998; day 999];
     df_columns := Flat [("Close", [qn 2 5; qn 1 2])] |}.

Definition demo_provider : Provider :=
  {| fast_info_last_price := λ sym,
       if bool_decide (sym = "AAA.AX") then Ok (Some (qn 121 1))
       else if bool_decide (sym = "BBB") then Ok None
       else Raise ProviderError;
     history := λ sym period interval,
       if bool_decide (sym = "BBB") && bool_decide (period = "5d")
       then Ok {| df_index := [day 998; day 999];
                  df_columns := Flat [("Close", [qn 43 1; qn 44 1])] |}
       else Raise ProviderError;
     info := λ sym,
       if bool_decide (sym = "CCC.AX")
       then Ok (Some {[ "currentPrice" := IVNum (qn 7 1);
                        "previousClose" := IVNum (qn 6 1) ]})
       else Ok None;
     download := λ sym period interval,
       if bool_decide (sym = "AUDUSD=X") then Ok frame_fx
       else if bool_decide (sym = "AAA.AX") then Ok frame_flat
       else if bool_decide (sym = "BBB") then Ok frame_nested
       else Raise ProviderError |}.

Definition holding_a : Holding :=
  {| h_Ticker := "AAA"; h_Market := "ASX";
     h_Quantity := qn 10 1; h_AvgCost := qn 100 1 |}.

Definition holding_b : Holding :=
  {| h_Ticker := "BBB"; h_Market := "US";
     h_Quantity := qn 5 1; h_AvgCost := NaN |}.

Definition holding_c : Holding :=
  {| h_Ticker := "CCC"; h_Market := "ASX";
     h_Quantity := qn 3 1; h_AvgCost := NaN |}.

(** A series spanning 30 days: enough for the 1-month window only. *)
Definition frame_short : DataFrame :=
  {| df_index := [day 969; day 975; day 999];
     df_columns := Flat [("Close", [qn 100 1; qn 110 1; qn 121 1])] |}.

Definition s_short : Series :=
  [(day 969, qn 100 1); (day 975, qn 110 1); (day 999, qn 121 1)].

(** The provider when the currency pair closes at zero. *)
Definition demo_provider_zero_fx : Provider :=
  {| fast_info_last_price := fast_info_last_price demo_provider;
     history := history demo_provider;
     info := info demo_provider;
     download := λ sym period interval,
       Ok {| df_index := [day 999];
             df_columns := Flat [("Close", [fzero])] |} |}.

Definition demo_cache : gmap string (option DataFrame) :=
  {[ "AAA.AX" := Some frame_flat; "BBB" := Some frame_nested ]}.

Definition demo_rets : gmap string (option pyfloat) :=
  {[ "AAA" := Some (qn 1 10); "BBB" := Some (qn 1 10) ]}.

Definition demo_shown : list Row :=
  [ {| Ticker := "AAA"; Market := "ASX"; Quantity := qn 10 1;
       TickerYF := "AAA.AX"; PriceAUD := qn 121 1;
       MarketValueAUD := qn 1210 1; AvgCostAUD := qn 100 1 |};
    {| Ticker := "BBB"; Market := "US"; Quantity := qn 5 1;
       TickerYF := "BBB"; PriceAUD := qn 88 1;
       MarketValueAUD := qn 440 1; AvgCostAUD := NaN |} ].

(** The closes of [frame_flat]. *)
Definition s_flat : Series :=
  [(day 600, qn 100 1); (day 975, qn 110 1); (day 999, qn 121 1)].

(** Names for two symbols: one with an empty long name, one without
    any payload. *)
Definition demo_names (sym : string) : result (option (gmap string pyval)) :=
  if bool_decide (sym = "AAA.AX")
  then Ok (Some {[ "longName" := PyStr ""; "shortName" := PyStr "Alpha" ]})
  else if bool_decide (sym = "BBB") then Ok None
  else Raise ProviderError.

(** A provider whose quick quote is NaN for one symbol and zero for the
    others, and whose last minute bar closed at zero. *)
Definition demo_provider_odd_quotes : Provider :=
  {| fast_info_last_price := λ sym,
       if bool_decide (sym = "NAN") then Ok (Some NaN) else Ok (Some fzero);
     history := λ sym period interval,
       Ok {| df_index := [day 999];
             df_columns := Flat [("Close", [fzero])] |};
     info := λ sym, Ok None;
     download := λ sym period interval, Raise ProviderError |}.

(** The provider when every history comes back as a block holding a
    single column. *)
Definition demo_provider_bad_frame : Provider :=
  {| fast_info_last_price := fast_info_last_price demo_provider;
     history := history demo_provider;
     info := info demo_provider;
     download := λ sym period interval,
       Ok {| df_index := [day 999];
             df_columns := Multi [("Close", BSeries [qn 1 1])] |} |}.

(** The provider when the currency pair has no last close. *)
Definition demo_provider_nan_fx : Provider :=
  {| fast_info_last_price := fast_info_last_price demo_provider;
     history := history demo_provider;
     info := info demo_provider;
     download := λ sym period interval,
       if bool_decide (sym = "AUDUSD=X")
       then Ok {| df_index := [day 998; day 999];
                  df_columns := Flat [("Close", [qn 1 2; NaN])] |}
       else download demo_provider sym period interval |}.

(** A holding no tier knows. *)
Definition holding_z : Holding :=
  {| h_Ticker := "ZZZ"; h_Market := "ASX";
     h_Quantity := qn 1 1; h_AvgCost := qn 1 1 |}.

(** A holding whose quick quote is NaN. *)
Definition holding_nan : Holding :=
  {| h_Ticker := "NAN"; h_Market := "US";
     h_Quantity := qn 4 1; h_AvgCost := qn 1 1 |}.

(** A second row for the ticker of [holding_a], on the other market. *)
Definition holding_a_us : Holding :=
  {| h_Ticker := "AAA"; h_Market := "US";
     h_Quantity := qn 2 1; h_AvgCost := NaN |}.

(** Returns of 10% and 20%. *)
Definition demo_rets_mixed : gmap string (option pyfloat) :=
  {[ "AAA" := Some (qn 1 10); "BBB" := Some (qn 1 5) ]}.

(** The closes of [frame_nested]: the row without a close is gone. *)
Definition s_nested : Series :=
  [(day 600, qn 40 1); (day 975, qn 40 1); (day 999, qn 44 1)].

(** The close series of the rows of [demo_shown]. *)
Definition demo_closes (r : Row) : option Series :=
  if bool_decide (Ticker r = "AAA") then Some s_flat else Some s_nested.

(** A foreign holding bought at 30 USD. *)
Definition holding_b_cost : Holding :=
  {| h_Ticker := "BBB"; h_Market := "US";
     h_Quantity := qn 5 1; h_AvgCost := qn 30 1 |}.

(** The provider when the bare symbol [AAA] is quoted too, at 55. *)
Definition demo_provider_two_markets : Provider :=
  {| fast_info_last_price := λ sym,
       if bool_decide (sym = "AAA") then Ok (Some (qn 55 1))
       else fast_info_last_price demo_provider sym;
     history := history demo_provider;
     info := info demo_provider;
     download := download demo_provider |}.

(** A provider whose quick quote is NaN and whose histories close at
    44. *)
Definition demo_provider_nan_quote : Provider :=
  {| fast_info_last_price := λ sym, Ok (Some NaN);
     history := λ sym period interval,
       Ok {| df_index := [day 999];
             df_columns := Flat [("Close", [qn 44 1])] |};
     info := λ sym, Ok None;
     download := λ sym period interval, Raise ProviderError |}.

(** * Proofs *)


(** Closed equations between evaluated results: both sides are computed
    and the rationals compared as canonical fractions. *)
Ltac eval_qc :=
  vm_compute;
  repeat first
    [ reflexivity
    | apply Qc_is_canon; reflexivity
    | apply (f_equal (@Ok _))
    | apply (f_equal (@Some _))
    | apply (f_equal Fin)
    | apply (f_equal2 (@pair _ _)) ].

(** ** Sorting by index *)

Lemma insert_row_perm r s : insert_row r s ≡ₚ r :: s.
Proof.
  induction s as [|r' s IH]; simpl; [done|].
  case_bool_decide; [done|].
  rewrite IH. apply Permutation_swap.
Qed.

Lemma sort_index_perm s : sort_index s ≡ₚ s.
Proof.
  induction s as [|r s IH]; simpl; [done|].
  rewrite insert_row_perm. by f_equiv.
Qed.

Lemma sort_index_length s : length (sort_index s) = length s.
Proof. by rewrite sort_index_perm. Qed.

Lemma sort_index_nil s : sort_index s = [] ↔ s = [].
Proof.
  split; [|by intros ->].
  intros H. apply Permutation_nil_r. by rewrite <- H, sort_index_perm.
Qed.

Lemma insert_row_sorted r s :
  StronglySorted Z.le (s_index s) →
  StronglySorted Z.le (s_index (insert_row r s)).
Proof.
  unfold s_index. induction s as [|r' s IH]; simpl; intros Hs.
  - repeat constructor.
  - apply StronglySorted_inv in Hs as [Hs Hall].
    case_bool_decide as Hle; simpl.
    + constructor; [by constructor|].
      constructor; [done|].
      eapply Forall_impl; [exact Hall|]. simpl. lia.
    + constructor; [by apply IH|].
      apply Forall_forall. intros x Hx.
      apply (elem_of_Permutation_proper _ _ _ (fmap_Permutation fst _ _ (insert_row_perm r s))) in Hx.
      simpl in Hx. apply elem_of_cons in Hx as [->|Hx]; [lia|].
      by eapply Forall_forall in Hall.
Qed.

Lemma sort_index_sorted s : StronglySorted Z.le (s_index (sort_index s)).
Proof.
  induction s as [|r s IH]; simpl; [constructor|].
  by apply insert_row_sorted.
Qed.

(** A series whose index is already ascending is left as it is. *)
Lemma sort_index_id s : StronglySorted Z.le (s_index s) → sort_index s = s.
Proof.
  unfold s_index. induction s as [|r s IH]; simpl; [done|].
  intros Hs. apply StronglySorted_inv in Hs as [Hs Hall].
  rewrite IH by done.
  destruct s as [|r' s]; simpl; [done|].
  apply Forall_cons in Hall as [Hle _].
  by rewrite bool_decide_eq_true_2.
Qed.

Lemma sorted_lookup_le (a : list Z) i j x y :
  StronglySorted Z.le a → (i ≤ j)%nat →
  a !! i = Some x → a !! j = Some y → x ≤ y.
Proof.
  intros Hs. revert i j. induction Hs as [|z a Hs IH Hall]; intros i j Hij Hi Hj.
  - by rewrite lookup_nil in Hi.
  - destruct i as [|i], j as [|j]; simpl in *; simplify_eq; try lia.
    + eapply Forall_forall in Hall; [exact Hall|]. by eapply list_elem_of_lookup_2.
    + eapply IH; [|done..]. lia.
Qed.

(** ** Binary search *)

Lemma bisect_left_spec fuel (a : list Z) v lo hi :
  StronglySorted Z.le a →
  (lo ≤ hi ≤ length a)%nat → (hi - lo ≤ fuel)%nat →
  (∀ j x, (j < lo)%nat → a !! j = Some x → x < v) →
  (∀ j x, (hi ≤ j)%nat → a !! j = Some x → v ≤ x) →
  let r := bisect_left fuel a v lo hi in
  (lo ≤ r ≤ hi)%nat
  ∧ (∀ j x, (j < r)%nat → a !! j = Some x → x < v)
  ∧ (∀ j x, (r ≤ j)%nat → a !! j = Some x → v ≤ x).
Proof.
  intros Hs. revert lo hi.
  induction fuel as [|fuel IH]; intros lo hi Hb Hf Hlo Hhi; cbn [bisect_left].
  - assert (lo = hi) as -> by lia. auto with lia.
  - case_bool_decide as Hlt; [|assert (lo = hi) as -> by lia; auto with lia].
    set (mid := (lo + (hi - lo) / 2)%nat).
    assert (lo ≤ mid < hi)%nat as Hmid.
    { unfold mid. pose proof (Nat.Div0.div_lt_upper_bound (hi - lo) 2 (hi - lo)). lia. }
    destruct (lookup_lt_is_Some_2 a mid) as [x Hx]; [lia|].
    rewrite Hx. case_bool_decide as Hxv.
    + destruct (IH (S mid) hi) as (Hr & Hbel & Habv); [lia|lia| |done|].
      * intros j y Hj Hy.
        pose proof (sorted_lookup_le a j mid y x Hs ltac:(lia) Hy Hx). lia.
      * split; [lia|done].
    + destruct (IH lo mid) as (Hr & Hbel & Habv); [lia|lia|done| |].
      * intros j y Hj Hy.
        pose proof (sorted_lookup_le a mid j x y Hs ltac:(lia) Hx Hy). lia.
      * split; [lia|done].
Qed.

Lemma searchsorted_spec (a : list Z) v :
  StronglySorted Z.le a →
  let r := searchsorted a v in
  (r ≤ length a)%nat
  ∧ (∀ j x, (j < r)%nat → a !! j = Some x → x < v)
  ∧ (∀ j x, (r ≤ j)%nat → a !! j = Some x → v ≤ x).
Proof.
  intros Hs. unfold searchsorted.
  destruct (bisect_left_spec (length a) a v 0 (length a) Hs) as (Hr & Hb & Ha);
    [lia|lia|intros; lia| |].
  - intros j x Hj Hx. apply lookup_lt_Some in Hx. lia.
  - split; [lia|done].
Qed.

(** ** The reference index *)

Lemma ref_index_lt s target : s ≠ [] → (ref_index s target < length s)%nat.
Proof.
  intros Hs. unfold ref_index.
  assert (0 < length s)%nat by (destruct s; simpl; [done|lia]).
  case_bool_decide; lia.
Qed.

Lemma ref_index_position s target :
  s ≠ [] → StronglySorted Z.le (s_index s) →
  ref_position (s_index s) target (ref_index s target).
Proof.
  intros Hne Hs.
  pose proof (ref_index_lt s target Hne) as Hlt.
  destruct (searchsorted_spec (s_index s) target Hs) as (Hr & Hbel & Habv).
  unfold ref_position, ref_index in *.
  unfold s_index in *. rewrite length_fmap in *.
  case_bool_decide as Hge.
  - split; [done|]. split.
    + intros j x Hj Hx. eapply Hbel; [|done]. lia.
    + right. split; [done|].
      intros x Hx. apply list_elem_of_lookup in Hx as [j Hj].
      eapply Hbel; [|done]. apply lookup_lt_Some in Hj.
      rewrite length_fmap in Hj. lia.
  - split; [done|]. split; [done|].
    left. destruct (lookup_lt_is_Some_2 (s.*1) (searchsorted (s.*1) target))
      as [x Hx]; [rewrite length_fmap; lia|].
    exists x. split; [done|]. eapply Habv; [|exact Hx]. lia.
Qed.

(** The position described by [ref_position] is unique. *)
Lemma ref_position_unique ix target i j :
  ref_position ix target i → ref_position ix target j → i = j.
Proof.
  intros (Hi & Hbi & Hci) (Hj & Hbj & Hcj).
  destruct Hci as [(x & Hx & Hxt)|[-> Halli]], Hcj as [(y & Hy & Hyt)|[-> Hallj]].
  - destruct (decide (i < j)%nat) as [Hlt|?].
    { specialize (Hbj i x Hlt Hx). lia. }
    destruct (decide (j < i)%nat) as [Hlt|?]; [|lia].
    specialize (Hbi j y Hlt Hy). lia.
  - specialize (Hallj x (list_elem_of_lookup_2 _ _ _ Hx)). lia.
  - specialize (Halli y (list_elem_of_lookup_2 _ _ _ Hy)). lia.
  - done.
Qed.

(** When every date is before the target the search runs off the end and
    the index is clamped to the last row. *)
Lemma ref_index_stale s target :
  s ≠ [] → StronglySorted Z.le (s_index s) →
  (∀ t, t ∈ s_index s → t < target) →
  ref_index s target = (length s - 1)%nat.
Proof.
  intros Hne Hs Hall.
  eapply ref_position_unique; [by apply ref_index_position|].
  unfold ref_position, s_index in *. rewrite length_fmap.
  assert (0 < length s)%nat by (destruct s; simpl; [done|lia]).
  split; [lia|]. split; [|by right].
  intros j x _ Hx. apply Hall. by eapply list_elem_of_lookup_2.
Qed.

(** ** The window return, evaluated *)

Lemma window_return_eval now s months min :
  s ≠ [] →
  ∃ t0 v0 t1 l ti r,
    head (sort_index s) = Some (t0, v0)
    ∧ last (sort_index s) = Some (t1, l)
    ∧ sort_index s !! ref_index (sort_index s) (target_dt now months)
      = Some (ti, r)
    ∧ _window_return_from_series now (Some s) months min
      = if isna l then Ok None
        else if bool_decide (td_days (t1 - t0) < min) || feq r fzero || isna r
             then Ok None
             else x ← pydiv (fsub l r) r ; Ok (Some x).
Proof.
  intros Hne.
  assert (sort_index s ≠ []) as Hne' by (by rewrite sort_index_nil).
  destruct (head (sort_index s)) as [[t0 v0]|] eqn:Hhd;
    [|by apply head_None in Hhd].
  destruct (last (sort_index s)) as [[t1 l]|] eqn:Hla;
    [|by apply last_None in Hla].
  destruct (lookup_lt_is_Some_2 (sort_index s)
              (ref_index (sort_index s) (target_dt now months)))
    as [[ti r] Hr]; [by apply ref_index_lt|].
  exists t0, v0, t1, l, ti, r. repeat split; [done|].
  unfold _window_return_from_series.
  rewrite bool_decide_eq_false_2 by done. cbv zeta.
  unfold iloc_last, iloc, index_last, index_first, s_index.
  rewrite Hla. cbn [mbind result_bind].
  destruct (isna l); [done|].
  rewrite Hr. cbn [mbind result_bind].
  rewrite fmap_last, Hla. cbn [mbind result_bind fmap option_fmap option_map fst].
  destruct (sort_index s) as [|[t0' v0'] ss]; [done|].
  simpl in Hhd. by simplify_eq.
Qed.

(** On dates within range the window return raises nothing: the index
    read is clamped and the divisor is not zero. *)
Lemma window_return_ok now s months min :
  ∃ r, _window_return_from_series now s months min = Ok r.
Proof.
  destruct s as [s|]; [|by eexists].
  destruct (decide (s = [])) as [->|Hne]; [by eexists|].
  destruct (window_return_eval now s months min Hne)
    as (t0 & v0 & t1 & l & ti & r & _ & _ & _ & ->).
  destruct (isna l); [by eexists|].
  destruct (bool_decide (td_days (t1 - t0) < min)); simpl; [by eexists|].
  destruct r as [|r]; simpl; [by eexists|].
  unfold pydiv. case_bool_decide as Hz; simpl; [by eexists|].
  destruct l; simpl; by eexists.
Qed.

(** ** Claims on the window return *)

(** The value of the window return when nothing makes it absent. *)
Lemma window_return_value (now : Z) (s : Series) (months min : Z)
    t0 v0 t1 l ti r :
  head (sort_index s) = Some (t0, v0) →
  last (sort_index s) = Some (t1, Fin l) →
  sort_index s !! ref_index (sort_index s) (target_dt now months)
  = Some (ti, Fin r) →
  r ≠ Qz 0 →
  min ≤ td_days (t1 - t0) →
  _window_return_from_series now (Some s) months min
  = Ok (Some (Fin ((l - r) / r)%Qc)).
Proof.
  intros Hhd Hla Hr Hr0 Hspan.
  assert (s ≠ []) as Hne by (intros ->; by simpl in Hhd).
  destruct (window_return_eval now s months min Hne)
    as (t0' & v0' & t1' & l' & ti' & r' & Hhd' & Hla' & Hr' & ->).
  simplify_eq. cbn [isna].
  assert (¬ td_days (t1 - t0) < min) as Hn by lia.
  rewrite (bool_decide_eq_false_2 _ Hn).
  unfold feq, fzero, pydiv, fsub.
  by rewrite (bool_decide_eq_false_2 _ Hr0).
Qed.

(** C1 (amended).  For a non-empty series, the reference index is the first
    position of the sorted index at or after
    [now - int(months * 30.5) days], or the last position when there is
    none; it never exceeds the last position; and when the last close and
    the reference close are numbers, the reference close is not zero and
    the span reaches the minimum, the result is [(last - ref) / ref]. *)
Theorem window_return_reference (now : Z) (s : Series) (months min : Z) :
  s ≠ [] →
  let ss := sort_index s in
  let i := ref_index ss (target_dt now months) in
  ref_position (s_index ss) (target_dt now months) i
  ∧ (i ≤ length ss - 1)%nat
  ∧ ∀ t0 v0 t1 l ti r,
      head ss = Some (t0, v0) → last ss = Some (t1, Fin l) →
      ss !! i = Some (ti, Fin r) → r ≠ Qz 0 →
      min ≤ td_days (t1 - t0) →
      _window_return_from_series now (Some s) months min
      = Ok (Some (Fin ((l - r) / r)%Qc)).
Proof.
  intros Hne ss i.
  assert (ss ≠ []) as Hne' by (unfold ss; by rewrite sort_index_nil).
  split; [apply ref_index_position; [done|apply sort_index_sorted]|].
  split; [pose proof (ref_index_lt ss (target_dt now months) Hne'); unfold i; lia|].
  intros t0 v0 t1 l ti r. apply window_return_value.
Qed.

(** The theorem at a series whose reference close lies inside the
    window. *)
Lemma window_return_reference_witness :
  _window_return_from_series (day 1000) (Some s_interior) 1 20
  = Ok (Some (Fin ((Qz 121 - Qz 110) / Qz 110)%Qc)).
Proof.
  refine (proj2 (proj2 (window_return_reference (day 1000) s_interior 1 20 _))
            (day 600) (Fin (Qz 100)) (day 999) (Qz 121) (day 975) (Qz 110)
            _ _ _ _ _).
  - done.
  - reflexivity.
  - reflexivity.
  - reflexivity.
  - by intros [=].
  - by vm_compute.
Defined.

(** C1 as stated fails.  With a close dated 30 days and 6 hours before
    [now], the rule of the claim (first date at or after
    [now - 30.5 days]) picks that close as reference and predicts
    (121 - 110) / 110; the code looks for the first date at or after
    [now - 30 days], finds only the last row, and returns 0. *)
Lemma window_return_half_day_counterexample :
  sort_index s_half_day = s_half_day
  ∧ ref_position (s_index s_half_day) (target_as_specified (day 1000) 1) 1
  ∧ s_half_day !! 1%nat = Some (day 970 - us_per_day / 4, Fin (Qz 110))
  ∧ last s_half_day = Some (day 999, Fin (Qz 121))
  ∧ 20 ≤ td_days (day 999 - day 600)
  ∧ _window_return_from_series (day 1000) (Some s_half_day) 1 20
    = Ok (Some (Fin (Qz 0)))
  ∧ Fin (Qz 0) ≠ Fin ((Qz 121 - Qz 110) / Qz 110)%Qc.
Proof.
  split; [reflexivity|].
  split.
  { split; [simpl; lia|]. split.
    - intros j x Hj Hx. assert (j = 0%nat) as -> by lia.
      simpl in Hx. simplify_eq. by vm_compute.
    - left. eexists. split; [reflexivity|]. by vm_compute. }
  split; [reflexivity|]. split; [reflexivity|]. split; [by vm_compute|].
  split.
  - eval_qc.
  - by intros [=].
Qed.

Lemma Qz_0 : Qz 0 = 0%Qc.
Proof. by apply Qc_is_canon. Qed.

Lemma Qc_self_return (l : Qc) : ((l - l) / l)%Qc = Qz 0.
Proof.
  rewrite Qz_0. unfold Qcdiv.
  replace (l - l)%Qc with 0%Qc by ring. apply Qcmult_0_l.
Qed.

(** C9.  A series that ends before the target date (every date strictly
    before it), with a last close that is a number other than zero and a
    span that reaches the minimum, has its reference index clamped to the
    last row and yields the return 0, not an absent value. *)
Theorem stale_series_returns_zero (now : Z) (s : Series) (months min : Z)
    (t0 t1 : Z) (v0 : pyfloat) (l : Qc) :
  head (sort_index s) = Some (t0, v0) →
  last (sort_index s) = Some (t1, Fin l) →
  l ≠ Qz 0 →
  min ≤ td_days (t1 - t0) →
  (∀ t, t ∈ s_index s → t < target_dt now months) →
  ref_index (sort_index s) (target_dt now months) = (length s - 1)%nat
  ∧ _window_return_from_series now (Some s) months min = Ok (Some fzero).
Proof.
  intros Hhd Hla Hl Hspan Hstale.
  assert (s ≠ []) as Hne.
  { intros ->. by simpl in Hhd. }
  assert (ref_index (sort_index s) (target_dt now months)
          = (length (sort_index s) - 1)%nat) as Hidx.
  { apply ref_index_stale.
    - by rewrite sort_index_nil.
    - apply sort_index_sorted.
    - intros t Ht. apply Hstale. unfold s_index in *.
      by rewrite sort_index_perm in Ht. }
  split; [by rewrite Hidx, sort_index_length|].
  rewrite (window_return_value now s months min t0 v0 t1 l t1 l Hhd Hla);
    [|rewrite Hidx|done..].
  - unfold fzero. by rewrite Qc_self_return.
  - rewrite <- Hla, last_lookup. f_equal. lia.
Qed.

(** The theorem at a series that ends before the target date. *)
Lemma stale_series_returns_zero_witness :
  ref_index (sort_index s_stale) (target_dt (day 1000) 1) = 2%nat
  ∧ _window_return_from_series (day 1000) (Some s_stale) 1 20
    = Ok (Some fzero).
Proof.
  refine (stale_series_returns_zero (day 1000) s_stale 1 20
            (day 600) (day 950) (Fin (Qz 100)) (Qz 121) _ _ _ _ _).
  - reflexivity.
  - reflexivity.
  - by intros [=].
  - by vm_compute.
  - intros t Ht. unfold s_stale, s_index in Ht. simpl in Ht.
    rewrite !elem_of_cons, elem_of_nil in Ht.
    destruct Ht as [->|[->|[->|[]]]]; by vm_compute.
Defined.

(** C4.  The window return is absent as soon as the series is empty, its
    span in whole days is below the minimum, or the reference close is
    zero or NaN; and [compute_individual_perf_from_hist] obtains each of
    its three returns from a call of its own on the same series, with the
    minima 20, 120 and 250. *)
Theorem window_return_absent (now : Z) :
  (∀ (s : Series) (months min : Z),
     let ss := sort_index s in
     s = []
     ∨ (∃ t0 v0 t1 v1, head ss = Some (t0, v0) ∧ last ss = Some (t1, v1)
                       ∧ td_days (t1 - t0) < min)
     ∨ (∃ ti r, ss !! ref_index ss (target_dt now months) = Some (ti, r)
                ∧ (r = fzero ∨ r = NaN)) →
     _window_return_from_series now (Some s) months min = Ok None)
  ∧ (∀ hist p1s p6s p12s r1 r6 r12,
       compute_individual_perf_from_hist now hist
       = Ok (p1s, p6s, p12s, r1, r6, r12) →
       ∃ s, (_get_close_series hist ≫= as_series) = Ok s
            ∧ _window_return_from_series now s 1 20 = Ok r1
            ∧ _window_return_from_series now s 6 120 = Ok r6
            ∧ _window_return_from_series now s 12 250 = Ok r12).
Proof.
  split.
  - intros s months min ss [->|H]; [done|].
    assert (s ≠ []) as Hne.
    { intros ->. destruct H as [(?&?&?&?&H&_)|(?&?&H&_)]; by simpl in H. }
    destruct (window_return_eval now s months min Hne)
      as (t0' & v0' & t1' & l' & ti' & r' & Hhd' & Hla' & Hr' & ->).
    fold ss in Hhd', Hla', Hr'.
    destruct (isna l'); [done|].
    destruct H as [(t0 & v0 & t1 & v1 & Hhd & Hla & Hlt)|(ti & r & Hr & Hbad)];
      simplify_eq.
    + by rewrite (bool_decide_eq_true_2 _ Hlt).
    + destruct (bool_decide _); [done|].
      by destruct Hbad as [->| ->].
  - intros hist p1s p6s p12s r1 r6 r12 H.
    unfold compute_individual_perf_from_hist in H.
    destruct (_get_close_series hist) as [o|] eqn:Ho; [|done].
    cbn [mbind result_bind] in *.
    destruct (as_series o) as [s|] eqn:Hs; [|done].
    cbn [mbind result_bind] in *.
    exists s. split; [done|].
    destruct (_window_return_from_series now s 1 20) as [x1|]; [|done].
    destruct (_window_return_from_series now s 6 120) as [x6|]; [|done].
    destruct (_window_return_from_series now s 12 250) as [x12|]; [|done].
    cbn [mbind result_bind] in H. by simplify_eq.
Qed.

(** ** Rendering *)

Lemma length_append (s t : string) :
  String.length (s +:+ t) = (String.length s + String.length t)%nat.
Proof. induction s as [|c s IH]; simpl; [done|]. by rewrite IH. Qed.

Lemma length_0_empty (s : string) : String.length s = 0%nat → s = "".
Proof. by destruct s. Qed.

(** A formatted percentage is never the text that stands for an absent
    value, whatever follows it. *)
Lemma format_pct_not_dash (r : pyfloat) (t t' : string) :
  String.length t = String.length t' →
  format_pct r +:+ t ≠ "-" +:+ t'.
Proof.
  intros Hlen Heq. unfold format_pct in Heq.
  pose proof (f_equal String.length Heq) as Hl.
  rewrite !length_append in Hl. simpl in Hl.
  assert (format_1f (fmul r (Fin (Qz 100))) = "") as H0
    by (apply length_0_empty; lia).
  rewrite H0 in Heq. simpl in Heq. by simplify_eq.
Qed.

Lemma format_pct_not_empty (r : pyfloat) : format_pct r ≠ "".
Proof.
  unfold format_pct. intros H. apply (f_equal String.length) in H.
  rewrite length_append in H. simpl in H. lia.
Qed.

Lemma format_pct_not_dash' (r : pyfloat) : format_pct r ≠ "-".
Proof.
  intros H. apply (format_pct_not_dash r "" "" eq_refl).
  by rewrite H.
Qed.

(** C8.  An absent return is rendered as the empty text or as a dash by
    every renderer (the per-holding window returns, the per-holding
    since-inception return, the console badges, the report cells and the
    report badges), and that text shows no zero; a return that is present
    is never rendered as either, and the return 0 is rendered "0.0%". *)
Theorem absent_never_rendered_as_zero :
  (to_str None = "" ∧ actual_perf_str NaN = "" ∧ fmt_badge_val None = "-"
   ∧ or_dash (to_str None) = "-" ∧ or_dash (actual_perf_str NaN) = "-"
   ∧ badge None = span "badge" "neu" "-"
   ∧ (∀ parse, perf_span parse (or_dash (to_str None))
               = span "perf" "neu" "-"))
  ∧ (shows_zero "" = false ∧ shows_zero "-" = false
     ∧ shows_zero (span "badge" "neu" "-") = false
     ∧ shows_zero (span "perf" "neu" "-") = false)
  ∧ (∀ r : pyfloat,
       to_str (Some r) ≠ to_str None
       ∧ or_dash (to_str (Some r)) ≠ or_dash (to_str None)
       ∧ fmt_badge_val (Some r) ≠ fmt_badge_val None
       ∧ badge (Some r) ≠ badge None
       ∧ (∀ parse, perf_span parse (or_dash (to_str (Some r)))
                   ≠ perf_span parse (or_dash (to_str None)))
       ∧ (∀ q : Qc,
            actual_perf_str (Fin q) ≠ actual_perf_str NaN
            ∧ or_dash (actual_perf_str (Fin q))
              ≠ or_dash (actual_perf_str NaN)))
  ∧ (to_str (Some fzero) = "0.0%" ∧ fmt_badge_val (Some fzero) = "0.0%"
     ∧ actual_perf_str fzero = "0.0%").
Proof.
  split; [by repeat split|]. split; [by repeat split|]. split.
  - intros r.
    assert (or_dash (format_pct r) = format_pct r) as Hor.
    { unfold or_dash. rewrite bool_decide_eq_false_2; [done|].
      apply format_pct_not_empty. }
    assert (∀ kind cls, cls ∈ ["pos"; "neg"; "neu"] →
              span kind cls (format_pct r) ≠ span kind "neu" "-") as Hspan.
    { intros kind cls Hcls H. unfold span in H.
      do 3 apply (inj (String.app _)) in H.
      rewrite !elem_of_cons, elem_of_nil in Hcls.
      destruct Hcls as [->|[->|[->|[]]]]; simpl in H; simplify_eq.
      by eapply (format_pct_not_dash r "</span>" "</span>"). }
    assert (∀ v, sign_class v ∈ ["pos"; "neg"; "neu"]) as Hsign.
    { intros v. unfold sign_class. repeat case_match; set_solver. }
    simpl. rewrite Hor.
    split; [apply format_pct_not_empty|].
    split; [apply format_pct_not_dash'|].
    split; [apply format_pct_not_dash'|].
    split; [apply Hspan, Hsign|].
    split.
    + intros parse. unfold perf_span.
      rewrite (bool_decide_eq_false_2 (format_pct r = ""))
        by apply format_pct_not_empty.
      rewrite (bool_decide_eq_false_2 (format_pct r = "-"))
        by apply format_pct_not_dash'.
      simpl. destruct (parse _); apply Hspan; [apply Hsign|set_solver].
    + intros q.
      unfold actual_perf_str. cbn [isna]. change (or_dash "") with "-".
      unfold or_dash. rewrite bool_decide_eq_false_2
        by apply format_pct_not_empty.
      split; [apply format_pct_not_empty|apply format_pct_not_dash'].
  - by vm_compute.
Qed.

(** ** Currency conversion *)

(** Every price written by the per-holding loop is the conversion, at the
    loop's one rate, of the native price of a holding with that ticker. *)
Lemma holdings_loop_price_aud p now rate cache hs : ∀ d d',
  holdings_loop p now rate cache d hs = Ok d' →
  ∀ k v, price_aud d' !! k = Some v →
    price_aud d !! k = Some v
    ∨ ∃ h px, h ∈ hs ∧ h_Ticker h = k
              ∧ (get_price_native p (norm_ticker (h_Ticker h) (h_Market h))).1
                = Some px
              ∧ v = price_to_aud rate px (h_Market h).
Proof.
  induction hs as [|h hs IH]; intros d d' Hloop k v Hk; simpl in Hloop.
  - simplify_eq. by left.
  - destruct (holding_step p now rate cache d h) as [d1|] eqn:Hstep; [|done].
    cbn [mbind result_bind] in Hloop.
    destruct (IH d1 d' Hloop k v Hk) as [Hd1|(h' & px & Hin & Ht & Hpx & Hv)].
    + unfold holding_step in Hstep.
      destruct (get_price_native p _).1 as [px|] eqn:Hpx;
        [|simplify_eq; by left].
      destruct (compute_individual_perf_from_hist now _)
        as [[[[[[p1s p6s] p12s] p1n] p6n] p12n]|]; [|done].
      cbn [mbind result_bind] in Hstep. simplify_eq. simpl in Hd1.
      destruct (decide (h_Ticker h = k)) as [<-|Hne].
      * rewrite lookup_insert_eq in Hd1. simplify_eq.
        right. exists h, px. split; [left|done].
      * rewrite lookup_insert_ne in Hd1 by done. by left.
    + right. exists h', px. split; [by right|done].
Qed.


(** ** The FX rate *)

(** C10.  [get_aud_per_usd] always returns a float, and its division is
    never one by zero: an exception inside it comes from the download or
    from reading the last close, and the guarded division returns.  It
    returns the default 1.5 when the last close is zero, when the download
    raises, and when the frame is empty or has no [Close] column; with a
    last close [c] other than zero it returns [1 / c]; and what it returns
    is always the default or the result of that division. *)
Theorem fx_rate_never_divides_by_zero (p : Provider) :
  (∀ e, aud_per_usd_body p = Raise e →
        download p "AUDUSD=X" "5d" "1d" = Raise e
        ∨ ∃ fx, download p "AUDUSD=X" "5d" "1d" = Ok fx
                ∧ last_close fx = Raise e)
  ∧ (∀ u, truthy u = true → ∃ r, pydiv fone u = Ok r)
  ∧ (∀ fx, download p "AUDUSD=X" "5d" "1d" = Ok fx →
           last_close fx = Ok (Some fzero) →
           get_aud_per_usd p = default_rate)
  ∧ (∀ e, download p "AUDUSD=X" "5d" "1d" = Raise e →
          get_aud_per_usd p = default_rate)
  ∧ (∀ fx, download p "AUDUSD=X" "5d" "1d" = Ok fx →
           df_empty fx = true ∨ in_columns "Close" (df_columns fx) = false →
           get_aud_per_usd p = default_rate)
  ∧ (∀ fx c, download p "AUDUSD=X" "5d" "1d" = Ok fx →
             last_close fx = Ok (Some (Fin c)) → c ≠ Qz 0 →
             get_aud_per_usd p = Fin (Qz 1 / c)%Qc)
  ∧ (get_aud_per_usd p = default_rate
     ∨ ∃ fx u, download p "AUDUSD=X" "5d" "1d" = Ok fx
               ∧ last_close fx = Ok (Some u) ∧ truthy u = true
               ∧ pydiv fone u = Ok (get_aud_per_usd p)).
Proof.
  assert (∀ u, truthy u = true → ∃ r, pydiv fone u = Ok r) as Hdiv.
  { intros [|c] Hu; [by eexists|]. unfold truthy, feq, fzero in Hu.
    unfold pydiv, fone. case_bool_decide; [done|by eexists]. }
  unfold get_aud_per_usd, aud_per_usd_body.
  split; [|split; [done|split; [|split; [|split; [|split]]]]].
  - intros e He.
    destruct (download p _ _ _) as [fx|e'] eqn:Hd; cbn [mbind result_bind] in He;
      [|left; by simplify_eq].
    right. exists fx. split; [done|].
    destruct (last_close fx) as [[u|]|e'] eqn:Hc; cbn [mbind result_bind] in He;
      [| |by simplify_eq]; [|done].
    destruct (truthy u) eqn:Hu; [|done].
    destruct (Hdiv u Hu) as [r Hr]. by rewrite Hr in He.
  - intros fx -> Hc. cbn [mbind result_bind]. by rewrite Hc.
  - by intros e ->.
  - intros fx -> Hno. cbn [mbind result_bind]. unfold last_close.
    by destruct Hno as [-> | ->]; rewrite ?andb_false_r.
  - intros fx c -> Hc Hnz. cbn [mbind result_bind]. rewrite Hc.
    cbn [mbind result_bind]. unfold truthy, feq, fzero, pydiv, fone.
    by rewrite (bool_decide_eq_false_2 _ Hnz).
  - destruct (download p _ _ _) as [fx|e]; cbn [mbind result_bind];
      [|by left].
    destruct (last_close fx) as [[u|]|e] eqn:Hc; cbn [mbind result_bind];
      [|by left..].
    destruct (truthy u) eqn:Hu; [|by left].
    destruct (Hdiv u Hu) as [r Hr]. rewrite Hr. cbn [mbind result_bind].
    right. by exists fx, u.
Qed.

(** ** The current-price resolver *)

Ltac in_list :=
  repeat first [apply list_elem_of_here | apply list_elem_of_further].

Lemma assoc_is_Some {A : Type} (k : string) (l : list (string * A)) :
  k ∈ l.*1 ↔ is_Some (assoc k l).
Proof.
  induction l as [|[k' v] l IH]; simpl.
  - split; [by intros ?%elem_of_nil|by intros [? [=]]].
  - rewrite elem_of_cons. case_bool_decide as Hk; [split; [by eauto|by left]|].
    rewrite <- IH. split; [by intros [?|?]|by right].
Qed.

Lemma assoc_None {A : Type} (k : string) (l : list (string * A)) :
  assoc k l = None ↔ k ∉ l.*1.
Proof.
  rewrite assoc_is_Some. destruct (assoc k l) as [a|].
  - split; [done|]. intros H. destruct H. by eexists.
  - split; [|done]. by intros _ [x [=]].
Qed.

(** The resolver, tier by tier: what each [try] yields once it has
    swallowed its exception, and the calls made so far. *)
Lemma get_price_native_eval (p : Provider) (sym : string) :
  get_price_native p sym
  = match catch (tier_fast_info p sym) None with
    | Some v => (Some v, [CallFastInfo sym])
    | None =>
        match catch (tier_history p sym "1d" "1m") None with
        | Some v => (Some v, [CallFastInfo sym; CallHistory sym "1d" "1m"])
        | None =>
            match catch (tier_history p sym "5d" "1d") None with
            | Some v =>
                (Some v, [CallFastInfo sym; CallHistory sym "1d" "1m";
                          CallHistory sym "5d" "1d"])
            | None =>
                (catch (tier_info p sym) None,
                 [CallFastInfo sym; CallHistory sym "1d" "1m";
                  CallHistory sym "5d" "1d"; CallInfo sym])
            end
        end
    end.
Proof.
  unfold get_price_native, or_next, try_tier, ask_fast_info, ask_history,
    ask_info.
  cbn [fst snd].
  change (a ← fast_info_last_price p sym ; fast_info_body a)
    with (tier_fast_info p sym).
  change (a ← history p sym "1d" "1m" ; last_close a)
    with (tier_history p sym "1d" "1m").
  change (a ← history p sym "5d" "1d" ; last_close a)
    with (tier_history p sym "5d" "1d").
  change (a ← info p sym ; info_body a) with (tier_info p sym).
  destruct (catch (tier_fast_info p sym) None); [done|].
  destruct (catch (tier_history p sym "1d" "1m") None); [done|].
  by destruct (catch (tier_history p sym "5d" "1d") None).
Qed.

Lemma tier_fast_info_quote (p : Provider) (sym : string) :
  catch (tier_fast_info p sym) None = quick_quote p sym.
Proof.
  unfold tier_fast_info, quick_quote, fast_info_body.
  destruct (fast_info_last_price p sym) as [[[|q]|]|]; try done.
  cbn [mbind result_bind]. unfold truthy, feq, fzero.
  by case_bool_decide.
Qed.

Lemma in_columns_assoc (label : string) (c : Columns) :
  in_columns label c
  = match c with
    | Flat cols => bool_decide (is_Some (assoc label cols))
    | Multi fields => bool_decide (is_Some (assoc label fields))
    end.
Proof.
  destruct c as [cols|fields]; cbn [in_columns];
    apply bool_decide_ext, assoc_is_Some.
Qed.

Lemma tier_history_close (p : Provider) (sym period interval : string) :
  catch (tier_history p sym period interval) None
  = latest_close p sym period interval.
Proof.
  unfold tier_history, latest_close.
  destruct (history p sym period interval) as [h|]; [|done].
  cbn [mbind result_bind]. unfold last_close, close_column, getitem.
  destruct (df_empty h); [done|]. cbn [negb andb].
  rewrite in_columns_assoc.
  destruct (df_columns h) as [cols|fields].
  - destruct (assoc "Close" cols) as [col|]; [|done].
    rewrite bool_decide_eq_true_2 by by eexists.
    cbn [mbind result_bind option_bind float_iloc_last].
    unfold iloc_last, series_of.
    by destruct (last (zip (df_index h) col)) as [[t v]|].
  - destruct (assoc "Close" fields) as [[cols|col]|].
    + rewrite bool_decide_eq_true_2 by by eexists.
      cbn [mbind result_bind float_iloc_last].
      destruct cols as [|c [|c' cols]]; [done| |done].
      cbn [mbind option_bind]. unfold iloc_last, series_of.
      by destruct (last (zip (df_index h) c.2)) as [[t v]|].
    + rewrite bool_decide_eq_true_2 by by eexists.
      cbn [mbind result_bind option_bind float_iloc_last].
      unfold iloc_last, series_of.
      by destruct (last (zip (df_index h) col)) as [[t v]|].
    + rewrite bool_decide_eq_false_2; [done|]. by intros [? [=]].
Qed.

Lemma tier_info_price (p : Provider) (sym : string) :
  catch (tier_info p sym) None = info_price p sym.
Proof.
  unfold tier_info, info_price, info_body.
  destruct (info p sym) as [[d|]|]; [|done..].
  cbn [mbind result_bind default]. unfold id, info_keys. cbn [info_loop].
  destruct (d !! "regularMarketPrice") as [[x|]|]; [done..|].
  destruct (d !! "currentPrice") as [[x|]|]; [done..|].
  by destruct (d !! "previousClose") as [[x|]|].
Qed.

(** The resolver goes down the chain. *)
Lemma get_price_native_chain (p : Provider) (sym : string) :
  get_price_native p sym = first_success (fallback_chain p sym).
Proof.
  rewrite get_price_native_eval.
  rewrite tier_fast_info_quote, !tier_history_close, tier_info_price.
  unfold fallback_chain. cbn [first_success].
  destruct (quick_quote p sym); [done|].
  destruct (latest_close p sym "1d" "1m"); [done|].
  destruct (latest_close p sym "5d" "1d"); [done|].
  by destruct (info_price p sym).
Qed.

(** C5 (amended).  The resolver goes down the four tiers in the stated
    order: the cached last price, the latest close of the 1-day intraday
    history, the latest close of the 5-day daily history, and the static
    fields read as regular-market price, then current price, then
    previous close.  It calls each tier at most once, stops at the first tier
    that yields a value and returns that value; it returns [None]
    exactly when the four tiers, each called once, yield nothing.  A
    tier yields any number it finds, NaN included; only the cached last
    price is passed over when it is zero. *)
Theorem price_resolver_tiers (p : Provider) (sym : string) :
  get_price_native p sym = first_success (fallback_chain p sym)
  ∧ NoDup (get_price_native p sym).2
  ∧ (∃ k, (k < 4)%nat
          ∧ (get_price_native p sym).2
            = take (S k) (fallback_chain p sym).*1
          ∧ (∀ j, (j < k)%nat → (fallback_chain p sym).*2 !! j = Some None)
          ∧ (fallback_chain p sym).*2 !! k = Some (get_price_native p sym).1
          ∧ ((get_price_native p sym).1 = None → k = 3%nat))
  ∧ ((get_price_native p sym).1 = None ↔
       ∀ o, o ∈ (fallback_chain p sym).*2 → o = None)
  ∧ (fast_info_last_price p sym = Ok (Some NaN) →
     get_price_native p sym = (Some NaN, [CallFastInfo sym]))
  ∧ (∀ h col v,
       quick_quote p sym = None →
       history p sym "1d" "1m" = Ok h →
       df_empty h = false →
       df_columns h = Flat [("Close", col)] →
       last (zip (df_index h) col) = Some v →
       get_price_native p sym
       = (Some v.2, [CallFastInfo sym; CallHistory sym "1d" "1m"])).
Proof.
  rewrite get_price_native_chain. unfold fallback_chain.
  split; [done|]. cbn [first_success fmap list_fmap fst snd].
  split; [|split; [|split; [|split]]].
  - destruct (quick_quote p sym); [apply NoDup_singleton|].
    destruct (latest_close p sym "1d" "1m"), (latest_close p sym "5d" "1d");
      cbn [fst snd];
      repeat (apply NoDup_cons; split;
              [rewrite ?elem_of_cons, elem_of_nil; intros H;
               repeat destruct H as [H|H]; done|]);
      try apply NoDup_nil_2;
      destruct (info_price p sym); cbn [fst snd];
      repeat (apply NoDup_cons; split;
              [rewrite ?elem_of_cons, elem_of_nil; intros H;
               repeat destruct H as [H|H]; done|]);
      apply NoDup_nil_2.
  - destruct (quick_quote p sym) as [v1|].
    { exists 0%nat. repeat split; try done; try lia; intros; lia. }
    destruct (latest_close p sym "1d" "1m") as [v2|].
    { exists 1%nat. repeat split; try done; try lia.
      intros j Hj. by assert (j = 0%nat) as -> by lia. }
    destruct (latest_close p sym "5d" "1d") as [v3|].
    { exists 2%nat. repeat split; try done; try lia.
      intros [|[|j]] Hj; [done|done|lia]. }
    exists 3%nat.
    destruct (info_price p sym) as [v4|];
      repeat split; try done; try lia;
      intros [|[|[|j]]] Hj; done || lia.
  - destruct (quick_quote p sym) as [v1|];
      [split; [done|intros H; by apply (H (Some v1)); in_list]|].
    destruct (latest_close p sym "1d" "1m") as [v2|];
      [split; [done|intros H; by apply (H (Some v2)); in_list]|].
    destruct (latest_close p sym "5d" "1d") as [v3|];
      [split; [done|intros H; by apply (H (Some v3)); in_list]|].
    destruct (info_price p sym) as [v4|];
      [split; [done|intros H; by apply (H (Some v4)); in_list]|].
    split; [|done]. intros _ o Ho.
    repeat (apply elem_of_cons in Ho as [->|Ho]; [done|]).
    by apply elem_of_nil in Ho.
  - intros Hfi. unfold quick_quote. by rewrite Hfi.
  - intros h col v Hq Hh He Hc Hl.
    assert (latest_close p sym "1d" "1m" = Some v.2) as Hclose.
    { unfold latest_close. rewrite Hh, He. unfold close_column.
      rewrite Hc. cbn [assoc].
      rewrite (bool_decide_eq_true_2 ("Close" = "Close") eq_refl).
      cbn [mbind option_bind]. by rewrite Hl. }
    by rewrite Hq, Hclose.
Qed.

(** ** Close-price extraction *)

Lemma series_or_none_result (s : Series) :
  extraction_result (series_or_none (dropna s)).
Proof.
  unfold series_or_none. case_bool_decide as He; [by left|].
  right. exists (dropna s). repeat split; [done|].
  apply Forall_forall. intros row Hrow.
  by apply list_elem_of_filter in Hrow as [? _].
Qed.

Lemma getitem_multi (hist : DataFrame) fields (label : string) :
  df_columns hist = Multi fields →
  getitem hist label
  = match assoc label fields with
    | Some (BFrame cols) => Ok (PFrame (df_index hist) cols)
    | Some (BSeries col) => Ok (PSeries (series_of (df_index hist) col))
    | None => Raise KeyError
    end.
Proof. intros H. unfold getitem. by rewrite H. Qed.

Lemma getitem_flat (hist : DataFrame) cols (label : string) :
  df_columns hist = Flat cols →
  getitem hist label
  = match assoc label cols with
    | Some col => Ok (PSeries (series_of (df_index hist) col))
    | None => Raise KeyError
    end.
Proof. intros H. unfold getitem. by rewrite H. Qed.

(** The first loop: it returns an extraction result, or it ends having
    found every labelled block empty, or it raises on a block that is a
    single column. *)
Lemma close_loop_levels_cases (hist : DataFrame) (labels : list string) :
  match close_loop_levels hist labels with
  | Ok (Some x) => extraction_result x
  | Ok None =>
      ∀ label, label ∈ labels → in_columns label (df_columns hist) = true →
        has_levels (df_columns hist) = true →
        ∃ o, getitem hist label = Ok o ∧ obj_empty (obj_dropna o) = true
  | Raise e => ¬ supported_layout hist
  end.
Proof.
  induction labels as [|label labels IH]; simpl.
  { by intros ? ?%elem_of_nil. }
  destruct (in_level0 label (df_columns hist)) eqn:Hin.
  - unfold in_level0, in_columns in *.
    destruct (df_columns hist) as [cols|fields] eqn:Hc; [done|].
    apply bool_decide_eq_true_1 in Hin as Hin'.
    apply assoc_is_Some in Hin' as [b Hb].
    rewrite (getitem_multi hist fields label Hc), Hb.
    destruct b as [bcols|col]; cbn [fmap result_fmap mbind result_bind].
    + destruct (obj_empty (obj_dropna (PFrame (df_index hist) bcols))) eqn:He.
      * destruct (close_loop_levels hist labels) as [[x|]|e]; [done| |done].
        intros lb [->|Hlb]%elem_of_cons Hlb' _; [|by apply IH].
        eexists. by rewrite (getitem_multi hist fields label Hc), Hb.
      * simpl in He. simpl.
        destruct (prod_map id (keep (row_complete bcols)) <$> bcols)
          as [|c cs] eqn:Hcs; simpl.
        { by rewrite orb_true_r in He. }
        apply series_or_none_result.
    + destruct (obj_empty (obj_dropna (PSeries (series_of (df_index hist) col))))
        eqn:He.
      * destruct (close_loop_levels hist labels) as [[x|]|e]; [done| |done].
        intros lb [->|Hlb]%elem_of_cons Hlb' _; [|by apply IH].
        eexists. by rewrite (getitem_multi hist fields label Hc), Hb.
      * unfold supported_layout. rewrite Hc. intros Hall.
        assert ((label, BSeries col) ∈ fields) as Hmem.
        { clear -Hb. induction fields as [|[k v] fields IHf]; simpl in Hb; [done|].
          case_bool_decide; simplify_eq; [left|right; by apply IHf]. }
        eapply Forall_forall in Hall; [|exact Hmem]. by destruct Hall.
  - destruct (close_loop_levels hist labels) as [[x|]|e]; [done| |done].
    intros lb [->|Hlb]%elem_of_cons Hlb' Hlev; [|by apply IH].
    unfold in_level0, in_columns, has_levels in *.
    destruct (df_columns hist); [done|congruence].
Qed.

(** The second loop on a flat frame. *)
Lemma close_loop_flat_flat (hist : DataFrame) cols (labels : list string) :
  df_columns hist = Flat cols →
  ∃ r, close_loop_flat hist labels = Ok r
       ∧ match r with
         | Some x => extraction_result x
         | None => ∀ label, label ∈ labels →
                     in_columns label (df_columns hist) = false
         end.
Proof.
  intros Hc. induction labels as [|label labels IH]; simpl.
  { eexists. split; [done|]. by intros ? ?%elem_of_nil. }
  destruct (in_columns label (df_columns hist)) eqn:Hin.
  - rewrite (getitem_flat hist cols label Hc).
    unfold in_columns in Hin. rewrite Hc in Hin.
    apply bool_decide_eq_true_1, assoc_is_Some in Hin as [col Hcol].
    rewrite Hcol. cbn [fmap result_fmap mbind result_bind].
    eexists. split; [done|]. apply series_or_none_result.
  - destruct IH as (r & -> & Hr). exists r. split; [done|].
    destruct r; [done|].
    by intros lb [->|Hlb]%elem_of_cons; [|apply Hr].
Qed.

(** The second loop after the first one found every labelled block
    empty: it finds the same. *)
Lemma close_loop_flat_empty (hist : DataFrame) (labels : list string) :
  (∀ label, label ∈ labels → in_columns label (df_columns hist) = true →
     ∃ o, getitem hist label = Ok o ∧ obj_empty (obj_dropna o) = true) →
  close_loop_flat hist labels = Ok None
  ∨ close_loop_flat hist labels = Ok (Some None).
Proof.
  induction labels as [|label labels IH]; intros Hall; simpl; [by left|].
  destruct (in_columns label (df_columns hist)) eqn:Hin.
  - destruct (Hall label) as (o & -> & He); [left|done|].
    cbn [fmap result_fmap mbind result_bind]. rewrite He. by right.
  - apply IH. intros lb Hlb. apply Hall. by right.
Qed.

(** [_get_close_series] never returns a frame, whatever the layout. *)
Lemma get_close_series_never_frame (hist : option DataFrame) r :
  _get_close_series hist = Ok r → extraction_result r.
Proof.
  unfold _get_close_series.
  destruct hist as [hist|]; [|intros; simplify_eq; by left].
  destruct (df_empty hist); [intros; simplify_eq; by left|].
  destruct (has_levels (df_columns hist)) eqn:Hlev.
  - pose proof (close_loop_levels_cases hist close_labels) as Hcases.
    destruct (close_loop_levels hist close_labels) as [[x|]|e];
      cbn [mbind result_bind]; [by (intros; simplify_eq)| |done].
    destruct (close_loop_flat_empty hist close_labels) as [-> | ->];
      [by (intros; apply Hcases)|..];
      cbn [mbind result_bind]; intros; simplify_eq; by left.
  - cbn [mbind result_bind].
    destruct (df_columns hist) as [cols|] eqn:Hc; [|done].
    destruct (close_loop_flat_flat hist cols close_labels Hc) as (r' & -> & Hr').
    cbn [mbind result_bind]. intros; simplify_eq.
    destruct r'; [done|by left].
Qed.

(** On the two supported layouts the extraction returns. *)
Lemma get_close_series_total (hist : DataFrame) :
  supported_layout hist → ∃ r, _get_close_series (Some hist) = Ok r.
Proof.
  intros Hsup. unfold _get_close_series.
  destruct (df_empty hist); [by eexists|].
  destruct (has_levels (df_columns hist)) eqn:Hlev.
  - pose proof (close_loop_levels_cases hist close_labels) as Hcases.
    destruct (close_loop_levels hist close_labels) as [[x|]|e];
      cbn [mbind result_bind]; [by eexists| |done].
    destruct (close_loop_flat_empty hist close_labels) as [-> | ->];
      [by (intros; apply Hcases)|..]; by eexists.
  - cbn [mbind result_bind].
    destruct (df_columns hist) as [cols|] eqn:Hc; [|done].
    destruct (close_loop_flat_flat hist cols close_labels Hc) as (r' & -> & _).
    by eexists.
Qed.

Lemma flat_step_present (hist : DataFrame) cols label rest col :
  df_columns hist = Flat cols → assoc label cols = Some col →
  close_loop_flat hist (label :: rest)
  = Ok (Some (series_or_none (dropna (series_of (df_index hist) col)))).
Proof.
  intros Hc Hcol. cbn [close_loop_flat].
  rewrite (getitem_flat hist cols label Hc), Hcol.
  unfold in_columns. rewrite Hc, bool_decide_eq_true_2; [done|].
  apply assoc_is_Some. by eexists.
Qed.

Lemma flat_step_absent (hist : DataFrame) label rest :
  in_columns label (df_columns hist) = false →
  close_loop_flat hist (label :: rest) = close_loop_flat hist rest.
Proof. intros H. cbn [close_loop_flat]. by rewrite H. Qed.

Lemma levels_step_present (hist : DataFrame) fields label rest c cs :
  df_columns hist = Multi fields →
  assoc label fields = Some (BFrame (c :: cs)) →
  keep (row_complete (c :: cs)) (df_index hist) ≠ [] →
  close_loop_levels hist (label :: rest)
  = Ok (Some (series_or_none
                (dropna (series_of (keep (row_complete (c :: cs)) (df_index hist))
                                   (keep (row_complete (c :: cs)) c.2))))).
Proof.
  intros Hc Hb Hne. cbn [close_loop_levels].
  rewrite (getitem_multi hist fields label Hc), Hb.
  unfold in_level0. rewrite Hc, bool_decide_eq_true_2
    by (apply assoc_is_Some; by eexists).
  cbn [fmap result_fmap mbind result_bind obj_dropna obj_empty list_fmap].
  rewrite (bool_decide_eq_false_2 _ Hne). by destruct c.
Qed.

Lemma levels_step_skip (hist : DataFrame) label rest :
  in_level0 label (df_columns hist) = false
  ∨ (∃ o, getitem hist label = Ok o ∧ obj_empty (obj_dropna o) = true) →
  close_loop_levels hist (label :: rest) = close_loop_levels hist rest.
Proof.
  intros [H|(o & Ho & He)]; cbn [close_loop_levels].
  - by rewrite H.
  - rewrite Ho. cbn [fmap result_fmap mbind result_bind]. rewrite He.
    by destruct (in_level0 _ _).
Qed.

(** Outside the supported layouts the extraction can raise: a block that
    is a single column with a value reaches the branch that reads [s]
    before it is bound. *)
Remark single_column_block_raises :
  _get_close_series
    (Some {| df_index := [day 999];
             df_columns := Multi [("Close", BSeries [qn 1 1])] |})
  = Raise UnboundLocalError.
Proof. reflexivity. Qed.

(** C6.  On either supported layout the extraction returns (it does not
    raise); its result is "no series" or a series that is not empty and
    holds no missing value; the [Close] field is preferred to
    [Adj Close], which is used when [Close] is missing (and, per field
    and symbol, when [Close] has no complete row); rows with a missing
    close are dropped; and the result is "no series" when the frame is
    empty, when no close field is present, or when the extraction is
    empty. *)
Theorem close_series_extraction (hist : DataFrame) :
  supported_layout hist →
  ∃ r, _get_close_series (Some hist) = Ok r
    ∧ extraction_result r
    ∧ (df_empty hist = true → r = None)
    ∧ (∀ cols col,
         df_columns hist = Flat cols → df_empty hist = false →
         assoc "Close" cols = Some col →
         r = series_or_none (dropna (series_of (df_index hist) col)))
    ∧ (∀ cols col,
         df_columns hist = Flat cols → df_empty hist = false →
         assoc "Close" cols = None → assoc "Adj Close" cols = Some col →
         r = series_or_none (dropna (series_of (df_index hist) col)))
    ∧ (∀ fields c cs,
         df_columns hist = Multi fields → df_empty hist = false →
         assoc "Close" fields = Some (BFrame (c :: cs)) →
         keep (row_complete (c :: cs)) (df_index hist) ≠ [] →
         r = series_or_none
               (dropna (series_of
                          (keep (row_complete (c :: cs)) (df_index hist))
                          (keep (row_complete (c :: cs)) c.2))))
    ∧ (∀ fields c cs,
         df_columns hist = Multi fields → df_empty hist = false →
         (assoc "Close" fields = None
          ∨ ∃ cols0, assoc "Close" fields = Some (BFrame cols0)
                     ∧ obj_empty (obj_dropna (PFrame (df_index hist) cols0))
                       = true) →
         assoc "Adj Close" fields = Some (BFrame (c :: cs)) →
         keep (row_complete (c :: cs)) (df_index hist) ≠ [] →
         r = series_or_none
               (dropna (series_of
                          (keep (row_complete (c :: cs)) (df_index hist))
                          (keep (row_complete (c :: cs)) c.2))))
    ∧ ((∀ label, label ∈ close_labels →
          in_columns label (df_columns hist) = false) → r = None).
Proof.
  intros Hsup. destruct (get_close_series_total hist Hsup) as [r Hr].
  exists r. split; [done|].
  split; [by eapply get_close_series_never_frame|].
  unfold _get_close_series in Hr.
  split; [intros He; rewrite He in Hr; by simplify_eq|].
  split; [|split; [|split; [|split]]].
  - intros cols col Hc He Hcol. rewrite He, Hc in Hr.
    cbn [has_levels mbind result_bind] in Hr. unfold close_labels in Hr.
    rewrite (flat_step_present hist cols _ _ col Hc Hcol) in Hr.
    cbn [mbind result_bind default] in Hr. by simplify_eq.
  - intros cols col Hc He Hno Hcol. rewrite He, Hc in Hr.
    cbn [has_levels mbind result_bind] in Hr. unfold close_labels in Hr.
    rewrite flat_step_absent in Hr.
    2:{ unfold in_columns. rewrite Hc. apply bool_decide_eq_false_2.
        by apply assoc_None. }
    rewrite (flat_step_present hist cols _ _ col Hc Hcol) in Hr.
    cbn [mbind result_bind default] in Hr. by simplify_eq.
  - intros fields c cs Hc He Hb Hne. rewrite He, Hc in Hr.
    cbn [has_levels] in Hr. unfold close_labels in Hr.
    rewrite (levels_step_present hist fields _ _ c cs Hc Hb Hne) in Hr.
    cbn [mbind result_bind] in Hr. by simplify_eq.
  - intros fields c cs Hc He Hclose Hb Hne. rewrite He, Hc in Hr.
    cbn [has_levels] in Hr. unfold close_labels in Hr.
    rewrite levels_step_skip in Hr.
    2:{ destruct Hclose as [Hno|(cols0 & Hc0 & Hemp)].
        - left. unfold in_level0. rewrite Hc. apply bool_decide_eq_false_2.
          by apply assoc_None.
        - right. eexists. split; [|exact Hemp].
          by rewrite (getitem_multi hist fields _ Hc), Hc0. }
    rewrite (levels_step_present hist fields _ _ c cs Hc Hb Hne) in Hr.
    cbn [mbind result_bind] in Hr. by simplify_eq.
  - intros Hnone. destruct (df_empty hist); [by simplify_eq|].
    assert (close_loop_levels hist close_labels = Ok None) as Hlv.
    { unfold close_labels.
      assert (∀ label c, in_columns label c = false →
                         in_level0 label c = false) as Hlev
        by (by intros ? []).
      rewrite !levels_step_skip; [done|left; apply Hlev, Hnone; in_list..]. }
    assert (close_loop_flat hist close_labels = Ok None) as Hfl.
    { unfold close_labels.
      rewrite !flat_step_absent; [done|apply Hnone; in_list..]. }
    rewrite Hlv, Hfl in Hr.
    destruct (has_levels _); cbn [mbind result_bind default] in Hr;
      by simplify_eq.
Qed.

(** ** Sums *)

Lemma Qsum_perm (l l' : list Qc) : l ≡ₚ l' → Qsum l = Qsum l'.
Proof.
  induction 1 as [|x l l' _ IH|x y l|l l' l'' _ IH1 _ IH2]; simpl.
  - done.
  - by rewrite IH.
  - ring.
  - by rewrite IH1.
Qed.

Lemma pd_sum_from (a : Qc) (l : list pyfloat) :
  foldl (λ acc x, if isna x then acc else fadd acc x) (Fin a) l
  = Fin (a + Qsum (fin_values l))%Qc.
Proof.
  revert a. induction l as [|[|q] l IH]; intros a; simpl.
  - f_equal. ring.
  - apply IH.
  - rewrite IH. f_equal. ring.
Qed.

Lemma pd_sum_fin (l : list pyfloat) : pd_sum l = Fin (Qsum (fin_values l)).
Proof.
  unfold pd_sum, fzero. rewrite pd_sum_from, Qz_0. f_equal. ring.
Qed.

(** ** The since-inception return *)

Lemma insert_by_value_perm r l : insert_by_value r l ≡ₚ r :: l.
Proof.
  induction l as [|r' l IH]; simpl; [done|].
  destruct (_ || _); [done|]. rewrite IH. apply Permutation_swap.
Qed.

Lemma sort_values_desc_perm l : sort_values_desc l ≡ₚ l.
Proof.
  induction l as [|r l IH]; simpl; [done|].
  rewrite insert_by_value_perm. by f_equiv.
Qed.

Lemma shown_of_perm df :
  shown_of df ≡ₚ filter (λ r, isna (PriceAUD r) = false) df.
Proof. apply sort_values_desc_perm. Qed.

Lemma port_actual_of_costed (shown : list Row) :
  port_actual_of shown = Ok (actual_of_costed (have_cost_of shown)).
Proof.
  unfold port_actual_of, actual_of_costed.
  case_bool_decide as Hs; [by subst|].
  case_bool_decide as Hc; [done|].
  rewrite !pd_sum_fin. unfold truthy, feq, flt, fzero, pydiv, fsub.
  rewrite Qz_0.
  set (c := Qsum (fin_values (cost_aud <$> have_cost_of shown))).
  destruct (decide (0 < c)%Qc) as [Hpos|Hpos].
  - rewrite (bool_decide_eq_true_2 _ Hpos).
    rewrite (bool_decide_eq_false_2 (c = 0%Qc)); [done|].
    intros Heq. rewrite Heq in Hpos. by apply Qclt_not_eq in Hpos.
  - rewrite (bool_decide_eq_false_2 _ Hpos). by rewrite andb_false_r.
Qed.

Lemma actual_of_costed_perm (l l' : list Row) :
  l ≡ₚ l' → actual_of_costed l = actual_of_costed l'.
Proof.
  intros H. unfold actual_of_costed.
  assert (bool_decide (l = []) = bool_decide (l' = [])) as ->.
  { apply bool_decide_ext. split; intros ->.
    - by apply Permutation_nil_l in H.
    - by apply Permutation_nil_r in H. }
  assert (Qsum (fin_values (cost_aud <$> l))
          = Qsum (fin_values (cost_aud <$> l'))) as ->.
  { apply Qsum_perm. unfold fin_values. by rewrite H. }
  assert (Qsum (fin_values (MarketValueAUD <$> l))
          = Qsum (fin_values (MarketValueAUD <$> l'))) as ->.
  { apply Qsum_perm. unfold fin_values. by rewrite H. }
  done.
Qed.

(** Rows without a cost basis do not enter the return, wherever they
    stand in the sheet. *)
Lemma port_actual_of_drop (df1 df2 : list Row) (row : Row) :
  isna (AvgCostAUD row) = true →
  port_actual_of (shown_of (df1 ++ row :: df2))
  = port_actual_of (shown_of (df1 ++ df2)).
Proof.
  intros Hna. rewrite !port_actual_of_costed. f_equal.
  apply actual_of_costed_perm. unfold have_cost_of.
  rewrite !shown_of_perm.
  rewrite !filter_app, filter_cons.
  destruct (decide (isna (PriceAUD row) = false)); [|done].
  rewrite filter_cons_False; [done|]. by rewrite Hna.
Qed.

(** ** The price dictionary of a run *)

Lemma holdings_loop_prices p now rate cache hs : ∀ d d',
  holdings_loop p now rate cache d hs = Ok d' →
  price_aud d' = prices_after p rate (price_aud d) hs.
Proof.
  induction hs as [|h hs IH]; intros d d' Hloop; simpl in Hloop.
  - by simplify_eq.
  - destruct (holding_step p now rate cache d h) as [d1|] eqn:Hstep; [|done].
    cbn [mbind result_bind] in Hloop.
    rewrite (IH d1 d' Hloop). simpl. f_equal.
    unfold holding_step in Hstep. unfold price_entry.
    destruct (get_price_native p _).1 as [px|]; [|by simplify_eq].
    destruct (compute_individual_perf_from_hist now _)
      as [[[[[[p1s p6s] p12s] p1n] p6n] p12n]|]; [|done].
    cbn [mbind result_bind] in Hstep. by simplify_eq.
Qed.

Lemma prices_after_lookup_ext p rate hs k : ∀ m m',
  m !! k = m' !! k →
  prices_after p rate m hs !! k = prices_after p rate m' hs !! k.
Proof.
  induction hs as [|h hs IH]; intros m m' Hk; simpl; [done|].
  apply IH. destruct (price_entry p rate h); [|done].
  destruct (decide (h_Ticker h = k)) as [->|Hne].
  - by rewrite !lookup_insert_eq.
  - by rewrite !lookup_insert_ne.
Qed.

(** A holding leaves the entries of the other tickers as they are. *)
Lemma prices_after_lookup_ne p rate hs1 hs2 h k : ∀ m,
  k ≠ h_Ticker h →
  prices_after p rate m (hs1 ++ h :: hs2) !! k
  = prices_after p rate m (hs1 ++ hs2) !! k.
Proof.
  induction hs1 as [|h1 hs1 IH]; intros m Hk; simpl.
  - apply prices_after_lookup_ext. destruct (price_entry p rate h); [|done].
    by rewrite lookup_insert_ne.
  - by apply IH.
Qed.

(** When every holding of a ticker has the same price entry, that entry
    is what the dictionary holds for the ticker, however many there are. *)
Lemma prices_after_uniform p rate k e hs : ∀ m,
  (∀ h', h' ∈ hs → h_Ticker h' = k → price_entry p rate h' = e) →
  prices_after p rate m hs !! k
  = if bool_decide (k ∈ h_Ticker <$> hs)
    then match e with Some v => Some v | None => m !! k end
    else m !! k.
Proof.
  induction hs as [|h hs IH]; intros m He; [done|].
  cbn [prices_after]. rewrite fmap_cons.
  rewrite IH by (intros h' Hh'; apply He; by right).
  destruct (decide (h_Ticker h = k)) as [Hk|Hk].
  - rewrite (He h) by (done || left). rewrite Hk.
    rewrite (bool_decide_eq_true_2 (k ∈ k :: _)) by left.
    destruct e as [v|]; [rewrite lookup_insert_eq|]; by case_bool_decide.
  - assert (bool_decide (k ∈ h_Ticker h :: (h_Ticker <$> hs))
            = bool_decide (k ∈ h_Ticker <$> hs)) as ->.
    { apply bool_decide_ext. rewrite elem_of_cons.
      split; [intros [?|?]; [congruence|done]|by right]. }
    destruct (price_entry p rate h); [by rewrite lookup_insert_ne|done].
Qed.

(** A holding leaves the entry of every ticker already held as it is,
    provided the holdings of its own ticker are on its market. *)
Lemma prices_after_held p rate hs1 hs2 h x :
  x ∈ hs1 ++ hs2 →
  (∀ h', h' ∈ hs1 ++ hs2 → h_Ticker h' = h_Ticker h →
         h_Market h' = h_Market h) →
  prices_after p rate ∅ (hs1 ++ h :: hs2) !! h_Ticker x
  = prices_after p rate ∅ (hs1 ++ hs2) !! h_Ticker x.
Proof.
  intros Hx Hsame.
  destruct (decide (h_Ticker x = h_Ticker h)) as [Hk|Hk];
    [|by apply prices_after_lookup_ne].
  assert (∀ h', h' ∈ hs1 ++ h :: hs2 → h_Ticker h' = h_Ticker x →
                price_entry p rate h' = price_entry p rate h) as Hentry.
  { intros h' Hh' Hk'. unfold price_entry.
    assert (h' = h ∨ h' ∈ hs1 ++ hs2) as [->|Hin]; [|done|].
    { rewrite elem_of_app, elem_of_cons in Hh'. rewrite elem_of_app.
      destruct Hh' as [?|[?|?]]; auto. }
    rewrite (Hsame h' Hin) by congruence.
    by replace (h_Ticker h') with (h_Ticker h) by congruence. }
  rewrite (prices_after_uniform p rate _ (price_entry p rate h)
             (hs1 ++ h :: hs2)) by done.
  rewrite (prices_after_uniform p rate _ (price_entry p rate h) (hs1 ++ hs2)).
  2:{ intros h' Hh'. apply Hentry. rewrite elem_of_app, elem_of_cons.
      rewrite elem_of_app in Hh'. destruct Hh' as [?|?]; auto. }
  rewrite !bool_decide_eq_true_2; [done|by apply list_elem_of_fmap_2|].
  rewrite Hk. apply list_elem_of_fmap_2. rewrite elem_of_app, elem_of_cons.
  right. by left.
Qed.

Lemma make_row_ext rate has_avgcost d d' h :
  price_aud d !! h_Ticker h = price_aud d' !! h_Ticker h →
  make_row rate has_avgcost d h = make_row rate has_avgcost d' h.
Proof. intros H. unfold make_row, map_get. by rewrite H. Qed.

Lemma main_inv p now has_avgcost hs rows snap :
  main p now has_avgcost hs = Ok (rows, snap) →
  ∃ d, holdings_loop p now (get_aud_per_usd p) (prefetch p hs)
         empty_dicts hs = Ok d
       ∧ rows = shown_of (make_row (get_aud_per_usd p) has_avgcost d <$> hs)
       ∧ port_actual_of rows = Ok (port_actual snap).
Proof.
  intros Hmain. unfold main in Hmain.
  destruct (holdings_loop p now (get_aud_per_usd p) (prefetch p hs)
              empty_dicts hs) as [d|] eqn:Hloop; [|done].
  exists d. split; [done|].
  cbn [mbind result_bind] in Hmain.
  repeat match type of Hmain with
         | ((if ?c then _ else _) ≫= _) = _ =>
             destruct c; cbn [mbind result_bind] in Hmain
         | (?c ≫= _) = _ =>
             destruct c eqn:?; [|done]; cbn [mbind result_bind] in Hmain
         end; by simplify_eq.
Qed.

Lemma cost_to_aud_convert (rate cost : pyfloat) (tag : string) :
  cost_to_aud rate tag cost = convert rate cost (market_of tag).
Proof.
  unfold cost_to_aud, market_of, convert.
  destruct cost; cbn [isna]; by case_bool_decide.
Qed.

Lemma filter_fmap {A B : Type} (f : A → B) (P : B → Prop)
    `{!∀ y, Decision (P y)} (l : list A) :
  filter P (f <$> l) = f <$> filter (λ x, P (f x)) l.
Proof.
  induction l as [|x l IH]; [done|].
  rewrite fmap_cons, !filter_cons, IH. by destruct (decide (P (f x))).
Qed.

(** The rows that enter the return of a run are those of the costed
    holdings. *)
Lemma have_cost_rows rate d hs :
  have_cost_of (shown_of (make_row rate true d <$> hs))
  ≡ₚ make_row rate true d <$> costed rate (map_get (price_aud d)) hs.
Proof.
  unfold have_cost_of, costed. rewrite shown_of_perm.
  rewrite list_filter_filter, filter_fmap.
  f_equiv. apply reflexive_eq, list_filter_iff. intros h.
  cbn [make_row AvgCostAUD PriceAUD]. rewrite cost_to_aud_convert. tauto.
Qed.

Lemma actual_of_costed_rows rate d hs :
  actual_of_costed (have_cost_of (shown_of (make_row rate true d <$> hs)))
  = since_inception rate (map_get (price_aud d)) hs.
Proof.
  rewrite (actual_of_costed_perm _ _ (have_cost_rows rate d hs)).
  unfold actual_of_costed, since_inception.
  set (cs := costed rate (map_get (price_aud d)) hs).
  assert (bool_decide (make_row rate true d <$> cs = [])
          = bool_decide (cs = [])) as ->.
  { apply bool_decide_ext. split; [apply fmap_nil_inv|by intros ->]. }
  rewrite <- !list_fmap_compose.
  rewrite (list_fmap_ext (cost_aud ∘ make_row rate true d)
             (cost_basis rate) cs).
  2:{ intros i h _. unfold cost_aud, cost_basis, compose, make_row.
      cbn [AvgCostAUD Quantity]. by rewrite cost_to_aud_convert. }
  by rewrite (list_fmap_ext (MarketValueAUD ∘ make_row rate true d)
                (λ h, fmul (h_Quantity h)
                        (map_get (price_aud d) (h_Ticker h))) cs).
Qed.

Lemma have_cost_none rate d hs :
  have_cost_of (shown_of (make_row rate false d <$> hs)) = [].
Proof.
  apply elem_of_nil_inv. intros r. unfold have_cost_of.
  rewrite list_elem_of_filter, shown_of_perm, list_elem_of_filter.
  intros (Hc & _ & (h & -> & _)%list_elem_of_fmap). done.
Qed.

(** C3 (amended).  In a run that returns, the since-inception return is
    [(sum of market values - sum of cost bases) / sum of cost bases]
    over exactly the holdings that have a price and a known cost basis,
    the cost basis being the average cost converted by the market rule
    times the quantity and the market value the quantity times the price
    the run holds for the ticker; it is absent exactly when there is no
    such holding or the total cost basis is not above zero.  In the
    aggregate a row without cost basis changes nothing, wherever it
    stands; in a whole run a holding without average cost changes
    nothing provided the holdings that already share its ticker are on
    its market. *)
Theorem since_inception_return :
  (∀ p now has_avgcost hs rows snap,
     main p now has_avgcost hs = Ok (rows, snap) →
     let rate := get_aud_per_usd p in
     let price := map_get (prices_after p rate ∅ hs) in
     port_actual snap
     = (if has_avgcost then since_inception rate price hs else None)
     ∧ (since_inception rate price hs = None ↔
          costed rate price hs = []
          ∨ ¬ (0 < Qsum (fin_values
                           (cost_basis rate <$> costed rate price hs)))%Qc))
  ∧ (∀ shown : list Row,
       ∃ m c, pd_sum (MarketValueAUD <$> have_cost_of shown) = Fin m
              ∧ pd_sum (cost_aud <$> have_cost_of shown) = Fin c
              ∧ port_actual_of shown
                = Ok (if bool_decide (have_cost_of shown = []) then None
                      else if bool_decide (0 < c)%Qc
                           then Some (Fin ((m - c) / c)%Qc)
                           else None))
  ∧ (∀ (df1 df2 : list Row) (row : Row),
       isna (AvgCostAUD row) = true →
       port_actual_of (shown_of (df1 ++ row :: df2))
       = port_actual_of (shown_of (df1 ++ df2)))
  ∧ (∀ p now has_avgcost hs1 hs2 h rows snap rows' snap',
       main p now has_avgcost (hs1 ++ hs2) = Ok (rows, snap) →
       main p now has_avgcost (hs1 ++ h :: hs2) = Ok (rows', snap') →
       h_AvgCost h = NaN →
       (∀ h', h' ∈ hs1 ++ hs2 → h_Ticker h' = h_Ticker h →
              h_Market h' = h_Market h) →
       port_actual snap' = port_actual snap).
Proof.
  split; [|split; [|split]].
  - intros p now has_avgcost hs rows snap Hrun rate price. split.
    + apply main_inv in Hrun as (d & Hd & -> & Hpa).
      apply holdings_loop_prices in Hd. cbn [empty_dicts price_aud] in Hd.
      rewrite port_actual_of_costed in Hpa. injection Hpa as <-.
      destruct has_avgcost.
      * rewrite actual_of_costed_rows. unfold price. by rewrite Hd.
      * by rewrite have_cost_none.
    + unfold since_inception.
      case_bool_decide as Hnil; [split; [by left|done]|].
      case_bool_decide as Hpos; split; try done.
      * by intros [?|?].
      * by right.
  - intros shown. do 2 eexists.
    split; [apply pd_sum_fin|]. split; [apply pd_sum_fin|].
    apply port_actual_of_costed.
  - apply port_actual_of_drop.
  - intros p now has_avgcost hs1 hs2 h rows snap rows' snap'
      Hrun Hrun' Hna Hfresh.
    apply main_inv in Hrun as (d & Hd & -> & Hpa).
    apply main_inv in Hrun' as (d' & Hd' & -> & Hpa').
    apply holdings_loop_prices in Hd, Hd'.
    assert (∀ x, x ∈ hs1 ++ hs2 →
              make_row (get_aud_per_usd p) has_avgcost d' x
              = make_row (get_aud_per_usd p) has_avgcost d x) as Hrows.
    { intros x Hx. apply make_row_ext. rewrite Hd, Hd'.
      by apply prices_after_held. }
    rewrite fmap_app, fmap_cons in Hpa'.
    rewrite port_actual_of_drop in Hpa'.
    2:{ unfold make_row, cost_to_aud. simpl. rewrite Hna.
        by destruct has_avgcost. }
    rewrite <- fmap_app in Hpa'.
    rewrite (Forall_fmap_ext_1
               (make_row (get_aud_per_usd p) has_avgcost d')
               (make_row (get_aud_per_usd p) has_avgcost d)
               (hs1 ++ hs2)) in Hpa'.
    2:{ apply Forall_forall. exact Hrows. }
    rewrite Hpa in Hpa'. by simplify_eq.
Qed.

(** ** The start-weighted return *)

Lemma agg_loop_spec rate cache ret_dict target rows : ∀ usable total_mv,
  rows_return rate cache ret_dict target rows →
  agg_loop rate cache ret_dict target rows usable total_mv
  = Ok (usable ++ contributions rate cache ret_dict target rows,
        foldl fadd total_mv (contributions rate cache ret_dict target rows).*1).
Proof.
  induction rows as [|r rows IH]; intros usable total_mv Hret; simpl.
  - by rewrite app_nil_r.
  - apply Forall_cons in Hret as [[c Hc] Hret].
    unfold contributions, contribution. simpl. rewrite Hc.
    cbn [mbind result_bind].
    destruct c as [[mv ret]|]; rewrite IH by done; [|done].
    unfold contributions, contribution. simpl. by rewrite <- app_assoc.
Qed.

(** A contribution is the return of the row's ticker, weighted by the
    quantity times the converted close at the reference index of the
    cached series, and its weight is not at or below zero. *)
Lemma agg_row_inv rate cache ret_dict target r mv ret :
  agg_row rate cache ret_dict target r = Ok (Some (mv, ret)) →
  dict_get ret_dict (Ticker r) = Some ret
  ∧ ∃ s p_start,
      (_get_close_series (dict_get cache (TickerYF r)) ≫= as_series)
      = Ok (Some s)
      ∧ s ≠ []
      ∧ iloc s (ref_index s target) = Ok p_start
      ∧ isna p_start = false ∧ feq p_start fzero = false
      ∧ mv = fmul (Quantity r) (price_to_aud rate p_start (Market r))
      ∧ fle mv fzero = false.
Proof.
  unfold agg_row. intros H.
  destruct (dict_get ret_dict (Ticker r)) as [ret'|]; [|done].
  case_bool_decide; [done|].
  destruct (_get_close_series _) as [o|]; [|done].
  cbn [mbind result_bind] in *.
  destruct (as_series o) as [[s|]|]; [| done..].
  cbn [mbind result_bind] in *.
  case_bool_decide; [done|].
  destruct (iloc s (ref_index s target)) as [p_start|] eqn:Hp; [|done].
  destruct (isna p_start) eqn:Hna; [done|].
  destruct (feq p_start fzero) eqn:Hz; [done|]. simpl in H.
  destruct (fle _ fzero) eqn:Hle; [done|]. simplify_eq.
  split; [done|]. by exists s, p_start.
Qed.

Lemma Qsum_nonneg (l : list Qc) :
  Forall (λ m, 0 < m)%Qc l → (0 ≤ Qsum l)%Qc.
Proof.
  induction 1 as [|m l Hm Hl IH]; simpl; [done|].
  apply Qclt_le_weak. by apply Qcplus_pos_nonneg.
Qed.

Lemma Qsum_pos (l : list Qc) :
  l ≠ [] → Forall (λ m, 0 < m)%Qc l → (0 < Qsum l)%Qc.
Proof.
  intros Hne Hl. destruct Hl as [|m l Hm Hl]; [done|]. simpl.
  apply Qcplus_pos_nonneg; [done|by apply Qsum_nonneg].
Qed.

Lemma Qsum_scale (l : list Qc) (x : Qc) :
  Qsum ((λ m, m * x)%Qc <$> l) = (Qsum l * x)%Qc.
Proof.
  induction l as [|m l IH]; [simpl; ring|].
  rewrite fmap_cons. cbn [Qsum foldr]. fold (Qsum ((λ m, m * x)%Qc <$> l)).
  rewrite IH. fold (Qsum l). ring.
Qed.

Lemma py_sum_Fin (l : list Qc) : py_sum (Fin <$> l) = Fin (Qsum l).
Proof.
  unfold py_sum, fzero. rewrite Qz_0.
  assert (∀ a, foldl fadd (Fin a) (Fin <$> l) = Fin (a + Qsum l)%Qc) as H.
  { induction l as [|m l IH]; intros a; simpl; [f_equal; ring|].
    rewrite IH. f_equal. ring. }
  rewrite H. f_equal. ring.
Qed.

(** Contributions whose weights are positive numbers and whose returns
    are all the number [x]. *)
Lemma same_return_shape (us : list (pyfloat * pyfloat)) (x : Qc) :
  Forall (λ u, ∃ m, u = (Fin m, Fin x) ∧ (0 < m)%Qc) us →
  ∃ ms, us = (λ m, (Fin m, Fin x)) <$> ms ∧ Forall (λ m, 0 < m)%Qc ms.
Proof.
  induction 1 as [|u us (m & -> & Hm) _ (ms & -> & Hms)].
  - by exists [].
  - exists (m :: ms). split; [done|by constructor].
Qed.

Lemma same_return_average (us : list (pyfloat * pyfloat)) (x : Qc) :
  us ≠ [] →
  Forall (λ u, ∃ m, u = (Fin m, Fin x) ∧ (0 < m)%Qc) us →
  ∃ S, (0 < S)%Qc
       ∧ py_sum us.*1 = Fin S
       ∧ py_sum ((λ u : pyfloat * pyfloat, fmul u.1 u.2) <$> us)
         = Fin (S * x)%Qc.
Proof.
  intros Hne (ms & -> & Hms)%same_return_shape.
  exists (Qsum ms). split; [|split].
  - apply Qsum_pos; [|done]. by destruct ms.
  - rewrite <- list_fmap_compose.
    rewrite (list_fmap_ext _ Fin ms) by done. apply py_sum_Fin.
  - rewrite <- list_fmap_compose.
    rewrite (list_fmap_ext _ (Fin ∘ (λ m, m * x)%Qc) ms) by done.
    rewrite list_fmap_compose, py_sum_Fin. by rewrite Qsum_scale.
Qed.

(** With a rate and quantities that are numbers, every weight is a
    positive number. *)
Lemma contribution_weight_pos rate cache ret_dict target r mv ret :
  isna rate = false → isna (Quantity r) = false →
  agg_row rate cache ret_dict target r = Ok (Some (mv, ret)) →
  ∃ m, mv = Fin m ∧ (0 < m)%Qc.
Proof.
  intros Hrate Hq (_ & s & p_start & _ & _ & _ & Hna & _ & -> & Hle)%agg_row_inv.
  unfold price_to_aud in *.
  destruct rate as [|rate], (Quantity r) as [|q], p_start as [|ps]; try done.
  destruct (bool_decide (Market r = "US")); simpl in *;
    (eexists; split; [done|]);
    apply bool_decide_eq_false_1 in Hle; rewrite Qz_0 in Hle;
    by apply Qclt_nge.
Qed.

Lemma contributions_elem rate cache ret_dict target rows u :
  u ∈ contributions rate cache ret_dict target rows →
  ∃ r, r ∈ rows ∧ agg_row rate cache ret_dict target r = Ok (Some u).
Proof.
  unfold contributions. rewrite list_elem_of_omap.
  intros (r & Hr & Hc). exists r. split; [done|].
  unfold contribution in Hc.
  by destruct (agg_row rate cache ret_dict target r) as [c|]; simplify_eq.
Qed.

Lemma fin_values_Fin (l : list Qc) : fin_values (Fin <$> l) = l.
Proof.
  induction l as [|q l IH]; [done|].
  rewrite fmap_cons.
  change (fin_values (Fin q :: (Fin <$> l)))
    with (q :: fin_values (Fin <$> l)).
  by rewrite IH.
Qed.

(** Contributions whose weights are positive numbers and whose returns
    are numbers. *)
Lemma weighted_shape (us : list (pyfloat * pyfloat)) :
  Forall (λ u, ∃ m x, u = (Fin m, Fin x) ∧ (0 < m)%Qc) us →
  ∃ l : list (Qc * Qc),
    us = (λ p, (Fin p.1, Fin p.2)) <$> l ∧ Forall (λ p, 0 < p.1)%Qc l.
Proof.
  induction 1 as [|u us (m & x & -> & Hm) _ (l & -> & Hl)].
  - by exists [].
  - exists ((m, x) :: l). split; [done|by constructor].
Qed.

Lemma weighted_average (us : list (pyfloat * pyfloat)) :
  us ≠ [] →
  Forall (λ u, ∃ m x, u = (Fin m, Fin x) ∧ (0 < m)%Qc) us →
  (0 < Qsum (fin_values us.*1))%Qc
  ∧ py_sum us.*1 = Fin (Qsum (fin_values us.*1))
  ∧ py_sum ((λ u : pyfloat * pyfloat, fmul u.1 u.2) <$> us)
    = Fin (Qsum (fin_values ((λ u : pyfloat * pyfloat, fmul u.1 u.2) <$> us))).
Proof.
  intros Hne (l & -> & Hl)%weighted_shape.
  rewrite <- !list_fmap_compose.
  rewrite (list_fmap_ext (fst ∘ _) (Fin ∘ fst) l) by done.
  rewrite (list_fmap_ext ((λ u : pyfloat * pyfloat, fmul u.1 u.2) ∘ _)
             (Fin ∘ (λ p : Qc * Qc, p.1 * p.2)%Qc) l) by done.
  rewrite !list_fmap_compose, !fin_values_Fin, !py_sum_Fin.
  split; [|done].
  apply Qsum_pos; [by destruct l|]. by apply Forall_fmap.
Qed.

(** When the cached frames are in a supported layout no row raises. *)
Lemma supported_rows_return rate cache ret_dict target (rows : list Row) :
  (∀ r hist, r ∈ rows → dict_get cache (TickerYF r) = Some hist →
             supported_layout hist) →
  rows_return rate cache ret_dict target rows.
Proof.
  intros Hsup. apply Forall_forall. intros r Hr. unfold agg_row.
  destruct (dict_get ret_dict (Ticker r)); [|by eexists].
  case_bool_decide; [by eexists|].
  assert (∃ o, _get_close_series (dict_get cache (TickerYF r)) = Ok o
               ∧ extraction_result o) as (o & -> & Ho).
  { destruct (dict_get cache (TickerYF r)) as [hist|] eqn:Hh.
    - destruct (get_close_series_total hist) as [o Ho]; [by eapply Hsup|].
      exists o. split; [done|]. by eapply get_close_series_never_frame.
    - exists None. split; [done|by left]. }
  cbn [mbind result_bind].
  destruct Ho as [->|(s & -> & _ & _)]; cbn [as_series mbind result_bind];
    [by eexists|].
  case_bool_decide; [by eexists|].
  destruct (iloc s (ref_index s target)) as [p_start|]; [|by eexists].
  destruct (isna p_start || feq p_start fzero); [by eexists|].
  destruct (fle _ fzero); by eexists.
Qed.

(** On a series sorted by date the code's reference index holds the
    close the window starts from. *)
Lemma start_close_ref_index (s : Series) (target : Z) :
  s ≠ [] → StronglySorted Z.le (s_index s) →
  ∃ p_start, iloc s (ref_index s target) = Ok p_start
             ∧ start_close s target = Some p_start.
Proof.
  intros Hne Hs.
  destruct (ref_index_position s target Hne Hs) as (Hlt & Hbel & Hat).
  unfold s_index in *. rewrite length_fmap in *.
  destruct (lookup_lt_is_Some_2 s (ref_index s target) Hlt) as [[t v] Hrow].
  exists v. split; [unfold iloc; by rewrite Hrow|].
  unfold start_close.
  destruct Hat as [(x & Hx & Hxt)|[Hlast Hall]].
  - rewrite list_lookup_fmap, Hrow in Hx. cbn in Hx. simplify_eq.
    assert (list_find (λ row : Z * pyfloat, target ≤ row.1) s
            = Some (ref_index s target, (x, v))) as ->; [|done].
    apply list_find_Some. split; [done|]. split; [done|].
    intros j [tj vj] Hj Hji. cbn.
    specialize (Hbel j tj Hji). rewrite list_lookup_fmap, Hj in Hbel.
    specialize (Hbel eq_refl). lia.
  - assert (list_find (λ row : Z * pyfloat, target ≤ row.1) s = None) as ->.
    { apply list_find_None, Forall_forall. intros [tj vj] Hj. cbn.
      assert (tj < target); [|lia]. apply Hall.
      apply list_elem_of_fmap. by exists (tj, vj). }
    rewrite last_lookup.
    replace (pred (length s)) with (ref_index s target) by lia.
    by rewrite Hrow.
Qed.

Lemma price_to_aud_convert (rate px : pyfloat) (tag : string) :
  price_to_aud rate px tag = convert rate px (market_of tag).
Proof. unfold price_to_aud, market_of. by case_bool_decide. Qed.

(** One turn of the loop yields the contribution of the row. *)
Lemma agg_row_start_contribution rate cache ret_dict target closes r :
  (_get_close_series (dict_get cache (TickerYF r)) ≫= as_series)
  = Ok (closes r) →
  (∀ s, closes r = Some s → StronglySorted Z.le (s_index s)) →
  TickerYF r ≠ "" →
  agg_row rate cache ret_dict target r
  = Ok (start_contribution rate closes ret_dict target r).
Proof.
  intros Hex Hsorted Hsym. unfold agg_row, start_contribution.
  destruct (dict_get ret_dict (Ticker r)) as [ret|]; [|done].
  cbn [mbind option_bind].
  rewrite (bool_decide_eq_false_2 _ Hsym).
  destruct (_get_close_series (dict_get cache (TickerYF r))) as [o|];
    [|done].
  cbn [mbind result_bind] in Hex |- *. rewrite Hex.
  cbn [mbind result_bind].
  destruct (closes r) as [s|] eqn:Hc; [|done]. cbn [mbind option_bind].
  case_bool_decide as Hnil; [by subst s|].
  destruct (start_close_ref_index s target Hnil (Hsorted s eq_refl))
    as (p_start & -> & ->).
  cbn [mbind option_bind].
  destruct (isna p_start || feq p_start fzero); [done|].
  rewrite price_to_aud_convert. by destruct (fle _ fzero).
Qed.

Lemma contributions_start rate cache ret_dict target closes (rows : list Row) :
  (∀ r, r ∈ rows →
        (_get_close_series (dict_get cache (TickerYF r)) ≫= as_series)
        = Ok (closes r)) →
  (∀ r s, r ∈ rows → closes r = Some s → StronglySorted Z.le (s_index s)) →
  (∀ r, r ∈ rows → TickerYF r ≠ "") →
  rows_return rate cache ret_dict target rows
  ∧ contributions rate cache ret_dict target rows
    = omap (start_contribution rate closes ret_dict target) rows.
Proof.
  intros Hex Hsorted Hsym.
  assert (∀ r, r ∈ rows →
            agg_row rate cache ret_dict target r
            = Ok (start_contribution rate closes ret_dict target r)) as Hrow.
  { intros r Hr. apply agg_row_start_contribution; eauto. }
  split.
  - apply Forall_forall. intros r Hr. eexists. by apply Hrow.
  - unfold contributions. clear Hex Hsorted Hsym.
    induction rows as [|r rows IH]; [done|].
    cbn [omap list_omap]. unfold contribution at 1.
    rewrite (Hrow r) by left.
    rewrite IH; [done|]. intros r' Hr'. apply Hrow. by right.
Qed.

(** The quotient at the end of [agg_with_start_weights] is the weighted
    mean. *)
Lemma weighted_mean_quotient (us : list (pyfloat * pyfloat)) :
  (if bool_decide (us = []) || fle (py_sum us.*1) fzero then Ok None
   else v ← pydiv (py_sum ((λ u : pyfloat * pyfloat, fmul u.1 u.2) <$> us))
                  (py_sum us.*1) ;
        Ok (Some v))
  = Ok (weighted_mean us).
Proof.
  unfold weighted_mean.
  destruct (bool_decide (us = []) || fle (py_sum us.*1) fzero) eqn:Hg; [done|].
  apply orb_false_iff in Hg as [_ Hle].
  unfold pydiv. destruct (py_sum us.*1) as [|w].
  - by destruct (py_sum _).
  - rewrite bool_decide_eq_false_2.
    + by destruct (py_sum _).
    + intros ->. by vm_compute in Hle.
Qed.

Lemma start_contribution_weight_pos rate closes ret_dict target r mv ret :
  isna rate = false → isna (Quantity r) = false →
  start_contribution rate closes ret_dict target r = Some (mv, ret) →
  ∃ m, mv = Fin m ∧ (0 < m)%Qc.
Proof.
  intros Hrate Hq. unfold start_contribution.
  destruct (dict_get ret_dict (Ticker r)) as [ret'|]; [|done].
  destruct (closes r) as [s|]; [|done]. cbn [mbind option_bind].
  destruct (start_close s target) as [p_start|]; [|done].
  cbn [mbind option_bind].
  destruct (isna p_start || feq p_start fzero) eqn:Hp; [done|].
  destruct (fle _ fzero) eqn:Hle; [done|]. intros [= <- <-].
  apply orb_false_iff in Hp as [Hna _].
  unfold convert in *.
  destruct rate as [|rate], (Quantity r) as [|q], p_start as [|ps]; try done.
  destruct (market_of (Market r)); simpl in *;
    (eexists; split; [done|]);
    apply bool_decide_eq_false_1 in Hle; rewrite Qz_0 in Hle;
    by apply Qclt_nge.
Qed.

(** C2 (amended).  Let the close series of every shown row be the one extracted
    from its cached frame, sorted by date, and let every row have a
    symbol.  Then the hypothetical return of a window is the mean of the
    returns of the contributing rows weighted by their start market
    values, [quantity * convert(startPrice, market)] with the start
    price taken at the first date at or after the target date or else at
    the last date; it is absent exactly when no row contributes or the
    total start value is at or below zero.  In exact arithmetic, when
    the rate, the quantities and the returns are numbers and some row
    contributes, the total start value is positive and the result is the
    quotient of the exact sums; and when every contributing row has the
    same return [x], the result is [x]. *)
Theorem weighted_portfolio_return (now : Z) (rate : pyfloat)
    (cache : gmap string (option DataFrame)) (shown : list Row)
    (ret_dict : gmap string (option pyfloat)) (months : Z)
    (closes : Row → option Series) :
  let target := target_dt now months in
  let us := omap (start_contribution rate closes ret_dict target) shown in
  (∀ r, r ∈ shown →
        (_get_close_series (dict_get cache (TickerYF r)) ≫= as_series)
        = Ok (closes r)) →
  (∀ r s, r ∈ shown → closes r = Some s → StronglySorted Z.le (s_index s)) →
  (∀ r, r ∈ shown → TickerYF r ≠ "") →
  agg_with_start_weights now rate cache shown ret_dict months
  = Ok (weighted_mean us)
  ∧ (weighted_mean us = None ↔ us = [] ∨ fle (py_sum us.*1) fzero = true)
  ∧ (isna rate = false →
     Forall (λ r, isna (Quantity r) = false) shown →
     Forall (λ u, isna u.2 = false) us → us ≠ [] →
     let w := Qsum (fin_values us.*1) in
     let wr :=
       Qsum (fin_values ((λ u : pyfloat * pyfloat, fmul u.1 u.2) <$> us)) in
     (0 < w)%Qc
     ∧ agg_with_start_weights now rate cache shown ret_dict months
       = Ok (Some (Fin (wr / w)%Qc)))
  ∧ (∀ x : Qc,
       isna rate = false →
       Forall (λ r, isna (Quantity r) = false) shown →
       us ≠ [] → Forall (λ u, u.2 = Fin x) us →
       agg_with_start_weights now rate cache shown ret_dict months
       = Ok (Some (Fin x))).
Proof.
  intros target us Hex Hsorted Hsym.
  destruct (contributions_start rate cache ret_dict target closes shown
              Hex Hsorted Hsym) as [Hret Hus].
  fold us in Hus.
  assert (agg_with_start_weights now rate cache shown ret_dict months
          = Ok (weighted_mean us)) as Hagg.
  { unfold agg_with_start_weights. fold target.
    rewrite (agg_loop_spec _ _ _ _ _ _ _ Hret).
    cbn [mbind result_bind app]. rewrite Hus. apply weighted_mean_quotient. }
  assert (∀ mv ret, (mv, ret) ∈ us →
            isna rate = false →
            Forall (λ r, isna (Quantity r) = false) shown →
            ∃ m, mv = Fin m ∧ (0 < m)%Qc) as Hpos.
  { intros mv ret Hu Hrate Hqty.
    apply list_elem_of_omap in Hu as (r & Hr & Hc).
    eapply Forall_forall in Hqty; [|exact Hr].
    exact (start_contribution_weight_pos _ _ _ _ _ _ _ Hrate Hqty Hc). }
  split; [done|]. split; [|split].
  - unfold weighted_mean.
    destruct (bool_decide (us = [])) eqn:Hnil; cbn [orb].
    + apply bool_decide_eq_true_1 in Hnil. split; [by left|done].
    + apply bool_decide_eq_false_1 in Hnil.
      destruct (fle (py_sum us.*1) fzero); split; try done.
      * by right.
      * by intros [?|?].
  - intros Hrate Hqty Hnum Hne w wr. rewrite Hagg.
    destruct (weighted_average us Hne) as (Hw & Hsw & Hsp).
    { apply Forall_forall. intros [mv ret] Hu.
      eapply Forall_forall in Hnum as Hx; [|exact Hu]. simpl in Hx.
      destruct (Hpos mv ret Hu Hrate Hqty) as (m & -> & Hm).
      destruct ret as [|x]; [done|]. by exists m, x. }
    split; [done|]. fold w in Hw, Hsw. fold wr in Hsp.
    unfold weighted_mean. rewrite Hsw, Hsp.
    rewrite (bool_decide_eq_false_2 _ Hne).
    unfold fle, fzero. rewrite Qz_0.
    by rewrite (bool_decide_eq_false_2 (w ≤ 0)%Qc) by by apply Qclt_nge.
  - intros x Hrate Hqty Hne Hsame. rewrite Hagg.
    destruct (same_return_average us x Hne) as (S & HS & Hw & Hp).
    { apply Forall_forall. intros [mv ret] Hu.
      eapply Forall_forall in Hsame as Hx; [|exact Hu]. simpl in Hx. subst ret.
      destruct (Hpos mv (Fin x) Hu Hrate Hqty) as (m & -> & Hm).
      by exists m. }
    unfold weighted_mean. rewrite Hw, Hp.
    rewrite (bool_decide_eq_false_2 _ Hne).
    unfold fle, fzero. rewrite Qz_0.
    rewrite (bool_decide_eq_false_2 (S ≤ 0)%Qc) by by apply Qclt_nge.
    cbn [orb]. do 3 f_equal.
    field. intros ->. by apply Qclt_not_eq in HS.
Qed.

(** ** A worked run *)

(** A 30-day series: the 6-month window is absent by the theorem, and the
    three windows of one holding come out present, absent and absent. *)
Lemma window_return_absent_witness :
  _window_return_from_series (day 1000) (Some s_short) 6 120 = Ok None
  ∧ compute_individual_perf_from_hist (day 1000) (Some frame_short)
    = Ok ("10.0%", "", "", Some (qn 1 10), None, None).
Proof.
  split.
  - apply (proj1 (window_return_absent (day 1000)) s_short 6 120).
    right. left. exists (day 969), (qn 100 1), (day 999), (qn 121 1).
    split; [reflexivity|]. split; [reflexivity|]. by vm_compute.
  - eval_qc.
Defined.

(** A domestic holding starting at 10 x 110 = 1100 and a foreign one
    starting at 5 x 40 x 2 = 400, at the rate 2: with returns of 10% and
    20% the portfolio return is 190/1500, and with 10% for both it is
    10%. *)
Lemma weighted_portfolio_return_witness :
  omap (start_contribution (qn 2 1) demo_closes demo_rets_mixed
          (target_dt (day 1000) 1)) demo_shown
  = [(qn 1100 1, qn 1 10); (qn 400 1, qn 1 5)]
  ∧ agg_with_start_weights (day 1000) (qn 2 1) demo_cache demo_shown
      demo_rets_mixed 1
    = Ok (Some (qn 19 150))
  ∧ agg_with_start_weights (day 1000) (qn 2 1) demo_cache demo_shown
      demo_rets 1
    = Ok (Some (qn 1 10)).
Proof.
  assert (∀ r, r ∈ demo_shown →
            (_get_close_series (dict_get demo_cache (TickerYF r))
               ≫= as_series) = Ok (demo_closes r)) as Hex.
  { intros r Hr.
    repeat (apply elem_of_cons in Hr as [->|Hr]; [eval_qc|]).
    by apply elem_of_nil in Hr. }
  assert (∀ r s, r ∈ demo_shown → demo_closes r = Some s →
                 StronglySorted Z.le (s_index s)) as Hsorted.
  { intros r s Hr.
    repeat (apply elem_of_cons in Hr as [->|Hr];
            [intros Hc; vm_compute in Hc; injection Hc as <-;
             repeat constructor; by vm_compute|]).
    by apply elem_of_nil in Hr. }
  assert (∀ r, r ∈ demo_shown → TickerYF r ≠ "") as Hsym.
  { intros r Hr.
    repeat (apply elem_of_cons in Hr as [->|Hr]; [done|]).
    by apply elem_of_nil in Hr. }
  split; [eval_qc|]. split.
  - rewrite (proj1 (weighted_portfolio_return (day 1000) (qn 2 1) demo_cache
                      demo_shown demo_rets_mixed 1 demo_closes
                      Hex Hsorted Hsym)).
    eval_qc.
  - refine (proj2 (proj2 (proj2 (weighted_portfolio_return (day 1000) (qn 2 1)
                                   demo_cache demo_shown demo_rets 1
                                   demo_closes Hex Hsorted Hsym)))
              (Q2Qc (1 # 10)) _ _ _ _).
    + reflexivity.
    + by repeat constructor.
    + by vm_compute.
    + vm_compute. by repeat constructor.
Defined.

(** With a single contributing holding, so that every contributing
    holding has the return [0.1], the binary64 quotient
    [(3.0 * 0.1) / 3.0] is [0.10000000000000002], not [0.1]. *)
Lemma identical_return_rounding_counterexample :
  Binary64.agg_tail Binary64.one_row = Some Binary64.tenth_up
  ∧ PrimFloat.ltb Binary64.tenth Binary64.tenth_up = true.
Proof. split; reflexivity. Qed.

(** A domestic holding bought at 100 and a foreign one bought at 30 USD,
    at the rate 2: cost bases of 1000 and 300 against market values of
    1210 and 440 give 350/1300; a third holding without average cost
    leaves the return as it is. *)
Lemma since_inception_return_witness :
  ∃ rows snap rows' snap',
    main demo_provider (day 1000) true [holding_a; holding_b_cost]
    = Ok (rows, snap)
    ∧ main demo_provider (day 1000) true
        [holding_a; holding_c; holding_b_cost]
      = Ok (rows', snap')
    ∧ cost_basis (get_aud_per_usd demo_provider) <$>
        [holding_a; holding_b_cost] = [qn 1000 1; qn 300 1]
    ∧ port_actual snap = Some (qn 7 26)
    ∧ port_actual snap' = port_actual snap.
Proof.
  assert (∃ x, main demo_provider (day 1000) true [holding_a; holding_b_cost]
               = Ok x) as ([rows snap] & Hrun).
  { eexists. vm_compute. reflexivity. }
  assert (∃ x, main demo_provider (day 1000) true
                 [holding_a; holding_c; holding_b_cost] = Ok x)
    as ([rows' snap'] & Hrun').
  { eexists. vm_compute. reflexivity. }
  exists rows, snap, rows', snap'.
  split; [exact Hrun|]. split; [exact Hrun'|]. split; [eval_qc|]. split.
  - rewrite (proj1 (proj1 since_inception_return demo_provider (day 1000)
                      true [holding_a; holding_b_cost] rows snap Hrun)).
    eval_qc.
  - refine (proj2 (proj2 (proj2 since_inception_return))
              demo_provider (day 1000) true [holding_a] [holding_b_cost]
              holding_c rows snap rows' snap' Hrun Hrun' _ _).
    + reflexivity.
    + clear. intros h' Hh' Hk. revert Hk.
      repeat (apply elem_of_cons in Hh' as [->|Hh']; [done|]).
      by apply elem_of_nil in Hh'.
Defined.

(** A holding without average cost that changes the return: it shares
    the ticker of a domestic holding, is on the other market and is
    priced, so the rows of the ticker take its price, 55 USD at the rate
    2 instead of 121, and the return falls from 21% to 10%. *)
Lemma since_inception_added_holding_counterexample :
  h_AvgCost holding_a_us = NaN
  ∧ ∃ rows snap rows' snap',
      main demo_provider_two_markets (day 1000) true [holding_a]
      = Ok (rows, snap)
      ∧ main demo_provider_two_markets (day 1000) true
          [holding_a; holding_a_us]
        = Ok (rows', snap')
      ∧ port_actual snap = Some (qn 21 100)
      ∧ port_actual snap' = Some (qn 1 10).
Proof.
  split; [reflexivity|].
  assert (∃ x, main demo_provider_two_markets (day 1000) true [holding_a]
               = Ok x ∧ port_actual x.2 = Some (qn 21 100))
    as ([rows snap] & Hrun & Hval).
  { eexists. split; [vm_compute; reflexivity|eval_qc]. }
  assert (∃ x, main demo_provider_two_markets (day 1000) true
                 [holding_a; holding_a_us]
               = Ok x ∧ port_actual x.2 = Some (qn 1 10))
    as ([rows' snap'] & Hrun' & Hval').
  { eexists. split; [vm_compute; reflexivity|eval_qc]. }
  exists rows, snap, rows', snap'.
  split; [exact Hrun|]. split; [exact Hrun'|]. split; [exact Hval|exact Hval'].
Qed.

(** A symbol priced by its cached last price, one unknown to every tier,
    one priced by tier 3 and one priced by tier 4 from its current
    price. *)
Lemma price_resolver_tiers_witness :
  get_price_native demo_provider "AAA.AX"
  = (Some (qn 121 1), [CallFastInfo "AAA.AX"])
  ∧ get_price_native demo_provider "ZZZ"
    = (None, [CallFastInfo "ZZZ"; CallHistory "ZZZ" "1d" "1m";
              CallHistory "ZZZ" "5d" "1d"; CallInfo "ZZZ"])
  ∧ get_price_native demo_provider "BBB"
    = (Some (qn 44 1),
       [CallFastInfo "BBB"; CallHistory "BBB" "1d" "1m";
        CallHistory "BBB" "5d" "1d"])
  ∧ get_price_native demo_provider "CCC.AX"
    = (Some (qn 7 1), tier_calls "CCC.AX").
Proof.
  split; [|split; [|split]].
  - rewrite (proj1 (price_resolver_tiers demo_provider "AAA.AX")).
    reflexivity.
  - rewrite (proj1 (price_resolver_tiers demo_provider "ZZZ")).
    reflexivity.
  - rewrite (proj1 (price_resolver_tiers demo_provider "BBB")).
    reflexivity.
  - rewrite (proj1 (price_resolver_tiers demo_provider "CCC.AX")).
    reflexivity.
Defined.

(** A cached last price of NaN ends the search: the resolver returns
    NaN after one call, although the intraday history, which it never
    asks for, closes at 44. *)
Lemma nan_quote_ends_search_counterexample :
  fast_info_last_price demo_provider_nan_quote "XYZ" = Ok (Some NaN)
  ∧ latest_close demo_provider_nan_quote "XYZ" "1d" "1m" = Some (qn 44 1)
  ∧ get_price_native demo_provider_nan_quote "XYZ"
    = (Some NaN, [CallFastInfo "XYZ"]).
Proof. split; [reflexivity|]. split; reflexivity. Qed.

(** Both layouts: the [Close] field wins over [Adj Close] and the row
    without a close is dropped. *)
Lemma close_series_extraction_witness :
  _get_close_series (Some frame_nested)
  = Ok (Some (PSeries [(day 600, qn 40 1); (day 975, qn 40 1);
                       (day 999, qn 44 1)]))
  ∧ _get_close_series (Some frame_flat)
    = Ok (Some (PSeries [(day 600, qn 100 1); (day 975, qn 110 1);
                         (day 999, qn 121 1)])).
Proof.
  split.
  - destruct (close_series_extraction frame_nested) as (r & -> & _ & _ & _ & _ & Hpref & _).
    { repeat constructor; by eexists. }
    f_equal.
    by rewrite (Hpref _ ("BBB", [qn 40 1; NaN; qn 40 1; qn 44 1]) []
                  eq_refl eq_refl eq_refl ltac:(by vm_compute)).
  - destruct (close_series_extraction frame_flat) as (r & -> & _ & _ & Hpref & _).
    { exact I. }
    f_equal.
    by rewrite (Hpref _ [qn 100 1; qn 110 1; qn 121 1] eq_refl eq_refl eq_refl).
Defined.


(** A last close of zero gives 1.5; a last close of 0.5 gives 2. *)
Lemma fx_rate_never_divides_by_zero_witness :
  get_aud_per_usd demo_provider_zero_fx = default_rate
  ∧ get_aud_per_usd demo_provider = qn 2 1.
Proof.
  split.
  - eapply (proj1 (proj2 (proj2
                (fx_rate_never_divides_by_zero demo_provider_zero_fx))));
      reflexivity.
  - etrans.
    + eapply (proj1 (proj2 (proj2 (proj2 (proj2 (proj2
                (fx_rate_never_divides_by_zero demo_provider)))))) frame_fx
                (Q2Qc (1 # 2))); [reflexivity|reflexivity|by intros [=]].
    + eval_qc.
Defined.

(** * Further properties *)

(** Order facts on canonical rationals, settled on plain rationals. *)
Ltac qc_lra :=
  unfold Qclt, Qcle in *;
  cbn [this Qcmult Qcplus Qcopp Qcminus Q2Qc Qz Qc_of_Z] in *;
  rewrite ?Qred_correct in *; unfold inject_Z in *; lra.

(** ** Ticker symbols *)

Lemma is_space_upper_char c : is_space (upper_char c) = is_space c.
Proof.
  destruct c as [[] [] [] [] [] [] [] []]; vm_compute; reflexivity.
Qed.

Lemma upper_char_idem c : upper_char (upper_char c) = upper_char c.
Proof.
  destruct c as [[] [] [] [] [] [] [] []]; vm_compute; reflexivity.
Qed.

Lemma upper_char_dot c : upper_char c = "."%char ↔ c = "."%char.
Proof.
  destruct c as [[] [] [] [] [] [] [] []]; vm_compute; split; congruence.
Qed.

Lemma upper_idem s : upper (upper s) = upper s.
Proof. induction s as [|c s IH]; cbn; [done|]. by rewrite upper_char_idem, IH. Qed.

Lemma append_cons c s t : String c s +:+ t = String c (s +:+ t).
Proof. reflexivity. Qed.

Lemma upper_app s t : upper (s +:+ t) = upper s +:+ upper t.
Proof.
  induction s as [|c s IH]; [done|].
  rewrite append_cons. cbn [upper]. by rewrite IH, append_cons.
Qed.

Lemma contains_dot_upper s : contains_dot (upper s) = contains_dot s.
Proof.
  induction s as [|c s IH]; cbn; [done|]. rewrite IH. f_equal.
  apply bool_decide_ext, upper_char_dot.
Qed.

Lemma contains_dot_app s t :
  contains_dot (s +:+ t) = contains_dot s || contains_dot t.
Proof.
  induction s as [|c s IH]; [done|].
  rewrite append_cons. cbn [contains_dot]. by rewrite IH, orb_assoc.
Qed.

Lemma lstrip_upper s : lstrip (upper s) = upper (lstrip s).
Proof.
  induction s as [|c s IH]; cbn; [done|].
  rewrite is_space_upper_char. by destruct (is_space c).
Qed.

Lemma rstrip_upper s : rstrip (upper s) = upper (rstrip s).
Proof.
  induction s as [|c s IH]; cbn; [done|].
  rewrite IH, is_space_upper_char.
  destruct (rstrip s); cbn; [by destruct (is_space c)|done].
Qed.

Lemma strip_upper s : strip (upper s) = upper (strip s).
Proof. unfold strip. by rewrite lstrip_upper, rstrip_upper. Qed.

(** A text is trimmed when it neither starts nor ends with white space. *)
Lemma rstrip_cons c s :
  rstrip (String c s)
  = match rstrip s with
    | EmptyString => if is_space c then EmptyString else String c EmptyString
    | r => String c r
    end.
Proof. reflexivity. Qed.

Lemma rstrip_idem s : rstrip (rstrip s) = rstrip s.
Proof.
  induction s as [|c s IH]; [done|].
  rewrite rstrip_cons. destruct (rstrip s) as [|c' r] eqn:E.
  - destruct (is_space c) eqn:Ec; [done|]. rewrite rstrip_cons. cbn [rstrip].
    by rewrite Ec.
  - rewrite rstrip_cons, IH. done.
Qed.

Lemma rstrip_head c s :
  is_space c = false → ∃ r, rstrip (String c s) = String c r.
Proof.
  intros Hc. rewrite rstrip_cons. destruct (rstrip s); rewrite ?Hc; eauto.
Qed.

Lemma lstrip_head s :
  lstrip s = EmptyString ∨ ∃ c r, lstrip s = String c r ∧ is_space c = false.
Proof.
  induction s as [|c s IH]; [by left|]. cbn [lstrip].
  destruct (is_space c) eqn:Ec; [done|]. right; eauto.
Qed.

Lemma strip_idem s : strip (strip s) = strip s.
Proof.
  unfold strip. destruct (lstrip_head s) as [->|(c & r & -> & Hc)]; [done|].
  destruct (rstrip_head c r Hc) as [r' Hr]. rewrite Hr.
  cbn [lstrip]. rewrite Hc, <- Hr. apply rstrip_idem.
Qed.

(** Appending a text that does not end in white space. *)
Lemma rstrip_app s t :
  rstrip t ≠ EmptyString → rstrip (s +:+ t) = s +:+ rstrip t.
Proof.
  intros Ht. induction s as [|c s IH]; [done|].
  rewrite append_cons, rstrip_cons, IH.
  destruct (s +:+ rstrip t) eqn:E; [|by rewrite append_cons, E].
  destruct s; [|done]. by destruct Ht.
Qed.

Lemma strip_suffix u :
  strip (strip u +:+ ".AX") = strip u +:+ ".AX".
Proof.
  unfold strip at 2 3.
  destruct (lstrip_head u) as [->|(c & r & -> & Hc)]; [done|].
  destruct (rstrip_head c r Hc) as [r' ->].
  unfold strip. rewrite append_cons. cbn [lstrip]. rewrite Hc.
  rewrite <- append_cons. by rewrite rstrip_app.
Qed.

Lemma norm_ticker_cases t market :
  let T := upper (strip t) in
  let m := upper (strip (if bool_decide (market = "") then "ASX" else market)) in
  norm_ticker t market
  = if contains_dot T || negb (bool_decide (m = "ASX")) then T
    else T +:+ ".AX".
Proof.
  unfold norm_ticker. cbv zeta.
  destruct (contains_dot _); [done|]. by destruct (bool_decide (_ = "ASX")).
Qed.

Lemma clean_idem t : upper (strip (upper (strip t))) = upper (strip t).
Proof. by rewrite strip_upper, strip_idem, upper_idem. Qed.

Lemma clean_suffix t :
  upper (strip (upper (strip t) +:+ ".AX")) = upper (strip t) +:+ ".AX".
Proof.
  rewrite <- (strip_upper t), strip_suffix, upper_app, strip_upper.
  by rewrite upper_idem.
Qed.

(** X1. On ASCII text, [norm_ticker] is idempotent for a given market:
    applied to its own result it changes nothing. A ticker that already
    holds a dot is only trimmed and upper-cased, whatever the market; on the
    ASX market, also by default for an empty market, the result always holds
    a dot; and the result is the cleaned ticker or the cleaned ticker
    followed by [.AX]. *)
Theorem norm_ticker_idempotent (t market : string) :
  ascii_text t = true → ascii_text market = true →
  norm_ticker (norm_ticker t market) market = norm_ticker t market
  ∧ (contains_dot (upper (strip t)) = true →
     norm_ticker t market = upper (strip t))
  ∧ (upper (strip market) = "ASX" ∨ market = "" →
     contains_dot (norm_ticker t market) = true)
  ∧ (norm_ticker t market = upper (strip t)
     ∨ norm_ticker t market = upper (strip t) +:+ ".AX").
Proof.
  intros _ _. split; [|split; [|split]].
  - rewrite (norm_ticker_cases t market). cbv zeta.
    destruct (contains_dot (upper (strip t))) eqn:Hd; cbn [orb].
    + unfold norm_ticker. by rewrite clean_idem, Hd.
    + destruct (bool_decide (_ = "ASX")) eqn:Hm; cbn [negb].
      * unfold norm_ticker. rewrite clean_suffix, contains_dot_app.
        by rewrite orb_true_r.
      * unfold norm_ticker. by rewrite clean_idem, Hd, Hm.
  - intros Hd. unfold norm_ticker. by rewrite Hd.
  - intros Hm. rewrite norm_ticker_cases. cbv zeta.
    destruct (contains_dot (upper (strip t))) eqn:Hd; [done|]. cbn [orb].
    assert (upper (strip (if bool_decide (market = "") then "ASX" else market))
            = "ASX") as ->.
    { destruct Hm as [Hm| ->]; [|done].
      case_bool_decide as Hn; [by subst|done]. }
    rewrite (bool_decide_eq_true_2 _ eq_refl). cbn [negb].
    by rewrite contains_dot_app, orb_true_r.
  - rewrite norm_ticker_cases. cbv zeta.
    destruct (_ || _); auto.
Qed.

(** A dotted ticker on the US market, and a bare one on the ASX market. *)
Lemma norm_ticker_idempotent_witness :
  norm_ticker "rio.ax" "US" = "RIO.AX"
  ∧ contains_dot (norm_ticker " bhp " "asx") = true.
Proof.
  split.
  - apply (proj1 (proj2 (norm_ticker_idempotent "rio.ax" "US" eq_refl eq_refl))). reflexivity.
  - apply (proj1 (proj2 (proj2 (norm_ticker_idempotent " bhp " "asx" eq_refl eq_refl)))).
    left. reflexivity.
Defined.

(** X2. On ASCII text, [norm_ticker] ignores the case and the surrounding
    white space of the ticker and, when the market is not blank, of the
    market. An empty market counts as ASX, but a market made of white space
    only does not: the ticker then gets no suffix. *)
Theorem norm_ticker_clean_inputs (t market : string) :
  ascii_text t = true → ascii_text market = true →
  norm_ticker t market = norm_ticker (upper (strip t)) market
  ∧ (strip market ≠ "" →
     norm_ticker t market = norm_ticker t (upper (strip market)))
  ∧ norm_ticker t "" = norm_ticker t "ASX"
  ∧ (market ≠ "" → strip market = "" →
     norm_ticker t market = upper (strip t)).
Proof.
  intros _ _. split; [|split; [|split]].
  - unfold norm_ticker. by rewrite clean_idem.
  - intros Hm. unfold norm_ticker.
    assert (market ≠ "") as Hn by (by intros ->).
    assert (upper (strip market) ≠ "") as Hu.
    { destruct (strip market) eqn:E; [congruence|cbn [upper]; discriminate]. }
    rewrite (bool_decide_eq_false_2 _ Hn), (bool_decide_eq_false_2 _ Hu).
    by rewrite strip_upper, strip_idem, upper_idem.
  - done.
  - intros Hn Hs. unfold norm_ticker.
    rewrite (bool_decide_eq_false_2 _ Hn), Hs.
    destruct (contains_dot _); [done|]. done.
Qed.

(** A padded market, and a market of two spaces. *)
Lemma norm_ticker_clean_inputs_witness :
  norm_ticker "bhp" " asx " = norm_ticker "bhp" "ASX"
  ∧ norm_ticker "bhp" "  " = "BHP".
Proof.
  split.
  - apply (proj1 (proj2 (norm_ticker_clean_inputs "bhp" " asx " eq_refl eq_refl))).
    by vm_compute.
  - apply (proj2 (proj2 (proj2 (norm_ticker_clean_inputs "bhp" "  " eq_refl eq_refl))));
      [by vm_compute|reflexivity].
Defined.

(** ** Company names *)

(** X3. [get_company_name] never raises and falls back in order: the long
    name if it is truthy, else the short name if it is truthy, else the
    symbol; the symbol also when the provider raises or has no payload. The
    result is the symbol or a truthy value, so it is never blank for a
    symbol that is not empty. *)
Theorem company_name_fallback
    (info : string → result (option (gmap string pyval))) (sym : string) :
  let name := get_company_name info sym in
  (name = PyStr sym ∨ py_truthy name = true)
  ∧ (sym ≠ "" → py_truthy name = true)
  ∧ (∀ e, info sym = Raise e → name = PyStr sym)
  ∧ (info sym = Ok None → name = PyStr sym)
  ∧ (∀ d, info sym = Ok (Some d) →
       name = if py_truthy (py_get d "longName") then py_get d "longName"
              else if py_truthy (py_get d "shortName")
                   then py_get d "shortName"
                   else PyStr sym).
Proof.
  cbv zeta. unfold get_company_name.
  assert (∀ d, let n := py_or (py_or (py_get d "longName")
                                     (py_get d "shortName")) (PyStr sym) in
               (n = PyStr sym ∨ py_truthy n = true)) as Hd.
  { intros d. cbv zeta. unfold py_or.
    destruct (py_truthy (py_get d "longName")) eqn:E1; cbv iota;
      rewrite ?E1; auto.
    destruct (py_truthy (py_get d "shortName")) eqn:E2; cbv iota;
      rewrite ?E2; auto. }
  assert (∀ n, n = PyStr sym ∨ py_truthy n = true →
               sym ≠ "" → py_truthy n = true) as Ht.
  { intros n [->|?] Hs; [|done]. cbn. by rewrite bool_decide_eq_false_2. }
  destruct (info sym) as [i|e] eqn:Hi; cbn [mbind result_bind catch].
  - split; [apply Hd|]. split; [apply Ht, Hd|].
    split; [done|]. split.
    + intros [= ->]. cbn [default]. unfold py_or, py_get.
      by rewrite !lookup_empty.
    + intros d [= ->]. change (default ∅ (Some d)) with d. unfold py_or.
      destruct (py_truthy (py_get d "longName")) eqn:E1; cbv iota;
        rewrite ?E1; [done|].
      by destruct (py_truthy (py_get d "shortName")) eqn:E2; cbv iota;
        rewrite ?E2.
  - split; [by left|]. split; [apply Ht; by left|]. done.
Qed.

(** An empty long name gives the short name; no payload and a failing
    provider give the symbol. *)
Lemma company_name_fallback_witness :
  get_company_name demo_names "AAA.AX" = PyStr "Alpha"
  ∧ get_company_name demo_names "BBB" = PyStr "BBB"
  ∧ get_company_name demo_names "ZZZ" = PyStr "ZZZ"
  ∧ py_truthy (get_company_name demo_names "ZZZ") = true.
Proof.
  split; [|split; [|split]].
  - etrans.
    + apply (proj2 (proj2 (proj2 (proj2
               (company_name_fallback demo_names "AAA.AX"))))
               {[ "longName" := PyStr ""; "shortName" := PyStr "Alpha" ]}).
      reflexivity.
    + reflexivity.
  - apply (proj1 (proj2 (proj2 (proj2
             (company_name_fallback demo_names "BBB"))))). reflexivity.
  - apply (proj1 (proj2 (proj2 (company_name_fallback demo_names "ZZZ")))
             ProviderError). reflexivity.
  - apply (proj1 (proj2 (company_name_fallback demo_names "ZZZ"))).
    by vm_compute.
Defined.

(** ** The window return on any series *)

Lemma row_before_antisymm : AntiSymm eq row_before.
Proof. intros a b. unfold row_before. lia. Qed.

Lemma sorted_strict (s : Series) :
  StronglySorted Z.le (s_index s) → NoDup (s_index s) →
  StronglySorted row_before s.
Proof.
  unfold s_index. induction s as [|a s IH]; [constructor|].
  rewrite fmap_cons. intros Hs Hn.
  apply StronglySorted_inv in Hs as [Hs Hall].
  apply NoDup_cons in Hn as [Hnin Hn].
  constructor; [by apply IH|].
  apply Forall_forall. intros b Hb. unfold row_before.
  assert (b.1 ∈ s.*1) as Hb1 by (by apply list_elem_of_fmap_2).
  rewrite Forall_forall in Hall. specialize (Hall _ Hb1).
  assert (a.1 ≠ b.1) by (intros E; by rewrite E in Hnin). lia.
Qed.

Lemma sort_index_unique (s s' : Series) :
  s ≡ₚ s' → NoDup (s_index s) → sort_index s = sort_index s'.
Proof.
  intros Hp Hn.
  assert (s_index (sort_index s) ≡ₚ s_index s) as H1
    by (unfold s_index; by rewrite sort_index_perm).
  assert (s_index (sort_index s') ≡ₚ s_index s) as H2
    by (unfold s_index; by rewrite sort_index_perm, Hp).
  apply (@StronglySorted_unique _ row_before row_before_antisymm).
  - apply sorted_strict; [apply sort_index_sorted|by rewrite H1].
  - apply sorted_strict; [apply sort_index_sorted|by rewrite H2].
  - by rewrite !sort_index_perm.
Qed.

Lemma window_return_sorted now (s : Series) months min :
  _window_return_from_series now (Some s) months min
  = _window_return_from_series now (Some (sort_index s)) months min.
Proof.
  unfold _window_return_from_series.
  destruct (decide (s = [])) as [->|Hne]; [done|].
  assert (sort_index s ≠ []) as Hne' by (by rewrite sort_index_nil).
  rewrite (bool_decide_eq_false_2 _ Hne), (bool_decide_eq_false_2 _ Hne').
  cbv zeta. by rewrite (sort_index_id (sort_index s)) by apply sort_index_sorted.
Qed.

(** X5. The window return does not depend on the order of the rows of the
    series, as long as no date occurs twice: the series is sorted by date
    before anything is read. *)
Theorem window_return_order_invariant (now : Z) (s s' : Series)
    (months min : Z) :
  s ≡ₚ s' → NoDup (s_index s) →
  _window_return_from_series now (Some s) months min
  = _window_return_from_series now (Some s') months min.
Proof.
  intros Hp Hn.
  rewrite (window_return_sorted now s), (window_return_sorted now s').
  by rewrite (sort_index_unique s s').
Qed.

(** The rows of [s_interior], the last one first. *)
Lemma window_return_order_invariant_witness :
  _window_return_from_series (day 1000)
    (Some [(day 999, Fin (Qz 121)); (day 600, Fin (Qz 100));
           (day 975, Fin (Qz 110))]) 1 20
  = _window_return_from_series (day 1000) (Some s_interior) 1 20.
Proof.
  apply window_return_order_invariant.
  - unfold s_interior. etrans; [apply Permutation_cons_append|]. reflexivity.
  - refine (bool_decide_unpack (NoDup _) _). by vm_compute.
Defined.

Lemma window_days_mono (m m' : Z) : m ≤ m' → window_days m ≤ window_days m'.
Proof. intros H. unfold window_days. apply Z.quot_le_mono; lia. Qed.

Lemma ref_index_mono (s : Series) (t t' : Z) :
  StronglySorted Z.le (s_index s) → t' ≤ t →
  (ref_index s t' ≤ ref_index s t)%nat.
Proof.
  intros Hs Ht. unfold ref_index.
  destruct (searchsorted_spec (s_index s) t Hs) as (Hb & Hlt & Hge).
  destruct (searchsorted_spec (s_index s) t' Hs) as (Hb' & Hlt' & Hge').
  assert (length (s_index s) = length s) as Hlen
    by (unfold s_index; by rewrite length_fmap).
  assert (searchsorted (s_index s) t' ≤ searchsorted (s_index s) t)%nat as Hm.
  { destruct (decide (searchsorted (s_index s) t'
                      ≤ searchsorted (s_index s) t)%nat) as [|Hn]; [done|].
    exfalso.
    apply Nat.nle_gt in Hn.
    assert (searchsorted (s_index s) t < length (s_index s))%nat as Hi
      by (eapply Nat.lt_le_trans; [exact Hn|exact Hb']).
    destruct (lookup_lt_is_Some_2 _ _ Hi) as [x Hx].
    pose proof (Hge _ _ (Nat.le_refl _) Hx).
    pose proof (Hlt' _ _ Hn Hx). lia. }
  repeat case_bool_decide; lia.
Qed.

(** X6. A longer window never starts later: for [m <= m'] the target date of
    [m'] months is at or before the one of [m] months, the reference index
    of the sorted series is at or before the other, and so is the reference
    date. *)
Theorem longer_window_starts_earlier (now : Z) (s : Series) (m m' : Z) :
  m ≤ m' →
  let ss := sort_index s in
  target_dt now m' ≤ target_dt now m
  ∧ (ref_index ss (target_dt now m') ≤ ref_index ss (target_dt now m))%nat
  ∧ ∀ t t' v v',
      ss !! ref_index ss (target_dt now m) = Some (t, v) →
      ss !! ref_index ss (target_dt now m') = Some (t', v') →
      t' ≤ t.
Proof.
  intros Hm ss.
  assert (target_dt now m' ≤ target_dt now m) as Ht.
  { unfold target_dt, timedelta_days, us_per_day.
    pose proof (window_days_mono m m' Hm). lia. }
  pose proof (ref_index_mono ss _ _ (sort_index_sorted s) Ht) as Hi.
  split; [done|]. split; [done|].
  intros t t' v v' H H'.
  apply (sorted_lookup_le (s_index ss) _ _ t' t (sort_index_sorted s) Hi).
  - unfold s_index. by rewrite list_lookup_fmap, H'.
  - unfold s_index. by rewrite list_lookup_fmap, H.
Qed.

(** The 12-month and the 1-month windows of [s_interior]. *)
Lemma longer_window_starts_earlier_witness :
  (ref_index (sort_index s_interior) (target_dt (day 1000) 12)
   ≤ ref_index (sort_index s_interior) (target_dt (day 1000) 1))%nat.
Proof.
  apply (proj1 (proj2 (longer_window_starts_earlier (day 1000) s_interior
                         1 12 ltac:(lia)))).
Defined.

Lemma insert_row_scale k r s :
  insert_row (prod_map id (λ v, fmul k v) r) (scale_series k s)
  = scale_series k (insert_row r s).
Proof.
  unfold scale_series. induction s as [|r' s IH]; [done|].
  cbn [insert_row fmap list_fmap]. destruct r as [t v], r' as [t' v']. cbn.
  case_bool_decide; [done|]. cbn [fmap list_fmap] in *.
  f_equal. apply IH.
Qed.

Lemma sort_index_scale k s :
  sort_index (scale_series k s) = scale_series k (sort_index s).
Proof.
  induction s as [|r s IH]; [done|].
  unfold scale_series in *. cbn [fmap list_fmap sort_index foldr].
  fold (sort_index (prod_map id (λ v, fmul k v) <$> s)).
  fold (sort_index s). rewrite IH. apply insert_row_scale.
Qed.

Lemma s_index_scale k s : s_index (scale_series k s) = s_index s.
Proof.
  unfold s_index, scale_series. induction s as [|[t v] s IH]; [done|].
  cbn [fmap list_fmap] in *. by rewrite IH.
Qed.

Lemma ref_index_scale k s t : ref_index (scale_series k s) t = ref_index s t.
Proof.
  unfold ref_index. rewrite s_index_scale. unfold scale_series.
  by rewrite length_fmap.
Qed.

Lemma head_scale k s :
  head (scale_series k s) = prod_map id (λ v, fmul k v) <$> head s.
Proof. by destruct s. Qed.

(** X7. In exact arithmetic the window return does not depend on the unit of
    the prices: multiplying every close by the same number other than zero,
    as a conversion at a fixed rate does, leaves it unchanged. *)
Theorem window_return_scale_invariant (now : Z) (s : Series) (k : Qc)
    (months min : Z) :
  k ≠ Qz 0 →
  _window_return_from_series now (Some (scale_series (Fin k) s)) months min
  = _window_return_from_series now (Some s) months min.
Proof.
  intros Hk.
  destruct (decide (s = [])) as [->|Hne]; [done|].
  assert (scale_series (Fin k) s ≠ []) as Hne'.
  { unfold scale_series. by destruct s. }
  destruct (window_return_eval now s months min Hne)
    as (t0 & v0 & t1 & l & ti & r & Hhd & Hla & Hr & ->).
  destruct (window_return_eval now _ months min Hne')
    as (t0' & v0' & t1' & l' & ti' & r' & Hhd' & Hla' & Hr' & ->).
  rewrite sort_index_scale in Hhd', Hla', Hr'.
  rewrite ref_index_scale in Hr'. rewrite head_scale, Hhd in Hhd'.
  unfold scale_series in Hla', Hr'.
  rewrite list_lookup_fmap, Hr in Hr'. cbn in Hr'.
  rewrite fmap_last, Hla in Hla'. cbn in Hla'.
  cbn in Hhd'. simplify_eq.
  destruct l as [|l]; [done|]. cbn [fmul isna].
  destruct (bool_decide (td_days (t1' - t0') < min)); [done|]. cbn [orb].
  destruct r as [|r]; [done|]. cbn [fmul feq isna]. unfold fzero.
  rewrite Qz_0 in *.
  destruct (decide (r = 0%Qc)) as [->|Hr0].
  - rewrite !bool_decide_eq_true_2; [done|done|ring].
  - assert ((k * r)%Qc ≠ 0%Qc) as Hkr.
    { intros E. apply Qcmult_integral in E as [?|?]; done. }
    rewrite !bool_decide_eq_false_2 by done. cbn [orb].
    unfold pydiv, fsub. rewrite Qz_0.
    rewrite !bool_decide_eq_false_2 by done. cbn [mbind result_bind].
    do 3 f_equal. field. split; done.
Qed.

(** The closes of [s_interior] at the rate 1.5. *)
Lemma window_return_scale_invariant_witness :
  _window_return_from_series (day 1000)
    (Some (scale_series (qn 3 2) s_interior)) 1 20
  = _window_return_from_series (day 1000) (Some s_interior) 1 20.
Proof.
  apply (window_return_scale_invariant (day 1000) s_interior (Q2Qc (3 # 2))
           1 20).
  by intros [=].
Defined.

Lemma window_return_present now (s : Series) months min :
  s ≠ [] →
  Forall (λ row : Z * pyfloat, isna row.2 = false ∧ row.2 ≠ fzero) s →
  ∃ t0 v0 t1 v1,
    head (sort_index s) = Some (t0, v0) ∧ last (sort_index s) = Some (t1, v1)
    ∧ (_window_return_from_series now (Some s) months min ≠ Ok None
       ↔ min ≤ td_days (t1 - t0)).
Proof.
  intros Hne Hall.
  destruct (window_return_eval now s months min Hne)
    as (t0 & v0 & t1 & l & ti & r & Hhd & Hla & Hr & ->).
  exists t0, v0, t1, l. split; [done|]. split; [done|].
  assert (∀ row, row ∈ sort_index s → isna row.2 = false ∧ row.2 ≠ fzero)
    as Hall'.
  { intros row Hin. rewrite sort_index_perm in Hin.
    rewrite Forall_forall in Hall. by apply Hall. }
  destruct (Hall' (t1, l)) as [Hl _].
  { by apply last_Some_elem_of. }
  destruct (Hall' (ti, r)) as [Hr1 Hr2].
  { by eapply list_elem_of_lookup_2. }
  cbn [snd] in *. rewrite Hl, Hr1, orb_false_r.
  destruct l as [|l]; [done|]. destruct r as [|r]; [done|].
  assert (r ≠ Qz 0) as Hz by (intros ->; by apply Hr2).
  cbn [feq]. unfold fzero. rewrite (bool_decide_eq_false_2 _ Hz), orb_false_r.
  unfold pydiv, fsub. rewrite (bool_decide_eq_false_2 _ Hz).
  cbn [mbind result_bind].
  case_bool_decide as Hs; split; intros; try done; lia.
Qed.

(** X8. When no extracted close is zero, a holding that has a 12-month
    return has a 6-month return, and one that has a 6-month return has a
    1-month return: the minimum spans 20, 120 and 250 are tested on the same
    series. *)
Theorem longer_window_needs_shorter (now : Z) (hist : option DataFrame)
    (s : Series) p1s p6s p12s r1 r6 r12 :
  (_get_close_series hist ≫= as_series) = Ok (Some s) →
  Forall (λ row : Z * pyfloat, row.2 ≠ fzero) s →
  compute_individual_perf_from_hist now hist
  = Ok (p1s, p6s, p12s, r1, r6, r12) →
  (r12 ≠ None → r6 ≠ None) ∧ (r6 ≠ None → r1 ≠ None).
Proof.
  intros Hs Hnz Hc.
  destruct (_get_close_series hist) as [o|] eqn:Ho; [|done].
  cbn [mbind result_bind] in Hs.
  assert (s ≠ [] ∧ Forall (λ row : Z * pyfloat, isna row.2 = false) s)
    as [Hne Hnn].
  { destruct (get_close_series_never_frame _ _ Ho) as [->|(s' & -> & ? & ?)];
      [done|]. cbn in Hs. by simplify_eq. }
  unfold compute_individual_perf_from_hist in Hc.
  rewrite Ho in Hc. cbn [mbind result_bind] in Hc. rewrite Hs in Hc.
  cbn [mbind result_bind] in Hc.
  assert (Forall (λ row : Z * pyfloat, isna row.2 = false ∧ row.2 ≠ fzero) s)
    as Hall.
  { rewrite Forall_forall in *. intros row Hin. split; auto. }
  destruct (window_return_present now s 1 20 Hne Hall)
    as (t0 & v0 & t1 & v1 & Hhd & Hla & H1).
  destruct (window_return_present now s 6 120 Hne Hall)
    as (t0' & v0' & t1' & v1' & Hhd' & Hla' & H6).
  destruct (window_return_present now s 12 250 Hne Hall)
    as (t0'' & v0'' & t1'' & v1'' & Hhd'' & Hla'' & H12).
  simplify_eq.
  destruct (_window_return_from_series now (Some s) 1 20) as [x1|] eqn:E1;
    [|done].
  destruct (_window_return_from_series now (Some s) 6 120) as [x6|] eqn:E6;
    [|done].
  destruct (_window_return_from_series now (Some s) 12 250) as [x12|] eqn:E12;
    [|done].
  cbn [mbind result_bind] in Hc. simplify_eq.
  split.
  - intros Hp. assert (Ok r12 ≠ Ok None) as Hp' by congruence.
    apply H12 in Hp'. intros ->. apply H6; [lia|done].
  - intros Hp. assert (Ok r6 ≠ Ok None) as Hp' by congruence.
    apply H6 in Hp'. intros ->. apply H1; [lia|done].
Qed.

(** The flat frame spans 399 days: its three returns are present. *)
Lemma longer_window_needs_shorter_witness :
  ∃ r1 r6 r12,
    compute_individual_perf_from_hist (day 1000) (Some frame_flat)
    = Ok ("10.0%", "10.0%", "10.0%", r1, r6, r12)
    ∧ (r12 ≠ None → r6 ≠ None) ∧ (r6 ≠ None → r1 ≠ None).
Proof.
  assert (∃ r1 r6 r12,
            compute_individual_perf_from_hist (day 1000) (Some frame_flat)
            = Ok ("10.0%", "10.0%", "10.0%", r1, r6, r12))
    as (r1 & r6 & r12 & Hc).
  { do 3 eexists. vm_compute. reflexivity. }
  exists r1, r6, r12. split; [exact Hc|].
  apply (longer_window_needs_shorter (day 1000) (Some frame_flat) s_flat
           "10.0%" "10.0%" "10.0%" r1 r6 r12); [reflexivity| |exact Hc].
  repeat constructor; by intros [=].
Defined.

(** ** The returns of one holding *)

Lemma to_str_blank (r : option pyfloat) : to_str r = "" ↔ r = None.
Proof.
  destruct r as [r|]; cbn [to_str]; [|done].
  split; [|done]. intros H. by apply format_pct_not_empty in H.
Qed.

(** X9. On a frame of a supported layout, and on a missing frame,
    [compute_individual_perf_from_hist] returns; each text is the rendering
    of its number, blank exactly when the number is absent; and the three
    returns are absent when there is no frame or the frame is empty. *)
Theorem individual_perf_never_raises (now : Z) (hist : option DataFrame) :
  (∀ h, hist = Some h → supported_layout h) →
  ∃ r1 r6 r12,
    compute_individual_perf_from_hist now hist
    = Ok (to_str r1, to_str r6, to_str r12, r1, r6, r12)
    ∧ (to_str r1 = "" ↔ r1 = None) ∧ (to_str r6 = "" ↔ r6 = None)
    ∧ (to_str r12 = "" ↔ r12 = None)
    ∧ (hist = None ∨ (∃ h, hist = Some h ∧ df_empty h = true) →
       r1 = None ∧ r6 = None ∧ r12 = None).
Proof.
  intros Hsup.
  assert (∃ o, _get_close_series hist = Ok o) as [o Ho].
  { destruct hist as [h|]; [|by eexists].
    by apply get_close_series_total, Hsup. }
  assert (∃ s, as_series o = Ok s) as [s Hs].
  { destruct (get_close_series_never_frame _ _ Ho) as [->|(s & -> & _)];
      by eexists. }
  destruct (window_return_ok now s 1 20) as [r1 H1].
  destruct (window_return_ok now s 6 120) as [r6 H6].
  destruct (window_return_ok now s 12 250) as [r12 H12].
  exists r1, r6, r12. split; [|split; [|split; [|split]]];
    try apply to_str_blank.
  - unfold compute_individual_perf_from_hist.
    rewrite Ho. cbn [mbind result_bind]. rewrite Hs. cbn [mbind result_bind].
    rewrite H1. cbn [mbind result_bind]. rewrite H6. cbn [mbind result_bind].
    rewrite H12. done.
  - intros Hnone.
    assert (o = None) as ->.
    { destruct Hnone as [->|(h & -> & He)]; [by simplify_eq/=|].
      unfold _get_close_series in Ho. rewrite He in Ho. by simplify_eq. }
    cbn in Hs. simplify_eq. cbn in H1, H6, H12. by simplify_eq.
Qed.

(** The frame with one block per field. *)
Lemma individual_perf_never_raises_witness :
  ∃ r1 r6 r12,
    compute_individual_perf_from_hist (day 1000) (Some frame_nested)
    = Ok (to_str r1, to_str r6, to_str r12, r1, r6, r12)
    ∧ (to_str r12 = "" ↔ r12 = None).
Proof.
  destruct (individual_perf_never_raises (day 1000) (Some frame_nested))
    as (r1 & r6 & r12 & Hc & _ & _ & H12 & _).
  - intros h [= <-]. repeat constructor; by eexists.
  - by exists r1, r6, r12.
Defined.

(** ** Quotes of zero and NaN *)

(** X10. A quick quote of zero counts as missing: a price found with a
    single provider call is never zero, and a zero quick quote sends the
    resolver on to the histories. A quick quote of NaN is truthy and is
    returned as the price, with no further call. A last close of zero and an
    info price of zero are returned as the price 0. *)
Theorem zero_and_nan_quotes (p : Provider) (sym : string) :
  (∀ v, get_price_native p sym = (Some v, [CallFastInfo sym]) → v ≠ fzero)
  ∧ (fast_info_last_price p sym = Ok (Some fzero) →
     (2 ≤ length (get_price_native p sym).2)%nat)
  ∧ (fast_info_last_price p sym = Ok (Some NaN) →
     get_price_native p sym = (Some NaN, [CallFastInfo sym]))
  ∧ (∀ h, catch (tier_fast_info p sym) None = None →
          history p sym "1d" "1m" = Ok h →
          last_close h = Ok (Some fzero) →
          get_price_native p sym
          = (Some fzero, [CallFastInfo sym; CallHistory sym "1d" "1m"]))
  ∧ (∀ d, catch (tier_fast_info p sym) None = None →
          catch (tier_history p sym "1d" "1m") None = None →
          catch (tier_history p sym "5d" "1d") None = None →
          info p sym = Ok (Some d) →
          d !! "regularMarketPrice" = Some (IVNum fzero) →
          get_price_native p sym = (Some fzero, tier_calls sym)).
Proof.
  split; [|split; [|split; [|split]]].
  - intros v Hg Hv. subst v. rewrite get_price_native_eval in Hg.
    destruct (catch (tier_fast_info p sym) None) as [v|] eqn:E1.
    + simplify_eq. unfold tier_fast_info, fast_info_body in E1.
      destruct (fast_info_last_price p sym) as [[lp|]|]; cbn in E1; try done.
      destruct (truthy lp) eqn:Et; cbn in E1; [|done].
      injection E1 as ->. by vm_compute in Et.
    + repeat (destruct (catch _ None) in Hg; [by simplify_eq|]).
      by simplify_eq.
  - intros Hfi. rewrite get_price_native_eval.
    unfold tier_fast_info, fast_info_body. rewrite Hfi.
    cbn [mbind result_bind].
    replace (truthy fzero) with false by (by vm_compute).
    cbn [catch].
    repeat (destruct (catch _ None); [cbn; lia|]). cbn; lia.
  - intros Hfi. rewrite get_price_native_eval.
    unfold tier_fast_info, fast_info_body. by rewrite Hfi.
  - intros h E1 Hh Hl. rewrite get_price_native_eval. rewrite E1.
    unfold tier_history. rewrite Hh. cbn [mbind result_bind]. by rewrite Hl.
  - intros d E1 E2 E3 Hi Hd. rewrite get_price_native_eval.
    rewrite E1, E2, E3.
    unfold tier_info, info_body. rewrite Hi. cbn [mbind result_bind default].
    unfold info_keys. cbn [info_loop]. unfold id. by rewrite Hd.
Qed.

(** A symbol quoted at zero whose last minute bar closed at zero, and a
    symbol quoted at NaN. *)
Lemma zero_and_nan_quotes_witness :
  (2 ≤ length (get_price_native demo_provider_odd_quotes "ZED").2)%nat
  ∧ get_price_native demo_provider_odd_quotes "ZED"
    = (Some fzero, [CallFastInfo "ZED"; CallHistory "ZED" "1d" "1m"])
  ∧ get_price_native demo_provider_odd_quotes "NAN"
    = (Some NaN, [CallFastInfo "NAN"]).
Proof.
  split; [|split].
  - apply (proj1 (proj2 (zero_and_nan_quotes demo_provider_odd_quotes "ZED"))).
    reflexivity.
  - apply (proj1 (proj2 (proj2 (proj2
             (zero_and_nan_quotes demo_provider_odd_quotes "ZED"))))
             {| df_index := [day 999];
                df_columns := Flat [("Close", [fzero])] |});
      reflexivity.
  - apply (proj1 (proj2 (proj2
             (zero_and_nan_quotes demo_provider_odd_quotes "NAN")))).
    reflexivity.
Defined.

(** ** The history cache *)

Lemma prefetch_from (p : Provider) (hs : list Holding) :
  ∀ (c : gmap string (option DataFrame)) k,
  foldl (λ cache h,
           let t_yf := norm_ticker (h_Ticker h) (h_Market h) in
           <[t_yf := get_daily_hist_400d p t_yf]> cache) c hs !! k
  = if bool_decide (k ∈ yf_symbol <$> hs)
    then Some (get_daily_hist_400d p k) else c !! k.
Proof.
  induction hs as [|h hs IH]; intros c k; [done|].
  cbn [foldl]. rewrite IH, fmap_cons.
  destruct (decide (k ∈ yf_symbol <$> hs)) as [Hin|Hnin].
  - rewrite !bool_decide_eq_true_2; [done| |done]. by right.
  - rewrite (bool_decide_eq_false_2 _ Hnin). cbv zeta.
    destruct (decide (k = yf_symbol h)) as [->|Hne].
    + rewrite lookup_insert_eq. rewrite bool_decide_eq_true_2; [done|by left].
    + rewrite lookup_insert_ne by done.
      rewrite bool_decide_eq_false_2; [done|].
      intros [?|?]%elem_of_cons; done.
Qed.

Lemma daily_hist_inv (p : Provider) (sym : string) (hist : DataFrame) :
  get_daily_hist_400d p sym = Some hist ↔
  download p sym "400d" "1d" = Ok hist ∧ df_empty hist = false.
Proof.
  unfold get_daily_hist_400d.
  destruct (download p sym "400d" "1d") as [h|e];
    cbn [mbind result_bind catch].
  - destruct (df_empty h) eqn:E; split.
    + done.
    + intros [[= ->] ?]. congruence.
    + by intros [= ->].
    + by intros [[= ->] _].
  - split; [done|]. by intros [? _].
Qed.

(** X11. After the pre-fetch the cache holds, for the symbol of every
    holding, what [get_daily_hist_400d] returns for it, and it holds nothing
    for any other symbol; a cached frame is not empty and is the frame the
    provider returned for that symbol. *)
Theorem hist_cache_entries (p : Provider) (hs : list Holding) :
  (∀ h, h ∈ hs →
     prefetch p hs !! norm_ticker (h_Ticker h) (h_Market h)
     = Some (get_daily_hist_400d p (norm_ticker (h_Ticker h) (h_Market h))))
  ∧ (∀ k v, prefetch p hs !! k = Some v →
       v = get_daily_hist_400d p k
       ∧ ∃ h, h ∈ hs ∧ k = norm_ticker (h_Ticker h) (h_Market h))
  ∧ (∀ k hist, dict_get (prefetch p hs) k = Some hist →
       df_empty hist = false ∧ download p k "400d" "1d" = Ok hist).
Proof.
  assert (∀ k v, prefetch p hs !! k = Some v →
            v = get_daily_hist_400d p k
            ∧ ∃ h, h ∈ hs ∧ k = norm_ticker (h_Ticker h) (h_Market h)) as H2.
  { intros k v. unfold prefetch. rewrite prefetch_from.
    case_bool_decide as Hin; [|by rewrite lookup_empty].
    intros [= <-]. split; [done|].
    apply list_elem_of_fmap in Hin as (h & -> & Hh). eauto. }
  split; [|split; [done|]].
  - intros h Hh. unfold prefetch. rewrite prefetch_from.
    rewrite bool_decide_eq_true_2; [done|].
    by apply (list_elem_of_fmap_2 yf_symbol).
  - intros k hist. unfold dict_get.
    destruct (prefetch p hs !! k) as [v|] eqn:E; [|done]. cbn.
    intros ->. apply H2 in E as [E _]. symmetry in E.
    apply daily_hist_inv in E as [? ?]. done.
Qed.

(** The cache of two holdings. *)
Lemma hist_cache_entries_witness :
  prefetch demo_provider [holding_a; holding_b] !! "AAA.AX"
  = Some (get_daily_hist_400d demo_provider "AAA.AX")
  ∧ download demo_provider "BBB" "400d" "1d" = Ok frame_nested.
Proof.
  split.
  - apply (proj1 (hist_cache_entries demo_provider [holding_a; holding_b])
             holding_a). by left.
  - apply (proj2 (proj2 (hist_cache_entries demo_provider
                           [holding_a; holding_b])) "BBB" frame_nested).
    reflexivity.
Defined.

(** ** The rate is never zero *)

Lemma default_rate_nonzero : default_rate ≠ fzero.
Proof.
  by intros [=].
Qed.

Lemma Qc_inv_nonzero (c : Qc) : c ≠ Qz 0 → (Qz 1 / c)%Qc ≠ Qz 0.
Proof.
  intros Hc Hq. rewrite Qz_0 in Hc, Hq.
  assert (Qz 1 = 1%Qc) as H1 by (apply Qc_is_canon; reflexivity).
  rewrite H1 in Hq.
  assert ((1 / c) * c = 1)%Qc as Hm.
  { unfold Qcdiv. rewrite Qcmult_1_l, Qcmult_comm. by apply Qcmult_inv_r. }
  rewrite Hq, Qcmult_0_l in Hm. discriminate.
Qed.

(** X12. The rate returned by [get_aud_per_usd] is never zero: it is 1.5,
    the inverse of a close other than zero, or NaN; so its truth value is
    always true. *)
Theorem fx_rate_nonzero (p : Provider) :
  get_aud_per_usd p ≠ fzero
  ∧ truthy (get_aud_per_usd p) = true.
Proof.
  assert (get_aud_per_usd p ≠ fzero) as H.
  { unfold get_aud_per_usd, aud_per_usd_body.
    destruct (download p "AUDUSD=X" "5d" "1d") as [fx|e];
      cbn [mbind result_bind catch default]; [|apply default_rate_nonzero].
    destruct (last_close fx) as [[u|]|e];
      cbn [mbind result_bind catch default];
      try apply default_rate_nonzero.
    destruct (truthy u) eqn:Hu;
      cbn [mbind result_bind catch default]; [|apply default_rate_nonzero].
    destruct u as [|c]; [done|].
    unfold truthy, feq, fzero in Hu. apply negb_true_iff in Hu.
    apply bool_decide_eq_false in Hu.
    unfold pydiv, fone. rewrite (bool_decide_eq_false_2 _ Hu).
    cbn [mbind result_bind catch default]. unfold fzero. intros Hq.
    unfold id in Hq. apply (Qc_inv_nonzero c Hu). congruence. }
  split; [done|].
  unfold truthy. destruct (get_aud_per_usd p) as [|q] eqn:E; [done|].
  cbn. apply negb_true_iff, bool_decide_eq_false. intros ->. by apply H.
Qed.

(** ** The order of the extracted series *)

Lemma zip_index_sublist (ix : list Z) (col : Column) :
  s_index (series_of ix col) `sublist_of` ix.
Proof.
  unfold s_index, series_of. revert col.
  induction ix as [|t ix IH]; intros [|v col]; cbn;
    [done|done|apply sublist_nil_l|].
  by apply sublist_skip.
Qed.

Lemma dropna_index_sublist (s : Series) :
  s_index (dropna s) `sublist_of` s_index s.
Proof. unfold s_index, dropna. apply fmap_sublist, sublist_filter. Qed.

Lemma imap_snd {A B : Type} (l : list A) : ∀ f : nat → A → B * A,
  (∀ n x, (f n x).2 = x) → (imap f l).*2 = l.
Proof.
  induction l as [|x l IH]; intros f Hf; [done|].
  cbn. rewrite Hf. f_equal. apply IH. intros n y. apply Hf.
Qed.

Lemma keep_sublist {A : Type} (mask : nat → bool) (l : list A) :
  keep mask l `sublist_of` l.
Proof.
  unfold keep. rewrite <- (imap_snd l pair) at 2 by done.
  apply fmap_sublist, sublist_filter.
Qed.

Lemma sublist_sorted (l1 l2 : list Z) :
  l1 `sublist_of` l2 → StronglySorted Z.le l2 → StronglySorted Z.le l1.
Proof.
  induction 1 as [|x l1 l2 Hsub IH|x l1 l2 Hsub IH]; intros Hs; [done|..].
  - apply StronglySorted_inv in Hs as [Hs Hall]. constructor; [by apply IH|].
    apply Forall_forall. intros y Hy. rewrite Forall_forall in Hall.
    apply Hall. by eapply elem_of_sublist.
  - apply StronglySorted_inv in Hs as [Hs _]. by apply IH.
Qed.

Lemma close_loop_levels_index (hist : DataFrame) (labels : list string) x :
  close_loop_levels hist labels = Ok (Some x) → from_index (df_index hist) x.
Proof.
  induction labels as [|label labels IH]; cbn [close_loop_levels]; [done|].
  destruct (in_level0 label (df_columns hist)); [|done].
  unfold getitem. destruct (df_columns hist) as [cols|fields].
  - destruct (assoc label cols) as [col|];
      cbn [fmap result_fmap mbind result_bind]; [|done].
    destruct (obj_empty _); [done|]. done.
  - destruct (assoc label fields) as [[bcols|col]|];
      cbn [fmap result_fmap mbind result_bind]; [| |done].
    + destruct (obj_empty _); [done|]. cbn [obj_dropna].
      destruct (prod_map id (keep (row_complete bcols)) <$> bcols)
        as [|c cs]; cbn [first_column fmap result_fmap mbind result_bind];
        [done|].
      intros [= <-] s. case_bool_decide; [done|]. intros [= <-].
      etrans; [apply dropna_index_sublist|].
      etrans; [apply zip_index_sublist|]. apply keep_sublist.
    + destruct (obj_empty _); [done|]. done.
Qed.

Lemma close_loop_flat_index (hist : DataFrame) (labels : list string) x :
  close_loop_flat hist labels = Ok (Some x) → from_index (df_index hist) x.
Proof.
  induction labels as [|label labels IH]; cbn [close_loop_flat]; [done|].
  destruct (in_columns label (df_columns hist)); [|done]. clear IH.
  assert (∀ col, from_index (df_index hist)
            (if obj_empty (obj_dropna (PSeries (series_of (df_index hist) col)))
             then None
             else Some (obj_dropna (PSeries (series_of (df_index hist) col)))))
    as Hcol.
  { intros col s. destruct (obj_empty _); [done|]. cbn [obj_dropna].
    intros [= <-].
    etrans; [apply dropna_index_sublist|]. apply zip_index_sublist. }
  unfold getitem. destruct (df_columns hist) as [cols|fields].
  - destruct (assoc label cols) as [col|];
      cbn [fmap result_fmap mbind result_bind]; [|done].
    intros [= <-]. apply Hcol.
  - destruct (assoc label fields) as [[bcols|col]|];
      cbn [fmap result_fmap mbind result_bind]; [| |done].
    + intros [= <-] s.
      by destruct (_ || _).
    + intros [= <-]. apply Hcol.
Qed.

(** X13. The series returned by [_get_close_series] takes its dates from the
    index of the frame, in the order of the frame: its index is a sub-list
    of the frame's index, it is sorted by date when the frame is, and it has
    no more rows than the frame. *)
Theorem extraction_keeps_order (hist : DataFrame) (s : Series) :
  _get_close_series (Some hist) = Ok (Some (PSeries s)) →
  s_index s `sublist_of` df_index hist
  ∧ (StronglySorted Z.le (df_index hist) → StronglySorted Z.le (s_index s))
  ∧ (length s ≤ length (df_index hist))%nat.
Proof.
  intros Hx.
  assert (s_index s `sublist_of` df_index hist) as Hsub.
  { unfold _get_close_series in Hx.
    destruct (df_empty hist); [done|].
    destruct (if has_levels (df_columns hist)
              then close_loop_levels hist close_labels else Ok None)
      as [[x|]|] eqn:E1; cbn [mbind result_bind] in Hx; [| |done].
    - destruct (has_levels (df_columns hist)); [|done].
      simplify_eq. by eapply close_loop_levels_index.
    - destruct (close_loop_flat hist close_labels) as [[x|]|] eqn:E2;
        cbn [mbind result_bind default] in Hx; [|done|done].
      unfold id in Hx. simplify_eq. by eapply close_loop_flat_index. }
  split; [done|]. split.
  - by apply sublist_sorted.
  - apply sublist_length in Hsub. unfold s_index in Hsub.
    by rewrite length_fmap in Hsub.
Qed.

(** The frame with one block per field, whose second row is dropped. *)
Lemma extraction_keeps_order_witness :
  s_index [(day 600, qn 40 1); (day 975, qn 40 1); (day 999, qn 44 1)]
    `sublist_of` df_index frame_nested
  ∧ StronglySorted Z.le
      (s_index [(day 600, qn 40 1); (day 975, qn 40 1); (day 999, qn 44 1)]).
Proof.
  destruct (extraction_keeps_order frame_nested
              [(day 600, qn 40 1); (day 975, qn 40 1); (day 999, qn 44 1)])
    as (Hsub & Hsorted & _); [reflexivity|].
  split; [exact Hsub|]. apply Hsorted.
  repeat constructor; by vm_compute.
Defined.

(** ** The hypothetical return on any rows *)

Lemma agg_eval now rate cache shown ret_dict months :
  let target := target_dt now months in
  let us := contributions rate cache ret_dict target shown in
  rows_return rate cache ret_dict target shown →
  agg_with_start_weights now rate cache shown ret_dict months
  = (if bool_decide (us = []) || fle (py_sum us.*1) fzero then Ok None
     else v ← pydiv (py_sum ((λ u : pyfloat * pyfloat, fmul u.1 u.2) <$> us))
                    (py_sum us.*1) ;
          Ok (Some v)).
Proof.
  intros target us Hret. unfold agg_with_start_weights. fold target.
  rewrite (agg_loop_spec _ _ _ _ _ _ _ Hret).
  cbn [mbind result_bind app]. by fold us.
Qed.

Lemma pydiv_guarded (x y : pyfloat) :
  fle y fzero = false → ∃ v, pydiv x y = Ok v.
Proof.
  intros Hy. unfold pydiv. destruct y as [|b]; [by eexists|].
  case_bool_decide as Hb.
  - subst b. by vm_compute in Hy.
  - destruct x; by eexists.
Qed.

Lemma agg_ok now rate cache shown ret_dict months :
  rows_return rate cache ret_dict (target_dt now months) shown →
  ∃ r, agg_with_start_weights now rate cache shown ret_dict months = Ok r.
Proof.
  intros Hret. rewrite (agg_eval _ _ _ _ _ _ Hret).
  destruct (bool_decide _); cbn [orb]; [by eexists|].
  destruct (fle _ fzero) eqn:Hle; [by eexists|].
  destruct (pydiv_guarded
              (py_sum ((λ u : pyfloat * pyfloat, fmul u.1 u.2)
                         <$> contributions rate cache ret_dict
                               (target_dt now months) shown))
              _ Hle) as [v ->].
  by eexists.
Qed.

Lemma demo_cache_supported k hist :
  dict_get demo_cache k = Some hist → supported_layout hist.
Proof.
  unfold dict_get, demo_cache. intros Hk.
  destruct (decide (k = "AAA.AX")) as [->|Ha].
  { rewrite lookup_insert_eq in Hk. cbn in Hk. simplify_eq. exact I. }
  rewrite lookup_insert_ne in Hk by done.
  destruct (decide (k = "BBB")) as [->|Hb].
  { rewrite lookup_singleton_eq in Hk. cbn in Hk. simplify_eq.
    repeat constructor; by eexists. }
  by rewrite lookup_singleton_ne in Hk.
Qed.

(** X14. When every cached frame has a supported layout,
    [agg_with_start_weights] raises on no input: the division is reached
    only with a total other than zero. It returns no value when no shown row
    has a return for the window. *)
Theorem agg_never_raises (now : Z) (rate : pyfloat)
    (cache : gmap string (option DataFrame)) (shown : list Row)
    (ret_dict : gmap string (option pyfloat)) (months : Z) :
  (∀ k hist, dict_get cache k = Some hist → supported_layout hist) →
  (∃ r, agg_with_start_weights now rate cache shown ret_dict months = Ok r)
  ∧ ((∀ r, r ∈ shown → dict_get ret_dict (Ticker r) = None) →
     agg_with_start_weights now rate cache shown ret_dict months = Ok None).
Proof.
  intros Hsup.
  assert (rows_return rate cache ret_dict (target_dt now months) shown) as Hret.
  { apply supported_rows_return. intros r hist _. apply Hsup. }
  split; [by apply agg_ok|].
  intros Hnone. rewrite (agg_eval _ _ _ _ _ _ Hret).
  assert (contributions rate cache ret_dict (target_dt now months) shown = [])
    as ->; [|done].
  unfold contributions. clear Hret. induction shown as [|r rows IH]; [done|].
  cbn [omap list_omap]. unfold contribution at 1, agg_row.
  rewrite (Hnone r) by left. rewrite IH; [done|].
  intros r' Hr'. apply Hnone. by right.
Qed.

(** The two sample rows, with their returns and with no returns at all. *)
Lemma agg_never_raises_witness :
  (∃ r, agg_with_start_weights (day 1000) (qn 2 1) demo_cache demo_shown
          demo_rets 1 = Ok r)
  ∧ agg_with_start_weights (day 1000) (qn 2 1) demo_cache demo_shown ∅ 1
    = Ok None.
Proof.
  split.
  - apply (proj1 (agg_never_raises (day 1000) (qn 2 1) demo_cache demo_shown
                    demo_rets 1 demo_cache_supported)).
  - apply (proj2 (agg_never_raises (day 1000) (qn 2 1) demo_cache demo_shown
                    ∅ 1 demo_cache_supported)).
    intros r _. unfold dict_get. by rewrite lookup_empty.
Defined.

Lemma weighted_bounds (us : list (pyfloat * pyfloat)) (lo hi : Qc) :
  Forall (λ u, ∃ m x, u = (Fin m, Fin x) ∧ (0 < m)%Qc
                      ∧ (lo ≤ x)%Qc ∧ (x ≤ hi)%Qc) us →
  let w := Qsum (fin_values us.*1) in
  let wr :=
    Qsum (fin_values ((λ u : pyfloat * pyfloat, fmul u.1 u.2) <$> us)) in
  (lo * w ≤ wr)%Qc ∧ (wr ≤ hi * w)%Qc.
Proof.
  induction 1 as [|u us (m & x & -> & Hm & Hlo & Hhi) _ IH]; cbv zeta.
  - change (Qsum (fin_values ([] : list (pyfloat * pyfloat)).*1)) with 0%Qc.
    change (Qsum (fin_values ((λ u : pyfloat * pyfloat, fmul u.1 u.2)
                                <$> []))) with 0%Qc.
    replace (lo * 0)%Qc with 0%Qc by ring.
    replace (hi * 0)%Qc with 0%Qc by ring. split; apply Qcle_refl.
  - cbv zeta in IH. destruct IH as [IHlo IHhi].
    rewrite !fmap_cons. cbn [fst snd fmul fin_values omap list_omap Qsum foldr].
    fold (fin_values us.*1).
    fold (fin_values ((λ u : pyfloat * pyfloat, fmul u.1 u.2) <$> us)).
    fold (Qsum (fin_values us.*1)).
    fold (Qsum (fin_values ((λ u : pyfloat * pyfloat, fmul u.1 u.2) <$> us))).
    rewrite !Qcmult_plus_distr_r. split.
    + apply Qcplus_le_compat; [|done].
      rewrite (Qcmult_comm lo m). rewrite !(Qcmult_comm m).
      apply Qcmult_le_compat_r; [done|by apply Qclt_le_weak].
    + apply Qcplus_le_compat; [|done].
      rewrite (Qcmult_comm hi m). rewrite !(Qcmult_comm m).
      apply Qcmult_le_compat_r; [done|by apply Qclt_le_weak].
Qed.

(** The result as a quotient of exact sums. *)
Lemma agg_exact now rate cache shown ret_dict months :
  let target := target_dt now months in
  let us := contributions rate cache ret_dict target shown in
  rows_return rate cache ret_dict target shown →
  us ≠ [] →
  Forall (λ u, ∃ m x, u = (Fin m, Fin x) ∧ (0 < m)%Qc) us →
  let w := Qsum (fin_values us.*1) in
  let wr :=
    Qsum (fin_values ((λ u : pyfloat * pyfloat, fmul u.1 u.2) <$> us)) in
  (0 < w)%Qc
  ∧ agg_with_start_weights now rate cache shown ret_dict months
    = Ok (Some (Fin (wr / w)%Qc)).
Proof.
  intros target us Hret Hne Hall w wr.
  rewrite (agg_eval _ _ _ _ _ _ Hret). fold target. fold us.
  destruct (weighted_average us Hne Hall) as (Hw & Hsw & Hsp).
  split; [done|]. fold w in Hw, Hsw. fold wr in Hsp.
  rewrite Hsw, Hsp. rewrite (bool_decide_eq_false_2 _ Hne).
  unfold fle, fzero, pydiv. rewrite Qz_0.
  rewrite (bool_decide_eq_false_2 (w ≤ 0)%Qc) by by apply Qclt_nge.
  rewrite (bool_decide_eq_false_2 (w = 0%Qc)); [done|].
  intros Hw0. rewrite Hw0 in Hw. by apply Qclt_not_eq in Hw.
Qed.

(** X15. In exact arithmetic, when the rate and the quantities are numbers
    and every return recorded for the window lies between [lo] and [hi], the
    hypothetical return is absent or lies between [lo] and [hi]. *)
Theorem weighted_return_within_range (now : Z) (rate : pyfloat)
    (cache : gmap string (option DataFrame)) (shown : list Row)
    (ret_dict : gmap string (option pyfloat)) (months : Z) (lo hi : Qc) :
  (∀ k hist, dict_get cache k = Some hist → supported_layout hist) →
  isna rate = false →
  Forall (λ r, isna (Quantity r) = false) shown →
  (∀ k ret, dict_get ret_dict k = Some ret →
            ∃ x, ret = Fin x ∧ (lo ≤ x)%Qc ∧ (x ≤ hi)%Qc) →
  agg_with_start_weights now rate cache shown ret_dict months = Ok None
  ∨ ∃ v, agg_with_start_weights now rate cache shown ret_dict months
         = Ok (Some (Fin v))
         ∧ (lo ≤ v)%Qc ∧ (v ≤ hi)%Qc.
Proof.
  intros Hsup Hrate Hqty Hrets.
  set (target := target_dt now months).
  set (us := contributions rate cache ret_dict target shown).
  assert (rows_return rate cache ret_dict target shown) as Hret.
  { apply supported_rows_return. intros r hist _. apply Hsup. }
  destruct (decide (us = [])) as [Hnil|Hne].
  { left. rewrite (agg_eval _ _ _ _ _ _ Hret). fold target. fold us.
    by rewrite Hnil. }
  right.
  assert (Forall (λ u, ∃ m x, u = (Fin m, Fin x) ∧ (0 < m)%Qc
                              ∧ (lo ≤ x)%Qc ∧ (x ≤ hi)%Qc) us) as Hall.
  { apply Forall_forall. intros [mv ret] Hu.
    apply contributions_elem in Hu as (r & Hr & Hrow).
    eapply Forall_forall in Hqty; [|exact Hr].
    destruct (contribution_weight_pos _ _ _ _ _ _ _ Hrate Hqty Hrow)
      as (m & -> & Hm).
    apply agg_row_inv in Hrow as (Hd & _).
    destruct (Hrets _ _ Hd) as (x & -> & Hlo & Hhi).
    by exists m, x. }
  destruct (agg_exact now rate cache shown ret_dict months Hret Hne)
    as [Hw Hagg].
  { eapply Forall_impl; [exact Hall|].
    intros u (m & x & -> & Hm & _). by exists m, x. }
  destruct (weighted_bounds us lo hi Hall) as [Hlo Hhi].
  eexists. split; [exact Hagg|]. fold target in Hw |- *. fold us in Hw |- *.
  assert (Qsum (fin_values us.*1) ≠ 0%Qc) as Hw0.
  { intros E. rewrite E in Hw. by apply Qclt_not_eq in Hw. }
  split; apply (Qcmult_lt_0_le_reg_r _ _ _ Hw); by rewrite test_field.
Qed.

(** Two returns of 10%, between 0 and 20%. *)
Lemma weighted_return_within_range_witness :
  agg_with_start_weights (day 1000) (qn 2 1) demo_cache demo_shown
    demo_rets 1 = Ok None
  ∨ ∃ v, agg_with_start_weights (day 1000) (qn 2 1) demo_cache demo_shown
           demo_rets 1 = Ok (Some (Fin v))
         ∧ (Q2Qc 0 ≤ v)%Qc ∧ (v ≤ Q2Qc (1 # 5))%Qc.
Proof.
  apply (weighted_return_within_range (day 1000) (qn 2 1) demo_cache
           demo_shown demo_rets 1 (Q2Qc 0) (Q2Qc (1 # 5))
           demo_cache_supported).
  - reflexivity.
  - by repeat constructor.
  - intros k ret. unfold dict_get, demo_rets. intros Hk.
    assert (ret = qn 1 10) as ->.
    { destruct (decide (k = "AAA")) as [->|Ha].
      { rewrite lookup_insert_eq in Hk. cbn in Hk. by simplify_eq. }
      rewrite lookup_insert_ne in Hk by done.
      destruct (decide (k = "BBB")) as [->|Hb].
      { rewrite lookup_singleton_eq in Hk. cbn in Hk. by simplify_eq. }
      by rewrite lookup_singleton_ne in Hk. }
    eexists. split; [reflexivity|]. split; by vm_compute.
Defined.

(** Two targets that no date of the series separates have the same
    reference index. *)
Lemma ref_index_same_side (s : Series) (t t' : Z) :
  s ≠ [] → StronglySorted Z.le (s_index s) →
  (∀ x, x ∈ s_index s → t ≤ x ↔ t' ≤ x) →
  ref_index s t = ref_index s t'.
Proof.
  intros Hne Hs Hside.
  apply (ref_position_unique (s_index s) t); [by apply ref_index_position|].
  destruct (ref_index_position s t' Hne Hs) as (Hlt & Hbel & Hat).
  split; [done|]. split.
  - intros j x Hj Hx. specialize (Hbel j x Hj Hx).
    apply list_elem_of_lookup_2 in Hx. apply Hside in Hx. lia.
  - destruct Hat as [(x & Hx & Hxt)|[Hlast Hall]]; [left|right].
    + exists x. split; [done|].
      apply list_elem_of_lookup_2 in Hx. by apply Hside.
    + split; [done|]. intros x Hx. specialize (Hall x Hx).
      apply Hside in Hx. lia.
Qed.

(** X16. The window return reads the clock at [now] and the aggregate reads
    it again, later, at [now']. For a series sorted by date, when no date of
    the series separates the two target dates, the start price that weighs
    a row in [agg_with_start_weights] is the reference close of the window
    return over the same months: with that price [q] and the last close
    [l], the window return is [(l - q) / q] as soon as the span reaches the
    minimum. *)
Theorem weight_uses_window_reference (now now' : Z) (rate : pyfloat)
    (cache : gmap string (option DataFrame))
    (ret_dict : gmap string (option pyfloat)) (months : Z) (r : Row)
    (mv ret : pyfloat) (s : Series) :
  (_get_close_series (dict_get cache (TickerYF r)) ≫= as_series)
  = Ok (Some s) →
  StronglySorted Z.le (s_index s) →
  (∀ t, t ∈ s_index s →
        target_dt now months ≤ t ↔ target_dt now' months ≤ t) →
  agg_row rate cache ret_dict (target_dt now' months) r = Ok (Some (mv, ret)) →
  ∃ t0 v0 t1 l q,
    head s = Some (t0, v0) ∧ last s = Some (t1, Fin l) ∧ q ≠ Qz 0
    ∧ mv = fmul (Quantity r) (price_to_aud rate (Fin q) (Market r))
    ∧ ∀ min, min ≤ td_days (t1 - t0) →
        _window_return_from_series now (Some s) months min
        = Ok (Some (Fin ((l - q) / q)%Qc)).
Proof.
  intros Hs Hsorted Hside Hrow.
  apply agg_row_inv in Hrow
    as (_ & s' & p_start & Hs' & Hne & Hp & Hna & Hnz & Hmv & _).
  rewrite Hs in Hs'. simplify_eq.
  rewrite <- (ref_index_same_side s' _ _ Hne Hsorted Hside) in Hp.
  assert (Forall (λ row : Z * pyfloat, isna row.2 = false) s') as Hnum.
  { destruct (_get_close_series (dict_get cache (TickerYF r))) as [o|] eqn:Ho;
      [|done].
    cbn [mbind result_bind] in Hs.
    destruct (get_close_series_never_frame _ _ Ho) as [->|(s0 & -> & _ & H0)];
      [done|]. cbn in Hs. by simplify_eq. }
  destruct (head s') as [[t0 v0]|] eqn:Hhd; [|by apply head_None in Hhd].
  destruct (last s') as [[t1 l]|] eqn:Hla; [|by apply last_None in Hla].
  assert (isna l = false) as Hl.
  { apply last_Some_elem_of in Hla. rewrite Forall_forall in Hnum.
    by apply (Hnum _ Hla). }
  destruct l as [|l]; [done|].
  destruct p_start as [|q]; [done|].
  assert (q ≠ Qz 0) as Hq.
  { intros ->. by vm_compute in Hnz. }
  exists t0, v0, t1, l, q. repeat split; try done.
  intros min Hmin. unfold iloc in Hp.
  destruct (s' !! ref_index s' (target_dt now months)) as [[ti v]|] eqn:Hr;
    [|done]. simplify_eq.
  apply (window_return_value now s' months min t0 v0 t1 l ti q);
    rewrite ?(sort_index_id s' Hsorted); done.
Qed.

(** The first sample row, 10 shares at the start price 110, with the
    aggregate reading the clock five seconds after the window return. *)
Lemma weight_uses_window_reference_witness :
  ∃ t0 v0 t1 l q,
    head s_flat = Some (t0, v0) ∧ last s_flat = Some (t1, Fin l) ∧ q ≠ Qz 0
    ∧ qn 1100 1 = fmul (qn 10 1) (price_to_aud (qn 2 1) (Fin q) "ASX")
    ∧ ∀ min, min ≤ td_days (t1 - t0) →
        _window_return_from_series (day 1000) (Some s_flat) 1 min
        = Ok (Some (Fin ((l - q) / q)%Qc)).
Proof.
  apply (weight_uses_window_reference (day 1000) (day 1000 + 5000000)
           (qn 2 1) demo_cache demo_rets 1
           {| Ticker := "AAA"; Market := "ASX"; Quantity := qn 10 1;
              TickerYF := "AAA.AX"; PriceAUD := qn 121 1;
              MarketValueAUD := qn 1210 1; AvgCostAUD := qn 100 1 |}
           (qn 1100 1) (qn 1 10) s_flat).
  - reflexivity.
  - repeat constructor; by vm_compute.
  - intros t Ht. unfold s_index, s_flat in Ht.
    cbn [fmap list_fmap fst] in Ht.
    repeat (apply elem_of_cons in Ht as [->|Ht];
            [rewrite <- !Z.leb_le; by vm_compute|]).
    by apply elem_of_nil in Ht.
  - eval_qc.
Defined.

(** ** A whole run *)

Lemma prefetch_get (p : Provider) (hs : list Holding) (h : Holding) :
  h ∈ hs →
  dict_get (prefetch p hs) (yf_symbol h) = get_daily_hist_400d p (yf_symbol h).
Proof.
  intros Hh. unfold dict_get, prefetch. rewrite prefetch_from.
  rewrite bool_decide_eq_true_2; [done|]. by apply list_elem_of_fmap_2.
Qed.

Lemma prefetch_frames (p : Provider) (hs : list Holding) k hist :
  dict_get (prefetch p hs) k = Some hist →
  download p k "400d" "1d" = Ok hist.
Proof.
  unfold dict_get, prefetch. rewrite prefetch_from.
  case_bool_decide; [|by rewrite lookup_empty].
  cbn. intros E. by apply daily_hist_inv in E as [? _].
Qed.

(** The loop raises as soon as the returns of one priced holding do. *)
Lemma holdings_loop_raise p now rate cache hs h e :
  h ∈ hs → (get_price_native p (yf_symbol h)).1 ≠ None →
  compute_individual_perf_from_hist now (dict_get cache (yf_symbol h))
  = Raise e →
  ∀ d, ∃ e', holdings_loop p now rate cache d hs = Raise e'.
Proof.
  intros Hh Hpx He. induction hs as [|h' hs IH]; intros d.
  - by apply elem_of_nil in Hh.
  - cbn [holdings_loop].
    destruct (holding_step p now rate cache d h') as [d1|e1] eqn:Hstep;
      [|by eexists].
    cbn [mbind result_bind].
    apply elem_of_cons in Hh as [<-|Hh]; [|by apply IH].
    exfalso. unfold holding_step in Hstep. fold (yf_symbol h) in Hstep.
    destruct (get_price_native p (yf_symbol h)).1; [|done].
    by rewrite He in Hstep.
Qed.

(** [main] once the per-holding loop has returned. *)
Lemma main_eval p now has_avgcost hs d :
  holdings_loop p now (get_aud_per_usd p) (prefetch p hs) empty_dicts hs
  = Ok d →
  let rate := get_aud_per_usd p in
  let shown := shown_of (make_row rate has_avgcost d <$> hs) in
  let agg ret_dict months :=
    if bool_decide (shown = []) then Ok None
    else agg_with_start_weights now rate (prefetch p hs) shown
           ret_dict months in
  main p now has_avgcost hs
  = (r1 ← agg (perf1_num d) 1 ;
     r6 ← agg (perf6_num d) 6 ;
     r12 ← agg (perf12_num d) 12 ;
     pa ← port_actual_of shown ;
     Ok (shown,
         {| total := if bool_decide (shown = []) then fzero
                     else pd_sum (MarketValueAUD <$> shown);
            port_r1 := r1; port_r6 := r6; port_r12 := r12;
            port_actual := pa |})).
Proof. intros Hd. unfold main. rewrite Hd. reflexivity. Qed.

(** X18. The returns of a holding are computed outside any [try]: when they
    raise for one priced holding, the whole run raises. *)
Theorem main_aborts_on_bad_frame (p : Provider) (now : Z)
    (has_avgcost : bool) (hs : list Holding) (h : Holding) (e : exn) :
  h ∈ hs →
  (get_price_native p (norm_ticker (h_Ticker h) (h_Market h))).1 ≠ None →
  compute_individual_perf_from_hist now
    (get_daily_hist_400d p (norm_ticker (h_Ticker h) (h_Market h)))
  = Raise e →
  ∃ e', main p now has_avgcost hs = Raise e'.
Proof.
  intros Hh Hpx He.
  destruct (holdings_loop_raise p now (get_aud_per_usd p) (prefetch p hs)
              hs h e Hh Hpx) with (d := empty_dicts) as [e' He'].
  { by rewrite prefetch_get. }
  exists e'. unfold main. by rewrite He'.
Qed.

(** A provider whose histories hold a single-column block. *)
Lemma main_aborts_on_bad_frame_witness :
  ∃ e, main demo_provider_bad_frame (day 1000) true [holding_a; holding_b]
       = Raise e.
Proof.
  apply (main_aborts_on_bad_frame demo_provider_bad_frame (day 1000) true
           [holding_a; holding_b] holding_a UnboundLocalError).
  - by left.
  - by vm_compute.
  - reflexivity.
Defined.

Lemma main_inv_full p now has_avgcost hs rows snap :
  main p now has_avgcost hs = Ok (rows, snap) →
  ∃ d, holdings_loop p now (get_aud_per_usd p) (prefetch p hs)
         empty_dicts hs = Ok d
       ∧ rows = shown_of (make_row (get_aud_per_usd p) has_avgcost d <$> hs)
       ∧ total snap = (if bool_decide (rows = []) then fzero
                       else pd_sum (MarketValueAUD <$> rows))
       ∧ (rows = [] → snap = empty_snapshot)
       ∧ port_actual_of rows = Ok (port_actual snap).
Proof.
  intros Hmain.
  destruct (main_inv _ _ _ _ _ _ Hmain) as (d & Hd & Hrows & Hpa).
  exists d. split; [done|]. split; [done|].
  rewrite (main_eval _ _ _ _ _ Hd) in Hmain. cbv zeta in Hmain.
  rewrite <- Hrows in Hmain.
  destruct (decide (rows = [])) as [Hnil|Hne].
  - clear Hrows Hpa. rewrite Hnil in Hmain |- *. cbn in Hmain.
    by simplify_eq.
  - rewrite (bool_decide_eq_false_2 _ Hne) in Hmain.
    rewrite (bool_decide_eq_false_2 _ Hne).
    repeat match type of Hmain with
           | (?c ≫= _) = _ =>
               destruct c eqn:?; [|done]; cbn [mbind result_bind] in Hmain
           end.
    injection Hmain as <-. cbn [total port_actual]. by rewrite Hpa.
Qed.

Lemma shown_of_elem df r :
  r ∈ shown_of df ↔ isna (PriceAUD r) = false ∧ r ∈ df.
Proof. by rewrite shown_of_perm, list_elem_of_filter. Qed.

(** X19. A run that returns while every resolved price is missing or NaN
    shows no row: its total is 0 and its four portfolio returns are
    absent. *)
Theorem nothing_priced (p : Provider) (now : Z) (has_avgcost : bool)
    (hs : list Holding) (rows : list Row) (snap : Snapshot) :
  main p now has_avgcost hs = Ok (rows, snap) →
  (∀ h, h ∈ hs →
     (get_price_native p (norm_ticker (h_Ticker h) (h_Market h))).1 = None
     ∨ (get_price_native p (norm_ticker (h_Ticker h) (h_Market h))).1
       = Some NaN) →
  rows = [] ∧ snap = empty_snapshot.
Proof.
  intros Hmain Hall.
  destruct (main_inv_full _ _ _ _ _ _ Hmain)
    as (d & Hd & Hrows & _ & Hnil & _).
  assert (rows = []) as Hr; [|by auto].
  apply elem_of_nil_inv. intros r Hin. rewrite Hrows in Hin.
  apply shown_of_elem in Hin as [Hp Hr].
  apply list_elem_of_fmap in Hr as (h & -> & _).
  cbn in Hp. unfold map_get in Hp.
  destruct (price_aud d !! h_Ticker h) as [v|] eqn:Hv; [|done].
  cbn in Hp.
  destruct (holdings_loop_price_aud _ _ _ _ _ _ _ Hd _ _ Hv)
    as [Habs|(h' & px & Hh' & _ & Hpx & ->)].
  { unfold empty_dicts in Habs. cbn [price_aud] in Habs.
    by rewrite lookup_empty in Habs. }
  destruct (Hall h' Hh') as [Hn|Hn]; rewrite Hn in Hpx; [done|].
  simplify_eq. unfold price_to_aud in Hp. by case_bool_decide.
Qed.

(** A sheet whose only holding is quoted at NaN. *)
Lemma nothing_priced_witness :
  ∃ rows snap,
    main demo_provider_odd_quotes (day 1000) true [holding_nan]
    = Ok (rows, snap)
    ∧ rows = [] ∧ snap = empty_snapshot.
Proof.
  exists [], empty_snapshot. split; [reflexivity|].
  apply (nothing_priced demo_provider_odd_quotes (day 1000) true
           [holding_nan] [] empty_snapshot); [reflexivity|].
  intros h ->%list_elem_of_singleton. by right.
Defined.

(** X20. Without an [AvgCost] column, or when no holding has an average
    cost, every shown row has a missing cost basis and the since-inception
    return of the portfolio is absent. *)
Theorem no_cost_no_inception_return (p : Provider) (now : Z)
    (has_avgcost : bool) (hs : list Holding) (rows : list Row)
    (snap : Snapshot) :
  main p now has_avgcost hs = Ok (rows, snap) →
  has_avgcost = false ∨ Forall (λ h, h_AvgCost h = NaN) hs →
  port_actual snap = None ∧ Forall (λ r, AvgCostAUD r = NaN) rows.
Proof.
  intros Hmain Hno.
  destruct (main_inv _ _ _ _ _ _ Hmain) as (d & Hd & Hrows & Hpa).
  assert (Forall (λ r, AvgCostAUD r = NaN) rows) as Hall.
  { apply Forall_forall. intros r Hr. rewrite Hrows in Hr.
    apply shown_of_elem in Hr as [_ Hr].
    apply list_elem_of_fmap in Hr as (h & -> & Hh). cbn.
    destruct Hno as [->|Hno]; [done|].
    rewrite Forall_forall in Hno. rewrite (Hno h Hh).
    by destruct has_avgcost. }
  split; [|done].
  rewrite port_actual_of_costed in Hpa.
  assert (have_cost_of rows = []) as Hnil.
  { unfold have_cost_of. apply elem_of_nil_inv.
    intros r [Hc Hr]%list_elem_of_filter.
    rewrite Forall_forall in Hall. by rewrite (Hall r Hr) in Hc. }
  rewrite Hnil in Hpa. by simplify_eq.
Qed.

(** A run on a sheet without the column. *)
Lemma no_cost_no_inception_return_witness :
  ∃ rows snap,
    main demo_provider (day 1000) false [holding_a; holding_b]
    = Ok (rows, snap)
    ∧ port_actual snap = None ∧ Forall (λ r, AvgCostAUD r = NaN) rows.
Proof.
  assert (∃ x, main demo_provider (day 1000) false [holding_a; holding_b]
               = Ok x) as ([rows snap] & Hrun).
  { eexists. vm_compute. reflexivity. }
  exists rows, snap. split; [exact Hrun|].
  apply (no_cost_no_inception_return demo_provider (day 1000) false
           [holding_a; holding_b] rows snap Hrun). by left.
Defined.

Lemma insert_by_value_sorted r l :
  Forall (λ x, isna (MarketValueAUD x) = false) (r :: l) →
  StronglySorted value_desc l →
  StronglySorted value_desc (insert_by_value r l).
Proof.
  intros Hnum Hs. apply Forall_cons in Hnum as [Hr Hnum].
  induction Hs as [|r' l' Hs IH Hall]; [repeat constructor|].
  apply Forall_cons in Hnum as [Hr' Hnum].
  cbn [insert_by_value]. rewrite Hr', orb_false_r.
  destruct (MarketValueAUD r) as [|v] eqn:Ev; [done|].
  destruct (MarketValueAUD r') as [|v'] eqn:Ev'; [done|].
  cbn [fle]. case_bool_decide as Hle.
  - constructor; [by constructor|]. constructor.
    + unfold value_desc. rewrite Ev, Ev'. cbn. by apply bool_decide_eq_true_2.
    + eapply Forall_impl; [exact Hall|]. intros x Hx. unfold value_desc in *.
      rewrite Ev. rewrite Ev' in Hx. destruct (MarketValueAUD x) as [|vx]; [done|].
      cbn in *. apply bool_decide_eq_true in Hx. apply bool_decide_eq_true_2.
      by etrans.
  - constructor; [by apply IH|].
    rewrite insert_by_value_perm. constructor; [|done].
    unfold value_desc. rewrite Ev, Ev'. cbn. apply bool_decide_eq_true_2.
    apply Qclt_le_weak. by apply Qcnot_le_lt.
Qed.

Lemma sort_values_desc_sorted l :
  Forall (λ x, isna (MarketValueAUD x) = false) l →
  StronglySorted value_desc (sort_values_desc l).
Proof.
  induction l as [|r l IH]; intros Hnum; [constructor|].
  cbn [sort_values_desc foldr]. fold (sort_values_desc l).
  apply Forall_cons in Hnum as [Hr Hnum].
  apply insert_by_value_sorted; [|by apply IH].
  constructor; [done|]. by rewrite sort_values_desc_perm.
Qed.

(** X21. When the quantities are numbers, the shown rows are sorted by
    descending market value; each has a price and a market value that are
    numbers, its market value is its quantity times its price, and it stems
    from a holding of the sheet. *)
Theorem shown_rows_sorted (p : Provider) (now : Z) (has_avgcost : bool)
    (hs : list Holding) (rows : list Row) (snap : Snapshot) :
  main p now has_avgcost hs = Ok (rows, snap) →
  Forall (λ h, isna (h_Quantity h) = false) hs →
  StronglySorted value_desc rows
  ∧ Forall (λ r, isna (PriceAUD r) = false
                 ∧ isna (MarketValueAUD r) = false) rows
  ∧ (∀ r, r ∈ rows →
       ∃ h, h ∈ hs ∧ Ticker r = h_Ticker h ∧ Market r = h_Market h
            ∧ Quantity r = h_Quantity h
            ∧ MarketValueAUD r = fmul (h_Quantity h) (PriceAUD r))
  ∧ (length rows ≤ length hs)%nat.
Proof.
  intros Hmain Hqty.
  destruct (main_inv _ _ _ _ _ _ Hmain) as (d & Hd & Hrows & _).
  assert (∀ r, r ∈ rows →
            isna (PriceAUD r) = false
            ∧ ∃ h, h ∈ hs ∧ r = make_row (get_aud_per_usd p) has_avgcost d h)
    as Hin.
  { intros r Hr. rewrite Hrows in Hr. apply shown_of_elem in Hr as [Hp Hr].
    split; [done|]. apply list_elem_of_fmap in Hr as (h & -> & Hh). eauto. }
  assert (Forall (λ r, isna (PriceAUD r) = false
                       ∧ isna (MarketValueAUD r) = false) rows) as Hnum.
  { apply Forall_forall. intros r Hr.
    destruct (Hin r Hr) as [Hp (h & Hh & ->)]. split; [done|].
    cbn in *. rewrite Forall_forall in Hqty. specialize (Hqty h Hh).
    destruct (h_Quantity h); [done|].
    by destruct (map_get (price_aud d) (h_Ticker h)). }
  split; [|split; [done|split]].
  - rewrite Hrows. unfold shown_of. apply sort_values_desc_sorted.
    apply Forall_forall. intros r Hr.
    assert (r ∈ rows) as Hr'.
    { rewrite Hrows. unfold shown_of. by rewrite sort_values_desc_perm. }
    rewrite Forall_forall in Hnum. by apply Hnum.
  - intros r Hr. destruct (Hin r Hr) as [_ (h & Hh & ->)].
    exists h. by repeat split.
  - rewrite Hrows, shown_of_perm.
    etrans; [apply length_filter|]. by rewrite length_fmap.
Qed.

(** Three holdings entered smallest first come out largest first. *)
Lemma shown_rows_sorted_witness :
  ∃ rows snap,
    main demo_provider (day 1000) true [holding_c; holding_b; holding_a]
    = Ok (rows, snap)
    ∧ StronglySorted value_desc rows
    ∧ Ticker <$> rows = ["AAA"; "BBB"; "CCC"].
Proof.
  assert (∃ x, main demo_provider (day 1000) true
                 [holding_c; holding_b; holding_a] = Ok x
               ∧ Ticker <$> x.1 = ["AAA"; "BBB"; "CCC"])
    as ([rows snap] & Hrun & Ht).
  { eexists. split; vm_compute; reflexivity. }
  exists rows, snap. split; [exact Hrun|]. split; [|exact Ht].
  apply (shown_rows_sorted demo_provider (day 1000) true
           [holding_c; holding_b; holding_a] rows snap Hrun).
  by repeat constructor.
Defined.

(** X22. The total is a number: the exact sum of the market values of the
    shown rows, missing values skipped, whatever their order, and 0 when no
    row is shown. *)
Theorem total_is_sum_of_shown (p : Provider) (now : Z) (has_avgcost : bool)
    (hs : list Holding) (rows : list Row) (snap : Snapshot) :
  main p now has_avgcost hs = Ok (rows, snap) →
  total snap = Fin (Qsum (fin_values (MarketValueAUD <$> rows)))
  ∧ (∀ rows', rows' ≡ₚ rows →
       total snap = pd_sum (MarketValueAUD <$> rows'))
  ∧ (rows = [] → total snap = fzero).
Proof.
  intros Hmain.
  destruct (main_inv_full _ _ _ _ _ _ Hmain) as (d & _ & _ & Ht & _).
  assert (total snap = pd_sum (MarketValueAUD <$> rows)) as Hsum.
  { rewrite Ht. case_bool_decide as Hnil; [by rewrite Hnil|done]. }
  split; [by rewrite Hsum, pd_sum_fin|]. split.
  - intros rows' Hp. rewrite Hsum, !pd_sum_fin. f_equal.
    apply Qsum_perm. unfold fin_values. by rewrite Hp.
  - intros ->. by rewrite Hsum.
Qed.

(** 10 shares at 121 and 5 shares at 88. *)
Lemma total_is_sum_of_shown_witness :
  ∃ rows snap,
    main demo_provider (day 1000) true [holding_a; holding_b]
    = Ok (rows, snap)
    ∧ total snap = Fin (Qsum (fin_values (MarketValueAUD <$> rows)))
    ∧ total snap = qn 1650 1.
Proof.
  assert (∃ x, main demo_provider (day 1000) true [holding_a; holding_b]
               = Ok x ∧ total x.2 = qn 1650 1)
    as ([rows snap] & Hrun & Ht).
  { eexists. split; [vm_compute; reflexivity|eval_qc]. }
  exists rows, snap. split; [exact Hrun|]. split; [|exact Ht].
  apply (total_is_sum_of_shown demo_provider (day 1000) true
           [holding_a; holding_b] rows snap Hrun).
Defined.

Lemma prices_after_app p rate l1 l2 : ∀ m,
  prices_after p rate m (l1 ++ l2)
  = prices_after p rate (prices_after p rate m l1) l2.
Proof. induction l1 as [|h l1 IH]; intros m; [done|]. cbn. apply IH. Qed.

(** X23. Prices are kept per ticker: two shown rows with the same ticker
    show the same AUD price, also when their markets differ, and that price
    is the one of the last priced holding with that ticker, converted by
    that holding's market. *)
Theorem one_price_per_ticker (p : Provider) (now : Z) (has_avgcost : bool)
    (hs : list Holding) (rows : list Row) (snap : Snapshot) :
  main p now has_avgcost hs = Ok (rows, snap) →
  (∀ r1 r2, r1 ∈ rows → r2 ∈ rows → Ticker r1 = Ticker r2 →
            PriceAUD r1 = PriceAUD r2)
  ∧ (∀ hs1 h hs2 px r,
       hs = hs1 ++ h :: hs2 →
       (get_price_native p (norm_ticker (h_Ticker h) (h_Market h))).1
       = Some px →
       (∀ h', h' ∈ hs2 → h_Ticker h' = h_Ticker h →
          (get_price_native p (norm_ticker (h_Ticker h') (h_Market h'))).1
          = None) →
       r ∈ rows → Ticker r = h_Ticker h →
       PriceAUD r = price_to_aud (get_aud_per_usd p) px (h_Market h)).
Proof.
  intros Hmain.
  destruct (main_inv _ _ _ _ _ _ Hmain) as (d & Hd & Hrows & _).
  assert (∀ r, r ∈ rows → PriceAUD r = map_get (price_aud d) (Ticker r))
    as Hprice.
  { intros r Hr. rewrite Hrows in Hr. apply shown_of_elem in Hr as [_ Hr].
    by apply list_elem_of_fmap in Hr as (h & -> & _). }
  split.
  - intros r1 r2 H1 H2 Ht. by rewrite (Hprice r1 H1), (Hprice r2 H2), Ht.
  - intros hs1 h hs2 px r -> Hpx Hlater Hr Ht.
    rewrite (Hprice r Hr), Ht. unfold map_get.
    rewrite (holdings_loop_prices _ _ _ _ _ _ _ Hd).
    unfold empty_dicts. cbn [price_aud].
    rewrite prices_after_app. cbn [prices_after].
    rewrite (prices_after_uniform p (get_aud_per_usd p) (h_Ticker h) None hs2).
    2:{ intros h' Hh' Hk. unfold price_entry. by rewrite (Hlater h' Hh' Hk). }
    unfold price_entry at 1 2. rewrite Hpx. cbn [fmap option_fmap option_map].
    rewrite lookup_insert_eq. by destruct (bool_decide _).
Qed.

(** The same ticker on both markets, priced on the ASX only: both rows show
    the ASX price. *)
Lemma one_price_per_ticker_witness :
  ∃ rows snap,
    main demo_provider (day 1000) true [holding_a; holding_a_us]
    = Ok (rows, snap)
    ∧ Market <$> rows = ["ASX"; "US"]
    ∧ ∀ r, r ∈ rows → Ticker r = "AAA" →
        PriceAUD r = price_to_aud (get_aud_per_usd demo_provider)
                       (qn 121 1) "ASX".
Proof.
  assert (∃ x, main demo_provider (day 1000) true [holding_a; holding_a_us]
               = Ok x ∧ Market <$> x.1 = ["ASX"; "US"])
    as ([rows snap] & Hrun & Hm).
  { eexists. split; vm_compute; reflexivity. }
  exists rows, snap. split; [exact Hrun|]. split; [exact Hm|].
  intros r Hr Ht.
  apply (proj2 (one_price_per_ticker demo_provider (day 1000) true
                  [holding_a; holding_a_us] rows snap Hrun)
           [] holding_a [holding_a_us] (qn 121 1) r);
    [reflexivity|reflexivity| |exact Hr|exact Ht].
  intros h' ->%list_elem_of_singleton _. reflexivity.
Defined.

(** X24. A ticker of which every holding resolves to no price, or to NaN, is
    not shown. A holding whose price is a number, with no priced holding of
    the same ticker after it, is shown with that price converted by its
    market (on the US market, provided the rate is a number). *)
Theorem shown_iff_priced (p : Provider) (now : Z) (has_avgcost : bool)
    (hs : list Holding) (rows : list Row) (snap : Snapshot) :
  main p now has_avgcost hs = Ok (rows, snap) →
  (∀ k,
     (∀ h, h ∈ hs → h_Ticker h = k →
        (get_price_native p (norm_ticker (h_Ticker h) (h_Market h))).1 = None
        ∨ (get_price_native p (norm_ticker (h_Ticker h) (h_Market h))).1
          = Some NaN) →
     ∀ r, r ∈ rows → Ticker r ≠ k)
  ∧ (∀ hs1 h hs2 px,
       hs = hs1 ++ h :: hs2 →
       (get_price_native p (norm_ticker (h_Ticker h) (h_Market h))).1
       = Some (Fin px) →
       (∀ h', h' ∈ hs2 → h_Ticker h' = h_Ticker h →
          (get_price_native p (norm_ticker (h_Ticker h') (h_Market h'))).1
          = None) →
       (h_Market h = "US" → isna (get_aud_per_usd p) = false) →
       ∃ r, r ∈ rows ∧ Ticker r = h_Ticker h ∧ Market r = h_Market h
            ∧ Quantity r = h_Quantity h
            ∧ PriceAUD r
              = price_to_aud (get_aud_per_usd p) (Fin px) (h_Market h)).
Proof.
  intros Hmain.
  destruct (main_inv _ _ _ _ _ _ Hmain) as (d & Hd & Hrows & _).
  split.
  - intros k Hall r Hin Hk. rewrite Hrows in Hin.
    apply shown_of_elem in Hin as [Hp Hr].
    apply list_elem_of_fmap in Hr as (h & -> & _).
    cbn in Hp, Hk. unfold map_get in Hp. rewrite Hk in Hp.
    destruct (price_aud d !! k) as [v|] eqn:Hv; [|done].
    cbn in Hp.
    destruct (holdings_loop_price_aud _ _ _ _ _ _ _ Hd _ _ Hv)
      as [Habs|(h' & px & Hh' & Hk' & Hpx & ->)].
    { unfold empty_dicts in Habs. cbn [price_aud] in Habs.
      by rewrite lookup_empty in Habs. }
    destruct (Hall h' Hh' Hk') as [Hn|Hn]; rewrite Hn in Hpx; [done|].
    simplify_eq. unfold price_to_aud in Hp. by case_bool_decide.
  - intros hs1 h hs2 px -> Hpx Hlater Hrate.
    assert (price_aud d !! h_Ticker h
            = Some (price_to_aud (get_aud_per_usd p) (Fin px) (h_Market h)))
      as Hk.
    { rewrite (holdings_loop_prices _ _ _ _ _ _ _ Hd).
      unfold empty_dicts. cbn [price_aud].
      rewrite prices_after_app. cbn [prices_after].
      rewrite (prices_after_uniform p (get_aud_per_usd p) (h_Ticker h) None
                 hs2).
      2:{ intros h' Hh' Hk. unfold price_entry. by rewrite (Hlater h' Hh' Hk). }
      unfold price_entry at 1 2. rewrite Hpx.
      cbn [fmap option_fmap option_map].
      rewrite lookup_insert_eq. by destruct (bool_decide _). }
    exists (make_row (get_aud_per_usd p) has_avgcost d h).
    assert (PriceAUD (make_row (get_aud_per_usd p) has_avgcost d h)
            = price_to_aud (get_aud_per_usd p) (Fin px) (h_Market h)) as Hp.
    { cbn. unfold map_get. by rewrite Hk. }
    split; [|by repeat split].
    rewrite Hrows. apply shown_of_elem. split.
    + rewrite Hp. unfold price_to_aud. case_bool_decide as Hus; [|done].
      specialize (Hrate Hus). by destruct (get_aud_per_usd p).
    + apply list_elem_of_fmap_2. apply elem_of_app. right. by left.
Qed.

(** One priced holding and one that no tier knows. *)
Lemma shown_iff_priced_witness :
  ∃ rows snap,
    main demo_provider (day 1000) true [holding_a; holding_z]
    = Ok (rows, snap)
    ∧ (∀ r, r ∈ rows → Ticker r ≠ "ZZZ")
    ∧ ∃ r, r ∈ rows ∧ Ticker r = "AAA" ∧ Market r = "ASX"
           ∧ Quantity r = qn 10 1
           ∧ PriceAUD r = price_to_aud (get_aud_per_usd demo_provider)
                            (qn 121 1) "ASX".
Proof.
  assert (∃ x, main demo_provider (day 1000) true [holding_a; holding_z]
               = Ok x) as ([rows snap] & Hrun).
  { eexists. vm_compute. reflexivity. }
  exists rows, snap. split; [exact Hrun|].
  destruct (shown_iff_priced demo_provider (day 1000) true
              [holding_a; holding_z] rows snap Hrun) as [Hhid Hshown].
  split.
  - apply Hhid. intros h Hh Hk. left.
    apply elem_of_cons in Hh as [->|Hh]; [done|].
    apply list_elem_of_singleton in Hh as ->. reflexivity.
  - apply (Hshown [] holding_a [holding_z] (Q2Qc (121 # 1)));
      [reflexivity|reflexivity| |done].
    intros h' ->%list_elem_of_singleton. done.
Defined.

Lemma aligned_mono rate hs hs' d :
  (∀ h, h ∈ hs → h ∈ hs') → aligned rate hs d → aligned rate hs' d.
Proof.
  intros Hsub Ha k. specialize (Ha k).
  destruct (native_price d !! k); [|done].
  destruct Ha as [(h & Hh & ?) ?]. split; [|done]. exists h. auto.
Qed.

Lemma individual_perf_strings now hist p1s p6s p12s r1 r6 r12 :
  compute_individual_perf_from_hist now hist
  = Ok (p1s, p6s, p12s, r1, r6, r12) →
  p1s = to_str r1 ∧ p6s = to_str r6 ∧ p12s = to_str r12.
Proof.
  unfold compute_individual_perf_from_hist.
  destruct (_get_close_series hist) as [o|]; cbn [mbind result_bind]; [|done].
  destruct (as_series o) as [s|]; cbn [mbind result_bind]; [|done].
  destruct (_window_return_from_series now s 1 20) as [x1|];
    cbn [mbind result_bind]; [|done].
  destruct (_window_return_from_series now s 6 120) as [x6|];
    cbn [mbind result_bind]; [|done].
  destruct (_window_return_from_series now s 12 250) as [x12|];
    cbn [mbind result_bind]; [|done].
  by intros [= <- <- <- <- <- <-].
Qed.

Lemma holding_step_aligned p now rate cache hs d h d' :
  holding_step p now rate cache d h = Ok d' →
  aligned rate hs d → aligned rate (h :: hs) d'.
Proof.
  intros Hstep Ha. unfold holding_step in Hstep.
  destruct (get_price_native p _).1 as [px|].
  2:{ simplify_eq. eapply aligned_mono; [|done]. intros. by right. }
  destruct (compute_individual_perf_from_hist now _)
    as [[[[[[p1s p6s] p12s] p1n] p6n] p12n]|] eqn:Hc; [|done].
  cbn [mbind result_bind] in Hstep. simplify_eq.
  apply individual_perf_strings in Hc as (-> & -> & ->).
  intros k. cbn [native_price price_aud perf_str perf1_num perf6_num perf12_num].
  destruct (decide (h_Ticker h = k)) as [<-|Hne].
  - rewrite !lookup_insert_eq. split; [exists h; split; [by left|done]|].
    by exists p1n, p6n, p12n.
  - rewrite !lookup_insert_ne by done.
    apply (aligned_mono rate hs (h :: hs)) in Ha; [|intros; by right].
    apply Ha.
Qed.

Lemma holdings_loop_aligned p now rate cache hs : ∀ hs0 d d',
  holdings_loop p now rate cache d hs = Ok d' →
  aligned rate hs0 d → aligned rate (hs0 ++ hs) d'.
Proof.
  induction hs as [|h hs IH]; intros hs0 d d' Hloop Ha; cbn in Hloop.
  - simplify_eq. by rewrite app_nil_r.
  - destruct (holding_step p now rate cache d h) as [d1|] eqn:Hstep; [|done].
    cbn [mbind result_bind] in Hloop.
    replace (hs0 ++ h :: hs) with ((hs0 ++ [h]) ++ hs)
      by (by rewrite <- app_assoc).
    apply (IH _ d1 d' Hloop).
    eapply aligned_mono; [|by eapply holding_step_aligned].
    intros x Hx. apply elem_of_app.
    apply elem_of_cons in Hx as [->|Hx]; [right; by left|by left].
Qed.

(** X25. The dictionaries filled by the per-holding loop hold the same
    tickers; the AUD price of a ticker is the conversion of its native price
    by the market of one of its holdings; and the texts recorded for a
    ticker are the renderings of the numbers recorded for it. *)
Theorem dictionaries_stay_aligned (p : Provider) (now : Z) (rate : pyfloat)
    (cache : gmap string (option DataFrame)) (hs : list Holding) (d : Dicts) :
  holdings_loop p now rate cache empty_dicts hs = Ok d →
  dom (native_price d) = dom (price_aud d)
  ∧ dom (perf_str d) = dom (price_aud d)
  ∧ dom (perf1_num d) = dom (price_aud d)
  ∧ dom (perf6_num d) = dom (price_aud d)
  ∧ dom (perf12_num d) = dom (price_aud d)
  ∧ (∀ k v, price_aud d !! k = Some v →
       ∃ h px, h ∈ hs ∧ h_Ticker h = k ∧ native_price d !! k = Some px
               ∧ v = price_to_aud rate px (h_Market h))
  ∧ (∀ k s1 s6 s12, perf_str d !! k = Some (s1, s6, s12) →
       ∃ r1 r6 r12, perf1_num d !! k = Some r1 ∧ perf6_num d !! k = Some r6
                    ∧ perf12_num d !! k = Some r12
                    ∧ s1 = to_str r1 ∧ s6 = to_str r6 ∧ s12 = to_str r12).
Proof.
  intros Hloop.
  assert (aligned rate hs d) as Ha.
  { apply (holdings_loop_aligned p now rate cache hs [] empty_dicts d Hloop).
    intros k. unfold empty_dicts. cbn. by rewrite !lookup_empty. }
  assert (∀ (A : Type) (m : gmap string A),
            (∀ k, is_Some (m !! k) ↔ is_Some (price_aud d !! k)) →
            dom m = dom (price_aud d)) as Hdom.
  { intros A m Hk. apply set_eq. intros k. by rewrite !elem_of_dom. }
  repeat split.
  1-5: apply Hdom; intros k; specialize (Ha k);
       destruct (native_price d !! k) as [px|];
       [ destruct Ha as [(h & _ & _ & Hp) (r1 & r6 & r12 & Hs & H1 & H6 & H12)];
         rewrite ?Hp, ?Hs, ?H1, ?H6, ?H12; split; intros _; by eexists
       | destruct Ha as (Hp & Hs & H1 & H6 & H12);
         rewrite ?Hp, ?Hs, ?H1, ?H6, ?H12; done ].
  - intros k v Hv. specialize (Ha k).
    destruct (native_price d !! k) as [px|].
    + destruct Ha as [(h & Hh & Hk & Hp) _]. rewrite Hp in Hv. simplify_eq.
      by exists h, px.
    + destruct Ha as (Hp & _). by rewrite Hp in Hv.
  - intros k s1 s6 s12 Hs. specialize (Ha k).
    destruct (native_price d !! k) as [px|].
    + destruct Ha as [_ (r1 & r6 & r12 & Hps & H1 & H6 & H12)].
      rewrite Hps in Hs. simplify_eq. by exists r1, r6, r12.
    + destruct Ha as (_ & Hp & _). by rewrite Hp in Hs.
Qed.

(** Three holdings, two of them priced. *)
Lemma dictionaries_stay_aligned_witness :
  ∃ d, holdings_loop demo_provider (day 1000) (qn 2 1) demo_cache
         empty_dicts [holding_a; holding_z; holding_b] = Ok d
       ∧ dom (perf1_num d) = dom (price_aud d)
       ∧ dom (price_aud d) = {[ "AAA"; "BBB" ]}.
Proof.
  assert (∃ d, holdings_loop demo_provider (day 1000) (qn 2 1) demo_cache
                 empty_dicts [holding_a; holding_z; holding_b] = Ok d
               ∧ dom (price_aud d) = {[ "AAA"; "BBB" ]})
    as (d & Hd & Hdom).
  { eexists. split; [vm_compute; reflexivity|]. by vm_compute. }
  exists d. split; [exact Hd|]. split; [|exact Hdom].
  apply (dictionaries_stay_aligned demo_provider (day 1000) (qn 2 1)
           demo_cache [holding_a; holding_z; holding_b] d Hd).
Defined.

Lemma holdings_loop_app p now rate cache hs1 hs2 : ∀ d,
  holdings_loop p now rate cache d (hs1 ++ hs2)
  = d1 ← holdings_loop p now rate cache d hs1 ;
    holdings_loop p now rate cache d1 hs2.
Proof.
  induction hs1 as [|h hs1 IH]; intros d; [done|].
  cbn [app holdings_loop].
  destruct (holding_step p now rate cache d h) as [d1|]; [|done].
  cbn [mbind result_bind]. apply IH.
Qed.

Lemma holdings_loop_keeps p now rate cache hs k : ∀ d d',
  (∀ h, h ∈ hs → h_Ticker h = k →
        (get_price_native p (yf_symbol h)).1 = None) →
  holdings_loop p now rate cache d hs = Ok d' →
  entries d' k = entries d k.
Proof.
  induction hs as [|h hs IH]; intros d d' Hall Hloop; cbn in Hloop.
  { by simplify_eq. }
  destruct (holding_step p now rate cache d h) as [d1|] eqn:Hstep; [|done].
  cbn [mbind result_bind] in Hloop.
  rewrite (IH d1 d'); [| |done].
  2:{ intros h' Hh'. apply Hall. by right. }
  unfold holding_step in Hstep. fold (yf_symbol h) in Hstep.
  destruct (get_price_native p (yf_symbol h)).1 as [px|] eqn:Hpx;
    [|by simplify_eq].
  destruct (compute_individual_perf_from_hist now _)
    as [[[[[[p1s p6s] p12s] p1n] p6n] p12n]|]; [|done].
  cbn [mbind result_bind] in Hstep. simplify_eq.
  assert (h_Ticker h ≠ k) as Hne.
  { intros Hk. rewrite (Hall h) in Hpx; [done|by left|done]. }
  unfold entries. cbn. by rewrite !lookup_insert_ne by done.
Qed.

Lemma holdings_loop_last p now rate cache hs1 h hs2 d d' px :
  holdings_loop p now rate cache d (hs1 ++ h :: hs2) = Ok d' →
  (get_price_native p (yf_symbol h)).1 = Some px →
  (∀ h', h' ∈ hs2 → h_Ticker h' = h_Ticker h →
         (get_price_native p (yf_symbol h')).1 = None) →
  ∃ p1s p6s p12s r1 r6 r12,
    compute_individual_perf_from_hist now (dict_get cache (yf_symbol h))
    = Ok (p1s, p6s, p12s, r1, r6, r12)
    ∧ entries d' (h_Ticker h)
      = (Some px, Some (price_to_aud rate px (h_Market h)),
         Some (p1s, p6s, p12s), Some r1, Some r6, Some r12).
Proof.
  intros Hloop Hpx Hlater. rewrite holdings_loop_app in Hloop.
  destruct (holdings_loop p now rate cache d hs1) as [d1|]; [|done].
  cbn [mbind result_bind holdings_loop] in Hloop.
  destruct (holding_step p now rate cache d1 h) as [d2|] eqn:Hstep; [|done].
  cbn [mbind result_bind] in Hloop.
  rewrite (holdings_loop_keeps _ _ _ _ _ _ _ _ Hlater Hloop).
  unfold holding_step in Hstep. fold (yf_symbol h) in Hstep.
  rewrite Hpx in Hstep.
  destruct (compute_individual_perf_from_hist now _)
    as [[[[[[p1s p6s] p12s] p1n] p6n] p12n]|]; [|done].
  cbn [mbind result_bind] in Hstep. simplify_eq.
  exists p1s, p6s, p12s, p1n, p6n, p12n. split; [done|].
  unfold entries. cbn. by rewrite !lookup_insert_eq.
Qed.

(** X26. A priced holding whose history is missing (the download raised or
    came back empty), with no priced holding of the same ticker after it,
    gets blank texts and absent returns for the three windows, and its rows
    contribute nothing to the hypothetical returns. *)
Theorem missing_history_blank_returns (p : Provider) (now : Z)
    (rate : pyfloat) (hs1 hs2 : list Holding) (h : Holding) (d : Dicts)
    (px : pyfloat) :
  let hs := hs1 ++ h :: hs2 in
  let sym := norm_ticker (h_Ticker h) (h_Market h) in
  holdings_loop p now rate (prefetch p hs) empty_dicts hs = Ok d →
  (get_price_native p sym).1 = Some px →
  (∀ h', h' ∈ hs2 → h_Ticker h' = h_Ticker h →
     (get_price_native p (norm_ticker (h_Ticker h') (h_Market h'))).1
     = None) →
  get_daily_hist_400d p sym = None →
  native_price d !! h_Ticker h = Some px
  ∧ perf_str d !! h_Ticker h = Some ("", "", "")
  ∧ perf1_num d !! h_Ticker h = Some None
  ∧ perf6_num d !! h_Ticker h = Some None
  ∧ perf12_num d !! h_Ticker h = Some None
  ∧ (∀ target r ret_dict,
       Ticker r = h_Ticker h →
       ret_dict = perf1_num d ∨ ret_dict = perf6_num d
       ∨ ret_dict = perf12_num d →
       agg_row rate (prefetch p hs) ret_dict target r = Ok None).
Proof.
  intros hs sym Hloop Hpx Hlater Hhist.
  destruct (holdings_loop_last _ _ _ _ _ _ _ _ _ _ Hloop Hpx Hlater)
    as (p1s & p6s & p12s & r1 & r6 & r12 & Hc & He).
  rewrite (prefetch_get p hs h) in Hc.
  2:{ apply elem_of_app. right. by left. }
  fold sym in Hhist. unfold yf_symbol in Hc. fold sym in Hc.
  rewrite Hhist in Hc. cbn in Hc. simplify_eq.
  unfold entries in He.
  assert (native_price d !! h_Ticker h = Some px
          ∧ perf_str d !! h_Ticker h = Some ("", "", "")
          ∧ perf1_num d !! h_Ticker h = Some None
          ∧ perf6_num d !! h_Ticker h = Some None
          ∧ perf12_num d !! h_Ticker h = Some None)
    as (Hn & Hps & H1 & H6 & H12) by (by simplify_eq).
  repeat split; try done.
  intros target r ret_dict Ht Hd. unfold agg_row, dict_get. rewrite Ht.
  by destruct Hd as [->|[->| ->]]; rewrite ?H1, ?H6, ?H12.
Qed.

(** A holding priced by its info fields, whose history cannot be downloaded.
    *)
Lemma missing_history_blank_returns_witness :
  ∃ d, holdings_loop demo_provider (day 1000) (qn 2 1)
         (prefetch demo_provider [holding_a; holding_c]) empty_dicts
         [holding_a; holding_c] = Ok d
       ∧ native_price d !! "CCC" = Some (qn 7 1)
       ∧ perf_str d !! "CCC" = Some ("", "", "")
       ∧ perf1_num d !! "CCC" = Some None.
Proof.
  assert (∃ d, holdings_loop demo_provider (day 1000) (qn 2 1)
                 (prefetch demo_provider [holding_a; holding_c]) empty_dicts
                 [holding_a; holding_c] = Ok d) as [d Hd].
  { eexists. vm_compute. reflexivity. }
  exists d. split; [exact Hd|].
  destruct (missing_history_blank_returns demo_provider (day 1000) (qn 2 1)
              [holding_a] [] holding_c d (qn 7 1) Hd)
    as (Hn & Hs & H1 & _); [reflexivity| |reflexivity|done].
  by intros h' ?%elem_of_nil.
Defined.

(** X27. When the last close of the currency pair is NaN, the rate is NaN;
    and with a NaN rate, on a sheet where a ticker is on one market only, no
    US holding is shown. *)
Theorem nan_rate_hides_foreign_holdings (p : Provider) :
  (∀ fx, download p "AUDUSD=X" "5d" "1d" = Ok fx →
         last_close fx = Ok (Some NaN) → get_aud_per_usd p = NaN)
  ∧ (∀ now has_avgcost hs rows snap,
       get_aud_per_usd p = NaN →
       main p now has_avgcost hs = Ok (rows, snap) →
       (∀ h h', h ∈ hs → h' ∈ hs → h_Ticker h = h_Ticker h' →
                h_Market h = h_Market h') →
       ∀ r, r ∈ rows → Market r ≠ "US").
Proof.
  split.
  - intros fx Hfx Hl. unfold get_aud_per_usd, aud_per_usd_body.
    by rewrite Hfx; cbn [mbind result_bind]; rewrite Hl.
  - intros now has_avgcost hs rows snap Hrate Hmain Huniq r Hr Hus.
    destruct (main_inv _ _ _ _ _ _ Hmain) as (d & Hd & Hrows & _).
    rewrite Hrows in Hr. apply shown_of_elem in Hr as [Hp Hr].
    apply list_elem_of_fmap in Hr as (h & -> & Hh).
    cbn in Hp, Hus. unfold map_get in Hp.
    destruct (price_aud d !! h_Ticker h) as [v|] eqn:Hv; [|done].
    cbn in Hp.
    destruct (holdings_loop_price_aud _ _ _ _ _ _ _ Hd _ _ Hv)
      as [Habs|(h' & px & Hh' & Hk' & Hpx & ->)].
    { unfold empty_dicts in Habs. cbn [price_aud] in Habs.
      by rewrite lookup_empty in Habs. }
    rewrite (Huniq h' h Hh' Hh Hk'), Hus, Hrate in Hp.
    unfold price_to_aud in Hp. rewrite bool_decide_eq_true_2 in Hp by done.
    by destruct px.
Qed.

(** The currency pair without a last close: the US holding disappears. *)
Lemma nan_rate_hides_foreign_holdings_witness :
  get_aud_per_usd demo_provider_nan_fx = NaN
  ∧ ∃ rows snap,
      main demo_provider_nan_fx (day 1000) true [holding_a; holding_b]
      = Ok (rows, snap)
      ∧ ∀ r, r ∈ rows → Market r ≠ "US".
Proof.
  assert (get_aud_per_usd demo_provider_nan_fx = NaN) as Hrate.
  { apply (proj1 (nan_rate_hides_foreign_holdings demo_provider_nan_fx)
             {| df_index := [day 998; day 999];
                df_columns := Flat [("Close", [qn 1 2; NaN])] |});
      reflexivity. }
  split; [exact Hrate|].
  assert (∃ x, main demo_provider_nan_fx (day 1000) true
                 [holding_a; holding_b] = Ok x) as ([rows snap] & Hrun).
  { eexists. vm_compute. reflexivity. }
  exists rows, snap. split; [exact Hrun|].
  apply (proj2 (nan_rate_hides_foreign_holdings demo_provider_nan_fx)
           (day 1000) true [holding_a; holding_b] rows snap Hrate Hrun).
  intros h h' Hh Hh'.
  apply elem_of_cons in Hh as [->|Hh];
    [|apply list_elem_of_singleton in Hh as ->];
    (apply elem_of_cons in Hh' as [->|Hh'];
     [|apply list_elem_of_singleton in Hh' as ->]); done.
Defined.

(** ** Rendering of small returns *)

Lemma Qfloor_small (x : Qc) : (0 ≤ x)%Qc → (x < 1)%Qc → Qfloor x = 0.
Proof.
  intros H0 H1.
  assert (0 ≤ Qfloor x) as Ha.
  { rewrite <- (Qfloor_Z 0). apply Qfloor_resp_le. exact H0. }
  assert (Qfloor x < 1) as Hb.
  { rewrite Zlt_Qlt. eapply Qle_lt_trans; [apply Qfloor_le|exact H1]. }
  lia.
Qed.

Lemma round_small (x : Qc) :
  (0 ≤ x)%Qc → (x * Qz 2 < Qz 1)%Qc → round_half_even x = 0.
Proof.
  intros H0 H1. unfold round_half_even.
  rewrite Qfloor_small; [|done|qc_lra]. cbv zeta.
  rewrite bool_decide_eq_true_2; [done|]. qc_lra.
Qed.

Lemma format_pct_small (r : Qc) :
  (Q2Qc (-1 # 2000) < r)%Qc → (r < Q2Qc (1 # 2000))%Qc →
  format_pct (Fin r)
  = if bool_decide (r < Qz 0)%Qc then "-0.0%" else "0.0%".
Proof.
  intros Hlo Hhi. unfold format_pct, fmul, format_1f.
  assert (bool_decide (r * Qz 100 < Qz 0)%Qc = bool_decide (r < Qz 0)%Qc)
    as ->.
  { apply bool_decide_ext. split; intros; qc_lra. }
  rewrite round_small.
  - by case_bool_decide.
  - unfold Qc_abs. case_bool_decide; qc_lra.
  - unfold Qc_abs. case_bool_decide; qc_lra.
Qed.

(** X28. A return strictly between -0.05% and 0.05% is rendered as [0.0%],
    as [-0.0%] below zero, by the table and by the badges alike. The badge
    takes its colour from the sign of the value, so it is positive or
    negative with that text, whereas the chip, coloured from the text read
    back as a number, is neutral. *)
Theorem tiny_return_rendering (r : Qc) :
  (Q2Qc (-1 # 2000) < r)%Qc → (r < Q2Qc (1 # 2000))%Qc →
  (to_str (Some (Fin r)) = fmt_badge_val (Some (Fin r)))
  ∧ ((0 < r)%Qc → badge (Some (Fin r)) = span "badge" "pos" "0.0%")
  ∧ ((r < 0)%Qc → badge (Some (Fin r)) = span "badge" "neg" "-0.0%")
  ∧ (r = 0%Qc → badge (Some (Fin r)) = span "badge" "neu" "0.0%")
  ∧ (∀ parse, parse "0.0" = Ok fzero → (0 ≤ r)%Qc →
       perf_span parse (or_dash (to_str (Some (Fin r))))
       = span "perf" "neu" "0.0%").
Proof.
  intros Hlo Hhi. pose proof (format_pct_small r Hlo Hhi) as Hf.
  split; [done|]. unfold badge, sign_class, flt, fzero. rewrite Hf.
  split; [|split; [|split]].
  - intros Hr. rewrite bool_decide_eq_true_2 by qc_lra.
    by rewrite bool_decide_eq_false_2 by qc_lra.
  - intros Hr. rewrite bool_decide_eq_false_2 by qc_lra.
    by rewrite !bool_decide_eq_true_2 by qc_lra.
  - intros ->. reflexivity.
  - intros parse Hp Hr. cbn [to_str]. rewrite Hf.
    rewrite bool_decide_eq_false_2 by qc_lra.
    change (or_dash "0.0%") with "0.0%". unfold perf_span.
    change (bool_decide ("0.0%" = "") || bool_decide ("0.0%" = "-"))
      with false.
    change (remove_percent "0.0%") with "0.0". by rewrite Hp.
Qed.

(** One hundredth of a percent, up and down. *)
Lemma tiny_return_rendering_witness :
  badge (Some (qn 1 10000)) = span "badge" "pos" "0.0%"
  ∧ badge (Some (qn (-1) 10000)) = span "badge" "neg" "-0.0%".
Proof.
  split.
  - apply (proj1 (proj2 (tiny_return_rendering (Q2Qc (1 # 10000))
                           ltac:(by vm_compute) ltac:(by vm_compute)))).
    by vm_compute.
  - apply (proj1 (proj2 (proj2 (tiny_return_rendering (Q2Qc (-1 # 10000))
                           ltac:(by vm_compute) ltac:(by vm_compute))))).
    by vm_compute.
Defined.

(** ** Escaped text *)

Lemma append_assoc (s t u : string) : (s +:+ t) +:+ u = s +:+ (t +:+ u).
Proof.
  induction s as [|a s IH]; [done|].
  change (String a s +:+ t) with (String a (s +:+ t)).
  change (String a (s +:+ t) +:+ u) with (String a ((s +:+ t) +:+ u)).
  by rewrite IH.
Qed.

Lemma replace_char_app c rep s t :
  replace_char c rep (s +:+ t) = replace_char c rep s +:+ replace_char c rep t.
Proof.
  induction s as [|a s IH]; [done|].
  change (String a s +:+ t) with (String a (s +:+ t)). cbn [replace_char].
  rewrite IH. case_bool_decide; [|done].
  by rewrite append_assoc.
Qed.

Lemma replace_char_eq c rep s :
  replace_char c rep (String c s) = rep +:+ replace_char c rep s.
Proof. cbn [replace_char]. by rewrite bool_decide_eq_true_2. Qed.

Lemma replace_char_ne c rep a s :
  a ≠ c → replace_char c rep (String a s) = String a (replace_char c rep s).
Proof. intros Hne. cbn [replace_char]. by rewrite bool_decide_eq_false_2. Qed.

Lemma html_escape_cons c s :
  html_escape (String c s) = escape_char c +:+ html_escape s.
Proof.
  unfold html_escape, escape_char. cbv zeta.
  destruct (decide (c = "&"%char)) as [->|H1].
  { rewrite replace_char_eq, !replace_char_app. reflexivity. }
  rewrite (replace_char_ne "&") by done.
  rewrite (bool_decide_eq_false_2 _ H1).
  destruct (decide (c = "<"%char)) as [->|H2].
  { rewrite replace_char_eq, !replace_char_app. reflexivity. }
  rewrite (replace_char_ne "<") by done.
  rewrite (bool_decide_eq_false_2 _ H2).
  destruct (decide (c = ">"%char)) as [->|H3].
  { rewrite replace_char_eq, !replace_char_app. reflexivity. }
  rewrite (replace_char_ne ">") by done.
  rewrite (bool_decide_eq_false_2 _ H3).
  destruct (decide (c = "034"%char)) as [->|H4].
  { rewrite replace_char_eq, !replace_char_app. reflexivity. }
  rewrite (replace_char_ne "034") by done.
  rewrite (bool_decide_eq_false_2 _ H4).
  destruct (decide (c = "'"%char)) as [->|H5].
  { rewrite replace_char_eq. reflexivity. }
  rewrite (replace_char_ne "'") by done.
  by rewrite (bool_decide_eq_false_2 _ H5).
Qed.

Lemma has_markup_app s t : has_markup (s +:+ t) = has_markup s || has_markup t.
Proof.
  induction s as [|a s IH]; [done|].
  change (String a s +:+ t) with (String a (s +:+ t)). cbn [has_markup].
  by rewrite IH, orb_assoc.
Qed.

Lemma escape_char_clean c : has_markup (escape_char c) = false.
Proof.
  unfold escape_char. repeat case_bool_decide; try reflexivity.
  cbn [has_markup]. unfold is_markup.
  by rewrite !bool_decide_eq_false_2 by done.
Qed.

Lemma escape_char_id c :
  c ≠ "&"%char → is_markup c = false → escape_char c = String c EmptyString.
Proof.
  intros Ha Hm. unfold is_markup in Hm.
  apply orb_false_iff in Hm as [Hm H4]. apply orb_false_iff in Hm as [Hm H3].
  apply orb_false_iff in Hm as [H1 H2].
  apply bool_decide_eq_false in H1, H2, H3, H4.
  unfold escape_char. by rewrite !bool_decide_eq_false_2 by done.
Qed.

(** X29. The escaping applied to the name and the ticker of a card leaves
    none of the characters [<], [>], double quote and apostrophe; a text
    without those and without an ampersand is unchanged; and escaping
    distributes over concatenation. *)
Theorem escaped_text_has_no_markup (s : string) :
  has_markup (html_escape s) = false
  ∧ (has_markup s = false → has_amp s = false → html_escape s = s)
  ∧ (∀ t, html_escape (s +:+ t) = html_escape s +:+ html_escape t).
Proof.
  split; [|split].
  - induction s as [|c s IH]; [done|].
    by rewrite html_escape_cons, has_markup_app, escape_char_clean, IH.
  - induction s as [|c s IH]; [done|]. cbn [has_markup has_amp].
    intros [Hm Hs]%orb_false_iff [Ha Hs']%orb_false_iff.
    apply bool_decide_eq_false in Ha.
    rewrite html_escape_cons, escape_char_id, IH by done. done.
  - intros t. induction s as [|c s IH]; [done|].
    change (String c s +:+ t) with (String c (s +:+ t)).
    by rewrite !html_escape_cons, IH, append_assoc.
Qed.

(** A plain name, and a name with tags and an ampersand. *)
Lemma escaped_text_has_no_markup_witness :
  html_escape "BHP Group" = "BHP Group"
  ∧ has_markup (html_escape "<b>Rock & Co</b>") = false.
Proof.
  split.
  - apply (proj1 (proj2 (escaped_text_has_no_markup "BHP Group")));
      reflexivity.
  - apply (proj1 (escaped_text_has_no_markup "<b>Rock & Co</b>")).
Defined.
